(** * Butterflies around earnings: the single-event backtester and its batch runner

    A shallow embedding of [research/backtester.py] (class [ButterflyBacktester])
    and of [research/run_.py] (function [backtest_by_ticker_template]).

    Modelling conventions.
    - A [pd.Timestamp] at midnight is its day number, an integer; the [.days]
      of a difference of two timestamps is the difference of the day numbers.
    - A float column is an exact rational ([Q]): finite values, no rounding,
      no not-a-number inside the data.  Where Python would divide by zero
      the model raises, as Python does.  Two places leave exact arithmetic:
      the entry size of [pnl] is [int] of a product rounded to binary64, and
      the curvature methods are given a second time over Python floats
      ([pyfloat]: binary64 with infinities and not-a-number), because the
      implied volatility and the delta of a quote may be not-a-number.
    - A data frame is the list of its rows, in row order; a boolean mask is
      [filter]; [.iloc[k]] is positional lookup.
    - Python exceptions are values of [exn]; a computation that may raise
      returns a [result]. *)

From Stdlib Require Import ZArith QArith Qminmax Qabs Qround List String Ascii Bool Lia.
From Stdlib Require Import DecimalString Sorted Lqa.
Import ListNotations.
Open Scope Z_scope.

(** ** Exceptions and the error monad *)

Inductive exn : Type :=
| IndexError (msg : string)
| ValueError (msg : string)
| TypeError (msg : string)
| AttributeError (name : string)
| KeyError (key : string)
| AssertionError
| ZeroDivisionError
| OverflowError
| RuntimeWarning.

Inductive result (A : Type) : Type :=
| Ok (a : A)
| Raise (e : exn).
Arguments Ok {A} a.
Arguments Raise {A} e.

Definition bind {A B : Type} (m : result A) (k : A -> result B) : result B :=
  match m with
  | Ok a => k a
  | Raise e => Raise e
  end.

Notation "x <- m ;; k" := (bind m (fun x => k))
  (at level 61, m at next level, right associativity).
Notation "' p <- m ;; k" := (bind m (fun q => let p := q in k))
  (at level 61, p pattern, m at next level, right associativity).

(** The message of every [raise IndexError("Out of data range")] of the class. *)
Definition data_range_msg : string := "Out of data range".
Definition DataRangeError : exn := IndexError data_range_msg.

(** [isinstance(error, IndexError) and str(error) == "Out of data range"]. *)
Definition is_data_range (e : exn) : bool :=
  match e with
  | IndexError msg => String.eqb msg data_range_msg
  | _ => false
  end.

(** ** Python sequences *)

Definition string_of_Z (z : Z) : string := NilZero.string_of_int (Z.to_int z).

(** The text NumPy puts in the [IndexError] of an out-of-range position. *)
Definition out_of_bounds_msg (i n : Z) : string :=
  ("index " ++ string_of_Z i ++ " is out of bounds for axis 0 with size " ++ string_of_Z n)%string.

(** [l[i]] for an integer [i]: positions [0 .. n-1] count from the start,
    positions [-n .. -1] from the end, anything else raises [IndexError]. *)
Definition getitem {A : Type} (l : list A) (i : Z) : result A :=
  let n := Z.of_nat (List.length l) in
  let pos := if i <? 0 then n + i else i in
  if (0 <=? pos) && (pos <? n) then
    match nth_error l (Z.to_nat pos) with
    | Some a => Ok a
    | None => Raise (IndexError (out_of_bounds_msg i n))
    end
  else Raise (IndexError (out_of_bounds_msg i n)).

(** [np.where(mask)[0][0]]: the first position whose entry satisfies [p]. *)
Fixpoint find_index {A : Type} (p : A -> bool) (l : list A) : option nat :=
  match l with
  | [] => None
  | a :: l' => if p a then Some O else option_map S (find_index p l')
  end.

(** [np.argmax] on integers: position of the first largest entry. *)
Fixpoint argmax_from (best : Z) (bi i : nat) (l : list Z) : nat :=
  match l with
  | [] => bi
  | x :: l' => if best <? x then argmax_from x i (S i) l' else argmax_from best bi (S i) l'
  end.

Definition argmax (l : list Z) : nat :=
  match l with
  | [] => O
  | x :: l' => argmax_from x O 1%nat l'
  end.

Definition Qltb (x y : Q) : bool :=
  match (x ?= y)%Q with
  | Lt => true
  | _ => false
  end.

(** [Series.argmin]: position of the first smallest entry. *)
Fixpoint argmin_from (best : Q) (bi i : nat) (l : list Q) : nat :=
  match l with
  | [] => bi
  | x :: l' => if Qltb x best then argmin_from x i (S i) l' else argmin_from best bi (S i) l'
  end.

Definition argmin (l : list Q) : nat :=
  match l with
  | [] => O
  | x :: l' => argmin_from x O 1%nat l'
  end.

(** [df.iloc[score.argmin()]] where [score] is a column computed from the
    frame; pandas raises [ValueError] on an empty frame. *)
Definition iloc_argmin {A : Type} (score : A -> Q) (df : list A) : result A :=
  match nth_error df (argmin (map score df)) with
  | Some r => Ok r
  | None => Raise (ValueError "attempt to get argmin of an empty sequence")
  end.

(** [s in t] on strings. *)
Fixpoint contains (s t : string) : bool :=
  if String.prefix s t then true
  else match t with
       | EmptyString => false
       | String _ t' => contains s t'
       end.

(** ** The option chain *)

Inductive PutCall : Type := put | call.

Definition PutCall_eqb (a b : PutCall) : bool :=
  match a, b with
  | put, put | call, call => true
  | _, _ => false
  end.

Record Row : Type := mkRow {
  ExpirationDate : Z;
  DataDate : Z;
  PutCallOf : PutCall;
  StrikePrice : Q;
  UnderlyingPrice : Q;
  AskPrice : Q;
  AskSize : Z;
  BidPrice : Q;
  BidSize : Z;
  MidPrice : Q;
  DTE : Z;
  StrikeProp : Q;
  ImpliedVolatility : Q;
  Delta : Q;
  Vega : Q
}.

(** The two columns added by [__get_all_contract_info]:
    ['1/4'] is the price one can sell at, ['3/4'] the price one can buy at. *)
Definition quarter (r : Row) : Q := ((BidPrice r + MidPrice r) / 2)%Q.
Definition three_quarter (r : Row) : Q := ((MidPrice r + AskPrice r) / 2)%Q.

(** [(exit_ == exit_.iloc[0]).all(axis=1)] for one row: all columns equal. *)
Definition Row_eqb (a b : Row) : bool :=
  (ExpirationDate a =? ExpirationDate b) && (DataDate a =? DataDate b)
  && PutCall_eqb (PutCallOf a) (PutCallOf b)
  && Qeq_bool (StrikePrice a) (StrikePrice b)
  && Qeq_bool (UnderlyingPrice a) (UnderlyingPrice b)
  && Qeq_bool (AskPrice a) (AskPrice b) && (AskSize a =? AskSize b)
  && Qeq_bool (BidPrice a) (BidPrice b) && (BidSize a =? BidSize b)
  && Qeq_bool (MidPrice a) (MidPrice b) && (DTE a =? DTE b)
  && Qeq_bool (StrikeProp a) (StrikeProp b)
  && Qeq_bool (ImpliedVolatility a) (ImpliedVolatility b)
  && Qeq_bool (Delta a) (Delta b) && Qeq_bool (Vega a) (Vega b)
  && Qeq_bool (quarter a) (quarter b) && Qeq_bool (three_quarter a) (three_quarter b).

Definition on_date (d : Z) (df : list Row) : list Row :=
  filter (fun r => DataDate r =? d) df.

Definition with_flag (f : PutCall) (df : list Row) : list Row :=
  filter (fun r => PutCall_eqb (PutCallOf r) f) df.

(** ** Construction of one event *)

(** [__fix_edate]: position and date of the close right before the call. *)
Definition fix_edate (tdays : list Z) (edate : Z) (before_market_open : bool)
  : result (Z * Z) :=
  '(edate_idx, before_market_open) <-
     match find_index (Z.eqb edate) tdays with
     | Some i => Ok (Z.of_nat i, before_market_open)
     | None =>
         let diff := map (fun t => t - edate) tdays in
         let temp := filter (fun d => d <? 0) diff in
         if (List.length temp =? 0)%nat then Raise DataRangeError
         else Ok (Z.of_nat (argmax temp), false)
     end ;;
  let edate_idx := if before_market_open then edate_idx - 1 else edate_idx in
  edate <- getitem tdays edate_idx ;;
  Ok (edate_idx, edate).

(** [__get_expiry]: the expiry of the row with the least [|DTE|] among the
    rows observed [min_days_expiry] calendar entries after the anchor. *)
Definition get_expiry (data : list Row) (tdays : list Z) (edate_idx min_days_expiry : Z)
  : result Z :=
  earliest_date <- match getitem tdays (edate_idx + min_days_expiry) with
                   | Ok d => Ok d
                   | Raise (IndexError _) => Raise DataRangeError
                   | Raise e => Raise e
                   end ;;
  let df := on_date earliest_date data in
  ser <- iloc_argmin (fun r => inject_Z (Z.abs (DTE r))) df ;;
  Ok (ExpirationDate ser).

(** The holding period after the check of [__get_exit_date]. *)
Definition clamp_holding (to_expiry holding_period : Z) : Z :=
  if holding_period >? to_expiry then to_expiry - 1 else holding_period.

(** [__get_exit_date]. *)
Definition get_exit_date (tdays : list Z) (edate_idx edate expiry holding_period : Z)
  : result Z :=
  let to_expiry := expiry - edate in
  getitem tdays (edate_idx + clamp_holding to_expiry holding_period).

(** [frame[frame['DataDate'] == d]['UnderlyingPrice'].iloc[0]]. *)
Definition first_underlying (d : Z) (frame : list Row) : option Q :=
  match on_date d frame with
  | [] => None
  | r :: _ => Some (UnderlyingPrice r)
  end.

Definition both_prices (expiry edate : Z) (frame : list Row) : option (Q * Q) :=
  match first_underlying expiry frame with
  | None => None
  | Some final_price =>
      match first_underlying edate frame with
      | None => None
      | Some entry_price => Some (entry_price, final_price)
      end
  end.

(** [__get_underlying_prices]: (entry price, final price), looked up in the
    chain of the expiry first and in the whole table otherwise. *)
Definition get_underlying_prices (df option_data : list Row) (expiry edate : Z)
  : result (Q * Q) :=
  match both_prices expiry edate df with
  | Some p => Ok p
  | None =>
      match both_prices expiry edate option_data with
      | Some p => Ok p
      | None => Raise DataRangeError
      end
  end.

(** ** The four legs *)

(** The keys of [self.contracts], in the order of the dictionary. *)
Inductive Contract : Type := OTM_Put | ATM_Put | ATM_Call | OTM_Call.

Definition contract_name (c : Contract) : string :=
  match c with
  | OTM_Put => "OTM Put"
  | ATM_Put => "ATM Put"
  | ATM_Call => "ATM Call"
  | OTM_Call => "OTM Call"
  end.

Definition all_contracts : list Contract := [OTM_Put; ATM_Put; ATM_Call; OTM_Call].

(** [True if contract_name[0] == 'O' else False]. *)
Definition is_wing (name : string) : bool :=
  match name with
  | String c _ => Ascii.eqb c "O"
  | EmptyString => false
  end.

Definition wing (c : Contract) : bool := is_wing (contract_name c).

(** [contract_name.split()[1].lower()], as a value of the [PutCall] column. *)
Definition flag (c : Contract) : PutCall :=
  match c with
  | OTM_Put | ATM_Put => put
  | ATM_Call | OTM_Call => call
  end.

(** The value stored under one key of [self.contracts]. *)
Record Leg : Type := mkLeg {
  Strike : Q;
  EntryPrice : Q;
  EntrySize : Z;
  EntryIV : Q;
  EntryVega : Q;
  EntryIntrinsic : Q;
  ExitPrice : Q;
  ExitSize : Z;
  ExitIV : Q;
  ExitVega : Q;
  ExitIntrinsic : Q;
  ExpirationValue : Q
}.

(** [intrinsic_value(row, flag)]. *)
Definition intrinsic_value (row : Row) (f : PutCall) : Q :=
  match f with
  | call => Qmax 0 (UnderlyingPrice row - StrikePrice row)
  | put => Qmax 0 (StrikePrice row - UnderlyingPrice row)
  end.

(** [expiration_value(strike, flag)], with [self.final_price] passed in. *)
Definition expiration_value (final_price strike : Q) (f : PutCall) : Q :=
  match f with
  | call => Qmax 0 (final_price - strike)
  | put => Qmax 0 (strike - final_price)
  end.

(** The strike-proportion each key aims at ([strike_prop_map]). *)
Definition strike_prop_map (wing_width : Q) (c : Contract) : Q :=
  match c with
  | OTM_Put => (1 - wing_width)%Q
  | ATM_Put => 1%Q
  | ATM_Call => 1%Q
  | OTM_Call => (1 + wing_width)%Q
  end.

(** The entry row of a leg: the quote of its side on the anchor date whose
    strike proportion is nearest to the target. *)
Definition select_entry (df : list Row) (edate : Z) (c : Contract) (strike_prop : Q)
  : result Row :=
  let df_entry := on_date edate (with_flag (flag c) df) in
  if (List.length df_entry =? 0)%nat then Raise DataRangeError
  else iloc_argmin (fun r => Qabs (StrikeProp r - strike_prop)) df_entry.

(** The exit row of a leg: the quote of the same strike on the exit date. *)
Definition select_exit (df : list Row) (exit_date : Z) (c : Contract) (entry : Row)
  : result Row :=
  let exit_ := filter (fun r => (DataDate r =? exit_date)
                                && Qeq_bool (StrikePrice r) (StrikePrice entry))
                      (with_flag (flag c) df) in
  match exit_ with
  | [] => Raise DataRangeError
  | r :: [] => Ok r
  | r :: _ => if forallb (fun r' => Row_eqb r' r) exit_ then Ok r else Raise AssertionError
  end.

(** The dictionary stored for one leg from its entry and exit rows. *)
Definition leg_of_rows (c : Contract) (final_price : Q) (entry exit_ : Row) : Leg :=
  let entry_intrinsic := intrinsic_value entry (flag c) in
  let exit_intrinsic := intrinsic_value exit_ (flag c) in
  let final_value := expiration_value final_price (StrikePrice entry) (flag c) in
  {| Strike := StrikePrice entry;
     EntryPrice := if wing c then three_quarter entry
                   else Qmax entry_intrinsic (quarter entry);
     EntrySize := if wing c then AskSize entry else BidSize entry;
     EntryIV := ImpliedVolatility entry;
     EntryVega := Vega entry;
     EntryIntrinsic := entry_intrinsic;
     ExitPrice := if wing c then Qmax exit_intrinsic (quarter exit_)
                  else three_quarter exit_;
     ExitSize := if wing c then BidSize exit_ else AskSize exit_;
     ExitIV := ImpliedVolatility exit_;
     ExitVega := Vega exit_;
     ExitIntrinsic := exit_intrinsic;
     ExpirationValue := final_value |}.

(** [get_single_contract_info(contract_name, strike_prop)]. *)
Definition get_single_contract_info (df : list Row) (edate exit_date : Z) (final_price : Q)
  (c : Contract) (strike_prop : Q) : result Leg :=
  entry <- select_entry df edate c strike_prop ;;
  exit_ <- select_exit df exit_date c entry ;;
  Ok (leg_of_rows c final_price entry exit_).

(** [__get_all_contract_info]: the loop over the keys of [self.contracts]. *)
Fixpoint get_all_contract_info (df : list Row) (edate exit_date : Z) (final_price wing_width : Q)
  (names : list Contract) : result (list (Contract * Leg)) :=
  match names with
  | [] => Ok []
  | c :: names' =>
      leg <- get_single_contract_info df edate exit_date final_price c
               (strike_prop_map wing_width c) ;;
      rest <- get_all_contract_info df edate exit_date final_price wing_width names' ;;
      Ok ((c, leg) :: rest)
  end.

(** The instance variables of a [ButterflyBacktester]. *)
Record Backtester : Type := mkBacktester {
  tdays : list Z;
  edate_idx : Z;
  edate : Z;
  expiry : Z;
  df : list Row;
  exit_date : Z;
  entry_price : Q;
  final_price : Q;
  wing_width : Q;
  contracts : list (Contract * Leg)
}.

(** [ButterflyBacktester.__init__]. *)
Definition init (option_data : list Row) (earnings_date : Z) (trading_days : list Z)
  (before_market_open : bool) (holding_period : Z) (wing_width : Q) (min_days_expiry : Z)
  : result Backtester :=
  '(edate_idx, edate) <- fix_edate trading_days earnings_date before_market_open ;;
  expiry <- get_expiry option_data trading_days edate_idx min_days_expiry ;;
  let df := filter (fun r => ExpirationDate r =? expiry) option_data in
  exit_date <- get_exit_date trading_days edate_idx edate expiry holding_period ;;
  '(entry_price, final_price) <- get_underlying_prices df option_data expiry edate ;;
  contracts <- get_all_contract_info df edate exit_date final_price wing_width all_contracts ;;
  Ok {| tdays := trading_days; edate_idx := edate_idx; edate := edate; expiry := expiry;
        df := df; exit_date := exit_date; entry_price := entry_price;
        final_price := final_price; wing_width := wing_width; contracts := contracts |}.

(** The defaults of the constructor. *)
Definition default_holding_period : Z := 5.
Definition default_wing_width : Q := (1 # 10)%Q.
Definition default_min_days_expiry : Z := 10.

(** ** Research methods *)

(** ** Binary64 rounding *)

(** The power [2^e], for any integer exponent. *)
Definition pow2 (e : Z) : Q :=
  if 0 <=? e then inject_Z (2 ^ e) else (/ inject_Z (2 ^ (- e)))%Q.

(** The integer part of the binary logarithm of a positive rational. *)
Definition ilog2 (x : Q) : Z :=
  let l := Z.log2 (Qnum x) - Z.log2 (Zpos (Qden x)) in
  if Qle_bool (pow2 l) x then l else l - 1.

(** The nearest integer, ties to the even one. *)
Definition round_half_even (x : Q) : Z :=
  let f := Qfloor x in
  match ((x - inject_Z f) ?= 1 # 2)%Q with
  | Lt => f
  | Gt => f + 1
  | Eq => if Z.even f then f else f + 1
  end.

(** The binary64 value nearest to [x], ties to even: 53 significant bits,
    least exponent -1074; [None] is an infinite result. *)
Definition round_binary64 (x : Q) : option Q :=
  if Qeq_bool x 0 then Some 0%Q
  else
    let a := Qabs x in
    let e := Z.max (ilog2 a - 52) (-1074) in
    let r := Qred (inject_Z (round_half_even (a / pow2 e)) * pow2 e) in
    if Qle_bool (pow2 1024) r then None
    else Some (if Qle_bool 0 x then r else (- r)%Q).

(** An integer as a float: exact up to [2^53] in absolute value. *)
Definition float_of_int (m : Z) : option Q :=
  if Z.abs m <=? 2 ^ 53 then Some (inject_Z m) else round_binary64 (inject_Z m).

(** [m * ratio] for a NumPy integer and a Python float: the float product,
    rounded once. *)
Definition float_product (m : Z) (ratio : Q) : option Q :=
  match float_of_int m with
  | Some fm => round_binary64 (fm * ratio)
  | None => None
  end.

(** A value that fits a 32-bit integer, the type of the size columns. *)
Definition int32 (z : Z) : Prop := - 2 ^ 31 <= z < 2 ^ 31.

(** [int(x)] on a float: truncation toward zero. *)
Definition int_of_Q (x : Q) : Z := Z.quot (Qnum x) (Zpos (Qden x)).

(** [min(xs)] on a list of integers; Python raises [ValueError] on []. *)
Definition py_min (xs : list Z) : result Z :=
  match xs with
  | [] => Raise (ValueError "min() arg is an empty sequence")
  | x :: xs' => Ok (fold_left Z.min xs' x)
  end.

Definition qsum (xs : list Q) : Q := fold_left Qplus xs 0%Q.

(** [self.contracts[key]]. *)
Fixpoint lookup (c : Contract) (cs : list (Contract * Leg)) : result Leg :=
  match cs with
  | [] => Raise (KeyError (contract_name c))
  | (c', leg) :: cs' =>
      if String.eqb (contract_name c') (contract_name c) then Ok leg else lookup c cs'
  end.

(** What a research method hands back to the batch runner. *)
Inductive Value : Type :=
| VFloat (x : Q)
| VNan
| VDict (before after : Q).

(** The rows [curve_changes] keeps: quotes with some liquidity. *)
Definition liquid (df : list Row) : list Row :=
  filter (fun r => Qltb 0 (BidPrice r) && Qltb 0 (AskPrice r)
                   && (0 <? BidSize r) && (0 <? AskSize r)) df.

(** [__curve_calc_disc], in exact arithmetic on finite values;
    [curve_calc_disc_float] below is the same method on floats. *)
Definition curve_calc_disc (df : list Row) : result Q :=
  if (List.length df =? 0)%nat then Raise DataRangeError
  else
    atm_put <- iloc_argmin (fun r => Qabs (Delta r + (1 # 2))) df ;;
    let atm_put_iv := ImpliedVolatility atm_put in
    atm_call <- iloc_argmin (fun r => Qabs (Delta r - (1 # 2))) df ;;
    let atm_call_iv := ImpliedVolatility atm_call in
    let atm_vol := ((atm_put_iv + atm_call_iv) / 2)%Q in
    let df_puts := with_flag put df in
    let df_calls := with_flag call df in
    if (List.length df_puts =? 0)%nat || (List.length df_calls =? 0)%nat
    then Raise DataRangeError
    else
      otm_put <- iloc_argmin (fun r => Qabs (StrikeProp r - (9 # 10))) df_puts ;;
      let otm_put_iv := ImpliedVolatility otm_put in
      otm_call <- iloc_argmin (fun r => Qabs (StrikeProp r - (11 # 10))) df_calls ;;
      let otm_call_iv := ImpliedVolatility otm_call in
      let otm_vol := ((otm_put_iv + otm_call_iv) / 2)%Q in
      if Qeq_bool atm_vol 0 then Raise ZeroDivisionError
      else Ok (otm_vol / atm_vol)%Q.

(** [pnl]: the body of the loop over [self.contracts.items()]. *)
Definition leg_pnl (actual_entry_size : Z) (name : string) (contract : Leg) : Q :=
  let wing := is_wing name in
  let remainder := Z.max 0 (actual_entry_size - ExitSize contract) in
  let offloaded := actual_entry_size - remainder in
  let main_pnl := ((ExitPrice contract - EntryPrice contract) * inject_Z offloaded)%Q in
  let leftover_pnl := ((ExpirationValue contract - EntryPrice contract) * inject_Z remainder)%Q in
  let curr_pnl := (main_pnl + leftover_pnl)%Q in
  if negb wing then (curr_pnl * -1)%Q else curr_pnl.

(** [pnl(entry_size_ratio)].  The entry size is [int] of the float product
    of the least size and the ratio, a binary64 value; an infinite product
    makes [int] raise.  The integer arithmetic on the sizes is exact here,
    as NumPy's is as long as the values fit the 32-bit size columns, and
    the arithmetic on prices is exact. *)
Definition pnl (self : Backtester) (entry_size_ratio : Q) : result Q :=
  m <- py_min (map (fun cl => EntrySize (snd cl)) (contracts self)) ;;
  product <- match float_product m entry_size_ratio with
             | Some product => Ok product
             | None => Raise OverflowError
             end ;;
  let actual_entry_size := int_of_Q product in
  if actual_entry_size =? 0 then Ok 0%Q
  else
    let total_pnl :=
      fold_left (fun total cl =>
                   (total + leg_pnl actual_entry_size (contract_name (fst cl)) (snd cl))%Q)
                (contracts self) 0%Q in
    Ok (total_pnl * 100)%Q.

(** [avg_exit_size_ratio]. *)
Definition avg_exit_size_ratio (self : Backtester) : result Value :=
  entry_size <- py_min (map (fun cl => EntrySize (snd cl)) (contracts self)) ;;
  if entry_size =? 0 then Ok VNan
  else
    let exit_size_ratios :=
      map (fun cl => Qmin 1 (inject_Z (ExitSize (snd cl)) / inject_Z entry_size))
          (contracts self) in
    Ok (VFloat (qsum exit_size_ratios / inject_Z (Z.of_nat (List.length exit_size_ratios)))).

(** [quality_of_fill]; the division is a NumPy one, whose warning on a
    zero divisor the module turns into an exception. *)
Definition quality_of_fill (self : Backtester) : result Q :=
  let net_credit :=
    fold_left (fun net cl =>
                 if is_wing (contract_name (fst cl)) then (net - EntryPrice (snd cl))%Q
                 else (net + EntryPrice (snd cl))%Q)
              (contracts self) 0%Q in
  if Qeq_bool (entry_price self) 0 then Raise RuntimeWarning
  else Ok (net_credit / entry_price self)%Q.

(** [vol_changes]: [get_entry_exit] for the two option types and fields. *)
Definition get_entry_exit (self : Backtester) (p c : Contract) (entry_f exit_f : Leg -> Q)
  : result (Q * Q) :=
  lp <- lookup p (contracts self) ;;
  lc <- lookup c (contracts self) ;;
  Ok (((entry_f lp + entry_f lc) / 2)%Q, ((exit_f lp + exit_f lc) / 2)%Q).

Definition vol_changes (self : Backtester) : result Q :=
  '(atm_vol_entry, atm_vol_exit) <- get_entry_exit self ATM_Put ATM_Call EntryIV ExitIV ;;
  let atm_vol_change := (atm_vol_exit - atm_vol_entry)%Q in
  '(otm_vol_entry, otm_vol_exit) <- get_entry_exit self OTM_Put OTM_Call EntryIV ExitIV ;;
  let otm_vol_change := (otm_vol_exit - otm_vol_entry)%Q in
  '(atm_vega_entry, atm_vega_exit) <- get_entry_exit self ATM_Put ATM_Call EntryVega ExitVega ;;
  let avg_atm_vega := ((atm_vega_entry + atm_vega_exit) / 2)%Q in
  '(otm_vega_entry, otm_vega_exit) <- get_entry_exit self OTM_Put OTM_Call EntryVega ExitVega ;;
  let avg_otm_vega := ((otm_vega_entry + otm_vega_exit) / 2)%Q in
  let scaled_diff := (otm_vol_change * avg_otm_vega - atm_vol_change * avg_atm_vega)%Q in
  Ok (scaled_diff * 100)%Q.

(** Keyword arguments of a research method: the keys a call may carry. *)
Record Kwargs : Type := mkKwargs {
  kw_method : option string;
  kw_days_before : option Z;
  kw_days_after : option Z;
  kw_entry_size_ratio : option Q
}.

Definition no_kwargs : Kwargs :=
  {| kw_method := None; kw_days_before := None; kw_days_after := None;
     kw_entry_size_ratio := None |}.

(** Keyword arguments of the constructor ([backtester_kwargs]). *)
Record InitKwargs : Type := mkInitKwargs {
  kw_holding_period : option Z;
  kw_wing_width : option Q;
  kw_min_days_expiry : option Z
}.

Definition no_init_kwargs : InitKwargs :=
  {| kw_holding_period := None; kw_wing_width := None; kw_min_days_expiry := None |}.

Definition default {A : Type} (o : option A) (d : A) : A :=
  match o with
  | Some a => a
  | None => d
  end.

Definition is_some {A : Type} (o : option A) : bool :=
  match o with
  | Some _ => true
  | None => false
  end.

Definition unexpected_keyword : exn := TypeError "got an unexpected keyword argument".

(** The instance variables: [getattr] finds them, calling them fails. *)
Definition data_attributes : list string :=
  ["tdays"; "edate"; "edate_idx"; "expiry"; "df"; "exit_date"; "entry_price";
   "final_price"; "wing_width"; "contracts"]%string.

Section Curvature.

(** [__curve_calc_cont] fits a parabola to implied volatility against the
    logarithm of the strike proportion with [np.polyfit]; logarithm and
    least-squares fit are NumPy's, so the method is a parameter here: any
    function of the day slice that returns a number or raises. *)
Variable curve_calc_cont : list Row -> result Q.

(** The choice of the curvature method at the head of [curve_changes]. *)
Definition select_method (method : string) : result (list Row -> result Q) :=
  if contains "disc" method then Ok curve_calc_disc
  else if contains "cont" method then Ok curve_calc_cont
  else Raise (ValueError "Invalid curve calculation method").

(** [curve_changes(method, days_before, days_after)]: the pair
    (change before, change after). *)
Definition curve_changes (self : Backtester) (method : string) (days_before days_after : Z)
  : result (Q * Q) :=
  method <- select_method method ;;
  let df := liquid (df self) in
  before_date <- getitem (tdays self) (edate_idx self - days_before) ;;
  after_date <- getitem (tdays self) (edate_idx self + days_after) ;;
  let df_before := on_date before_date df in
  let df_after := on_date after_date df in
  let df_earnings := on_date (edate self) df in
  before_curve <- method df_before ;;
  after_curve <- method df_after ;;
  earnings_curve <- method df_earnings ;;
  let change_before := (earnings_curve - before_curve)%Q in
  let change_after := (after_curve - earnings_curve)%Q in
  Ok (change_before, change_after).

(** [getattr(backtester, name)] for the public methods, each taking the
    keyword arguments of its signature and no others, and for the instance
    variables (the name-mangled private methods are left out). *)
Definition getattr (self : Backtester) (name : string) : result (Kwargs -> result Value) :=
  if String.eqb name "pnl" then
    Ok (fun kw =>
          if is_some (kw_method kw) || is_some (kw_days_before kw) || is_some (kw_days_after kw)
          then Raise unexpected_keyword
          else x <- pnl self (default (kw_entry_size_ratio kw) 1%Q) ;; Ok (VFloat x))
  else if String.eqb name "vol_changes" then
    Ok (fun kw =>
          if is_some (kw_method kw) || is_some (kw_days_before kw) || is_some (kw_days_after kw)
             || is_some (kw_entry_size_ratio kw)
          then Raise unexpected_keyword
          else x <- vol_changes self ;; Ok (VFloat x))
  else if String.eqb name "curve_changes" then
    Ok (fun kw =>
          if is_some (kw_entry_size_ratio kw) then Raise unexpected_keyword
          else
            '(b, a) <- curve_changes self (default (kw_method kw) "continuous"%string)
                         (default (kw_days_before kw) 5) (default (kw_days_after kw) 5) ;;
            Ok (VDict b a))
  else if String.eqb name "quality_of_fill" then
    Ok (fun kw =>
          if is_some (kw_method kw) || is_some (kw_days_before kw) || is_some (kw_days_after kw)
             || is_some (kw_entry_size_ratio kw)
          then Raise unexpected_keyword
          else x <- quality_of_fill self ;; Ok (VFloat x))
  else if String.eqb name "avg_exit_size_ratio" then
    Ok (fun kw =>
          if is_some (kw_method kw) || is_some (kw_days_before kw) || is_some (kw_days_after kw)
             || is_some (kw_entry_size_ratio kw)
          then Raise unexpected_keyword
          else avg_exit_size_ratio self)
  else if existsb (String.eqb name) data_attributes then
  Ok (fun _ => Raise (TypeError "object is not callable"))
else Raise (AttributeError name).

End Curvature.

(** ** Curvature on floats *)

(** The implied volatility and the delta of a quote come out of a pricing
    model and may be not-a-number or infinite.  For the curvature methods
    the two columns are therefore also read as Python floats, and the
    methods are given a second time over them, with the rounding of
    binary64 and the rules of IEEE 754 for the special values. *)
Inductive pyfloat : Type :=
| Fin (q : Q)
| PInf
| NInf
| NaN.

(** The float nearest to an exact result; an overflow gives an infinity. *)
Definition fround (x : Q) : pyfloat :=
  match round_binary64 x with
  | Some r => Fin r
  | None => if Qle_bool 0 x then PInf else NInf
  end.

(** The same for a column of dtype float32, the dtype the cleaning script
    of the repository gives to the float columns: 24 bits, least exponent
    -149. *)
Definition round_binary32 (x : Q) : option Q :=
  if Qeq_bool x 0 then Some 0%Q
  else
    let a := Qabs x in
    let e := Z.max (ilog2 a - 23) (-149) in
    let r := Qred (inject_Z (round_half_even (a / pow2 e)) * pow2 e) in
    if Qle_bool (pow2 128) r then None
    else Some (if Qle_bool 0 x then r else (- r)%Q).

Definition fround32 (x : Q) : pyfloat :=
  match round_binary32 x with
  | Some r => Fin r
  | None => if Qle_bool 0 x then PInf else NInf
  end.

Definition fneg (a : pyfloat) : pyfloat :=
  match a with
  | Fin x => Fin (- x)
  | PInf => NInf
  | NInf => PInf
  | NaN => NaN
  end.

Definition fabs (a : pyfloat) : pyfloat :=
  match a with
  | Fin x => Fin (Qabs x)
  | PInf | NInf => PInf
  | NaN => NaN
  end.

(** Addition and subtraction, the finite results rounded by [rnd]. *)
Definition fadd_with (rnd : Q -> pyfloat) (a b : pyfloat) : pyfloat :=
  match a, b with
  | NaN, _ | _, NaN => NaN
  | Fin x, Fin y => rnd (x + y)%Q
  | PInf, NInf | NInf, PInf => NaN
  | PInf, _ | _, PInf => PInf
  | NInf, _ | _, NInf => NInf
  end.

Definition fsub_with (rnd : Q -> pyfloat) (a b : pyfloat) : pyfloat :=
  fadd_with rnd a (fneg b).

(** On Python floats, which are binary64. *)
Definition fadd : pyfloat -> pyfloat -> pyfloat := fadd_with fround.
Definition fsub : pyfloat -> pyfloat -> pyfloat := fsub_with fround.

(** [a / b] on Python floats: a zero divisor raises, whatever [a] is. *)
Definition truediv (a b : pyfloat) : result pyfloat :=
  match b with
  | Fin y =>
      if Qeq_bool y 0 then Raise ZeroDivisionError
      else Ok match a with
              | Fin x => fround (x / y)
              | PInf => if Qle_bool 0 y then PInf else NInf
              | NInf => if Qle_bool 0 y then NInf else PInf
              | NaN => NaN
              end
  | PInf | NInf => Ok match a with
                      | Fin _ => Fin 0
                      | _ => NaN
                      end
  | NaN => Ok NaN
  end.

Definition isnan (a : pyfloat) : bool :=
  match a with
  | NaN => true
  | _ => false
  end.

(** [a < b]; a comparison with not-a-number is false. *)
Definition fltb (a b : pyfloat) : bool :=
  match a, b with
  | NaN, _ | _, NaN => false
  | Fin x, Fin y => Qltb x y
  | NInf, NInf => false
  | NInf, _ => true
  | _, NInf => false
  | PInf, _ => false
  | Fin _, PInf => true
  end.

Fixpoint fargmin_from (best : pyfloat) (bi i : nat) (l : list pyfloat) : nat :=
  match l with
  | [] => bi
  | x :: l' => if fltb x best then fargmin_from x i (S i) l' else fargmin_from best bi (S i) l'
  end.

Definition fargmin (l : list pyfloat) : nat :=
  match l with
  | [] => O
  | x :: l' => fargmin_from x O 1%nat l'
  end.

(** [Series.argmin] on a float column (pandas 2.0, [skipna=True]): the
    not-a-number entries count as plus infinity, the position of the first
    smallest entry is returned, and -1 when every entry is not-a-number. *)
Definition nanargmin (l : list pyfloat) : Z :=
  if forallb isnan l then -1
  else Z.of_nat (fargmin (map (fun x => if isnan x then PInf else x) l)).

(** [df.iloc[score.argmin()]] for a float score; position -1 is the last
    row. *)
Definition iloc_nanargmin {A : Type} (score : A -> pyfloat) (df : list A) : result A :=
  match df with
  | [] => Raise (ValueError "attempt to get argmin of an empty sequence")
  | _ :: _ => getitem df (nanargmin (map score df))
  end.

Section FloatCurvature.

(** The rounding of the dtype of the float columns of the frame:
    [fround] for float64, [fround32] for float32.  Arithmetic between a
    column and a literal is done in that dtype, the literal rounded to it
    first. *)
Variable dtype : Q -> pyfloat.

(** The columns ['ImpliedVolatility'] and ['Delta'] as floats, given row by
    row; the methods of this section read these and not the rational fields
    of the same names.  Construction uses the two columns only to copy
    the implied volatility into the legs and to compare duplicated exit
    rows. *)
Variables iv delta : Row -> pyfloat.

(** [__curve_calc_disc] on floats.  The scores handed to [argmin] are
    columns; the volatilities read off the chosen rows go through [float]
    and are averaged and divided as Python floats. *)
Definition curve_calc_disc_float (df : list Row) : result pyfloat :=
  if (List.length df =? 0)%nat then Raise DataRangeError
  else
    atm_put <- iloc_nanargmin
                 (fun r => fabs (fadd_with dtype (delta r) (dtype (1 # 2)%Q))) df ;;
    let atm_put_iv := iv atm_put in
    atm_call <- iloc_nanargmin
                  (fun r => fabs (fsub_with dtype (delta r) (dtype (1 # 2)%Q))) df ;;
    let atm_call_iv := iv atm_call in
    atm_vol <- truediv (fadd atm_put_iv atm_call_iv) (Fin 2) ;;
    let df_puts := with_flag put df in
    let df_calls := with_flag call df in
    if (List.length df_puts =? 0)%nat || (List.length df_calls =? 0)%nat
    then Raise DataRangeError
    else
      otm_put <- iloc_nanargmin
                   (fun r => fabs (fsub_with dtype (Fin (StrikeProp r)) (dtype (9 # 10)%Q)))
                   df_puts ;;
      let otm_put_iv := iv otm_put in
      otm_call <- iloc_nanargmin
                    (fun r => fabs (fsub_with dtype (Fin (StrikeProp r)) (dtype (11 # 10)%Q)))
                    df_calls ;;
      let otm_call_iv := iv otm_call in
      otm_vol <- truediv (fadd otm_put_iv otm_call_iv) (Fin 2) ;;
      truediv otm_vol atm_vol.

(** [__curve_calc_cont] on floats: again any function of the day slice. *)
Variable curve_calc_cont_float : list Row -> result pyfloat.

Definition select_method_float (method : string) : result (list Row -> result pyfloat) :=
  if contains "disc" method then Ok curve_calc_disc_float
  else if contains "cont" method then Ok curve_calc_cont_float
  else Raise (ValueError "Invalid curve calculation method").

(** [curve_changes] on floats. *)
Definition curve_changes_float (self : Backtester) (method : string)
  (days_before days_after : Z) : result (pyfloat * pyfloat) :=
  method <- select_method_float method ;;
  let df := liquid (df self) in
  before_date <- getitem (tdays self) (edate_idx self - days_before) ;;
  after_date <- getitem (tdays self) (edate_idx self + days_after) ;;
  let df_before := on_date before_date df in
  let df_after := on_date after_date df in
  let df_earnings := on_date (edate self) df in
  before_curve <- method df_before ;;
  after_curve <- method df_after ;;
  earnings_curve <- method df_earnings ;;
  let change_before := fsub earnings_curve before_curve in
  let change_after := fsub after_curve earnings_curve in
  Ok (change_before, change_after).

End FloatCurvature.

(** ** The batch runner *)

(** One written cell of the output frame: earnings date, position of the
    method in [funcs_to_run] (which fixes the column label), result.  A cell
    that is never written keeps the frame's initial not-a-number. *)
Definition Cell : Type := (Z * nat * Value)%type.

Section Runner.

Context {B : Type}.

(** The constructor call and the attribute lookup of the loop. *)
Variable construct : Z -> bool -> result B.
Variable method_of : B -> string -> result (Kwargs -> result Value).

(** [for i in range(len(funcs_to_run))], from position [i] on; [out] is
    the list of cells written so far, latest first. *)
Fixpoint run_funcs (backtester : B) (edate : Z) (i : nat)
  (funcs : list (string * Kwargs)) (out : list Cell) : result (list Cell) :=
  match funcs with
  | [] => Ok out
  | (name, kw) :: funcs' =>
      method <- method_of backtester name ;;
      match method kw with
      | Ok curr_result => run_funcs backtester edate (S i) funcs' ((edate, i, curr_result) :: out)
      | Raise error =>
          if is_data_range error then run_funcs backtester edate (S i) funcs' out
          else Raise error
      end
  end.

(** [for edate in earnings_dates]. *)
Fixpoint run_events (earnings_dates : list (Z * bool)) (funcs : list (string * Kwargs))
  (out : list Cell) : result (list Cell) :=
  match earnings_dates with
  | [] => Ok out
  | (edate, bmo) :: rest =>
      match construct edate bmo with
      | Raise error =>
          if is_data_range error then run_events rest funcs out
          else Raise error
      | Ok backtester =>
          out' <- run_funcs backtester edate O funcs out ;;
          run_events rest funcs out'
      end
  end.

End Runner.

(** [pd.DatetimeIndex(option_data['DataDate'].unique())]: the dates of the
    table in order of first appearance. *)
Fixpoint unique (seen ds : list Z) : list Z :=
  match ds with
  | [] => []
  | d :: ds' =>
      if existsb (Z.eqb d) seen then unique seen ds'
      else d :: unique (d :: seen) ds'
  end.

(** [backtest_by_ticker_template], given the table read for the ticker;
    [func_kwargs = None] is the default of one empty dictionary per method. *)
Definition backtest_by_ticker_template (curve_calc_cont : list Row -> result Q)
  (option_data : list Row) (earnings_dates : list (Z * bool)) (funcs_to_run : list string)
  (func_kwargs : option (list Kwargs)) (backtester_kwargs : InitKwargs)
  : result (list Cell) :=
  let func_kwargs := default func_kwargs (map (fun _ => no_kwargs) funcs_to_run) in
  if negb (List.length func_kwargs =? List.length funcs_to_run)%nat
  then Raise (ValueError "Function keyword arguments specified incorrectly")
  else
    let tdays := unique [] (map DataDate option_data) in
    run_events
      (fun edate bmo =>
         init option_data edate tdays bmo
              (default (kw_holding_period backtester_kwargs) default_holding_period)
              (default (kw_wing_width backtester_kwargs) default_wing_width)
              (default (kw_min_days_expiry backtester_kwargs) default_min_days_expiry))
      (getattr curve_calc_cont)
      earnings_dates (combine funcs_to_run func_kwargs) [].

(** ** A small option table for concrete runs

    Two weeks of trading days (day numbers 1-5 and 8-12, the gap being a
    weekend), an underlying flat at 100, and two chains, one expiring on day
    5 and one on day 12, each quoted at the strikes 90, 100 and 110 on
    every trading day up to its expiry. *)

Definition demo_days : list Z := [1; 2; 3; 4; 5; 8; 9; 10; 11; 12].

Definition demo_row (exp d : Z) (f : PutCall) (k : Z) : Row :=
  let out_of_money := match f with put => 100 - k | call => k - 100 end in
  let bid := (inject_Z (Z.max 0 (- out_of_money)) + (3 # 1) + inject_Z (exp - d) * (1 # 10))%Q in
  {| ExpirationDate := exp;
     DataDate := d;
     PutCallOf := f;
     StrikePrice := inject_Z k;
     UnderlyingPrice := 100;
     AskPrice := (bid + (2 # 10))%Q;
     AskSize := 10 + d;
     BidPrice := bid;
     BidSize := 20 - d;
     MidPrice := (bid + (1 # 10))%Q;
     DTE := exp - d;
     StrikeProp := (k # 100)%Q;
     ImpliedVolatility := ((30 # 100) + inject_Z (Z.abs out_of_money) * (4 # 1000))%Q;
     Delta := match f with
              | put => (- (1 # 2) - inject_Z out_of_money * (3 # 100))%Q
              | call => ((1 # 2) - inject_Z out_of_money * (3 # 100))%Q
              end;
     Vega := (1 # 10)%Q |}.

Definition demo_chain (exp : Z) : list Row :=
  flat_map (fun d =>
              if d <=? exp then
                flat_map (fun k => [demo_row exp d put k; demo_row exp d call k]) [90; 100; 110]
              else [])
           demo_days.

Definition demo_data : list Row := demo_chain 5 ++ demo_chain 12.

(** Arguments for concrete batches on [demo_data]. *)
Definition demo_skewed : Kwargs :=
  {| kw_method := Some "discrete"%string; kw_days_before := Some 1;
     kw_days_after := Some 1; kw_entry_size_ratio := None |}.
Definition demo_cont (_ : list Row) : result Q := Raise DataRangeError.
Definition demo_construct (e : Z) (bmo : bool) : result Backtester :=
  init demo_data e demo_days bmo 1 (1 # 10) 2.

(** The float columns of [demo_data]: the values of the table, and the same
    with the pricing model failed on the 90-strike put of day 1. *)
Definition demo_iv (r : Row) : pyfloat := Fin (ImpliedVolatility r).
Definition demo_delta (r : Row) : pyfloat := Fin (Delta r).
Definition demo_iv_failed (r : Row) : pyfloat :=
  if (DataDate r =? 1) && PutCall_eqb (PutCallOf r) put && Qeq_bool (StrikePrice r) 90
  then NaN else Fin (ImpliedVolatility r).
Definition demo_cont_float (_ : list Row) : result pyfloat := Raise DataRangeError.

(** ** Notions used to state the properties *)

(** [r] is the first row of [df] with the least score. *)
Definition first_min {A : Type} (score : A -> Q) (df : list A) (r : A) : Prop :=
  exists k,
    nth_error df k = Some r
    /\ (forall r', In r' df -> (score r <= score r')%Q)
    /\ (forall j r', (j < k)%nat -> nth_error df j = Some r' -> (score r < score r')%Q).

(** A result that does not stop the batch. *)
Definition benign {A : Type} (r : result A) : Prop :=
  match r with
  | Ok _ => True
  | Raise e => is_data_range e = true
  end.

(** The curvature the specification words describe: the ATM rows are looked
    for among the puts and among the calls. *)
Definition curve_calc_disc_spec (df : list Row) : result Q :=
  let df_puts := with_flag put df in
  let df_calls := with_flag call df in
  if (List.length df =? 0)%nat || (List.length df_puts =? 0)%nat
     || (List.length df_calls =? 0)%nat
  then Raise DataRangeError
  else
    atm_put <- iloc_argmin (fun r => Qabs (Delta r + (1 # 2))) df_puts ;;
    atm_call <- iloc_argmin (fun r => Qabs (Delta r - (1 # 2))) df_calls ;;
    otm_put <- iloc_argmin (fun r => Qabs (StrikeProp r - (9 # 10))) df_puts ;;
    otm_call <- iloc_argmin (fun r => Qabs (StrikeProp r - (11 # 10))) df_calls ;;
    let atm_vol := ((ImpliedVolatility atm_put + ImpliedVolatility atm_call) / 2)%Q in
    let otm_vol := ((ImpliedVolatility otm_put + ImpliedVolatility otm_call) / 2)%Q in
    Ok (otm_vol / atm_vol)%Q.

(** A day slice with one strike far above the spot: the call has delta 0,
    the put delta -1, so both are at distance 1/2 from -0.5. *)
Definition deep_row (f : PutCall) (iv delta : Q) : Row :=
  {| ExpirationDate := 12; DataDate := 1; PutCallOf := f;
     StrikePrice := 150; UnderlyingPrice := 100;
     AskPrice := match f with put => 51 | call => (2 # 10)%Q end; AskSize := 5;
     BidPrice := match f with put => 50 | call => (1 # 10)%Q end; BidSize := 5;
     MidPrice := match f with put => (101 # 2)%Q | call => (15 # 100)%Q end;
     DTE := 11; StrikeProp := (3 # 2)%Q;
     ImpliedVolatility := iv; Delta := delta; Vega := (1 # 100)%Q |}.

Definition deep_slice : list Row :=
  [deep_row call (6 # 10) 0; deep_row put (4 # 10) (-1)].

(** The contribution of one leg in the words of the specification:
    contracts closed before expiry at the exit price, the rest held to
    expiration. *)
Definition leg_contribution (entry_count : Z) (leg : Leg) : Q :=
  ((ExitPrice leg - EntryPrice leg) * inject_Z (Z.min entry_count (ExitSize leg))
   + (ExpirationValue leg - EntryPrice leg) * inject_Z (Z.max 0 (entry_count - ExitSize leg)))%Q.

(** Wings (OTM) keep the sign, bodies (ATM) are negated. *)
Definition signed_contribution (entry_count : Z) (cl : Contract * Leg) : Q :=
  match fst cl with
  | OTM_Put | OTM_Call => leg_contribution entry_count (snd cl)
  | ATM_Put | ATM_Call => (- leg_contribution entry_count (snd cl))%Q
  end.


(** ** The continuous curvature method, up to its numerical core *)

(** [__curve_calc_cont].  The numerical core is a parameter: [polyfit]
    stands for the logarithm of the strike proportions, [np.polyfit] of
    degree 2 on the surface and the reading of the quadratic coefficient;
    it returns [None] where NumPy issues the [RankWarning] that the method
    catches, and otherwise a number or the exception NumPy raises. *)
Definition curve_calc_cont_of (polyfit : list Row -> option (result Q)) (df : list Row)
  : result Q :=
  let put_side :=
    filter (fun r => PutCall_eqb (PutCallOf r) put && Qle_bool (StrikeProp r) 1) df in
  let call_side :=
    filter (fun r => PutCall_eqb (PutCallOf r) call && Qle_bool 1 (StrikeProp r)) df in
  if (List.length put_side =? 0)%nat || (List.length call_side =? 0)%nat
  then Raise DataRangeError
  else
    let surface_df := put_side ++ call_side in
    match polyfit surface_df with
    | Some quadratic_term => quadratic_term
    | None => Raise DataRangeError
    end.

(** The rows the continuous method keeps: puts at or below the money and
    calls at or above it. *)
Definition on_surface (r : Row) : bool :=
  (PutCall_eqb (PutCallOf r) put && Qle_bool (StrikeProp r) 1)
  || (PutCall_eqb (PutCallOf r) call && Qle_bool 1 (StrikeProp r)).

(** A batch on toy events, for concrete runs of the two loops: event 0 is
    out of the data range, the method ["gap"] runs into a data gap. *)
Definition toy_construct (e : Z) (_ : bool) : result Z :=
  if e =? 0 then Raise DataRangeError else Ok e.
Definition toy_method_of (bt : Z) (name : string) : result (Kwargs -> result Value) :=
  Ok (fun _ => if String.eqb name "gap" then Raise DataRangeError else Ok (VFloat (inject_Z bt))).

(** The legs of the event of day 1 on [demo_data], held for one day, for
    concrete runs. *)
Definition demo_leg (c : Contract) : Leg :=
  let k := match c with OTM_Put => 90 | OTM_Call => 110 | _ => 100 end in
  leg_of_rows c 100 (demo_row 5 1 (flag c) k) (demo_row 5 2 (flag c) k).

(** * Properties *)

(** ** Sequences *)

Lemma bind_Ok {A B : Type} (m : result A) (k : A -> result B) (b : B) :
  bind m k = Ok b -> exists a, m = Ok a /\ k a = Ok b.
Proof.
  destruct m as [a|e]; simpl; intro H; [exists a; split; [reflexivity|exact H] | discriminate].
Qed.

Ltac bind_inv H :=
  let a := fresh "a" in
  let Ha := fresh "Ha" in
  apply bind_Ok in H; destruct H as [a [Ha H]].

Lemma getitem_nonneg {A : Type} (l : list A) (i : Z) (a : A) :
  0 <= i -> getitem l i = Ok a -> nth_error l (Z.to_nat i) = Some a.
Proof.
  intros Hi. unfold getitem.
  destruct (Z.ltb_spec i 0); [lia|].
  destruct (_ && _); [|discriminate].
  destruct (nth_error l (Z.to_nat i)); [congruence | discriminate].
Qed.

Lemma getitem_in {A : Type} (l : list A) (i : Z) (a : A) :
  getitem l i = Ok a -> In a l.
Proof.
  unfold getitem.
  destruct (_ && _); [|discriminate].
  destruct (nth_error l _) eqn:E; [|discriminate].
  intro H; inversion H; subst. eapply nth_error_In; eauto.
Qed.

(** A negative position within reach counts from the end. *)
Lemma getitem_wraps {A : Type} (l : list A) (i : Z) :
  - Z.of_nat (List.length l) <= i < 0 ->
  exists a, getitem l i = Ok a
            /\ nth_error l (Z.to_nat (Z.of_nat (List.length l) + i)) = Some a.
Proof.
  intros [Hlo Hhi]. unfold getitem.
  destruct (Z.ltb_spec i 0); [|lia].
  destruct (Z.leb_spec 0 (Z.of_nat (List.length l) + i)); [|lia].
  destruct (Z.ltb_spec (Z.of_nat (List.length l) + i) (Z.of_nat (List.length l))); [|lia].
  simpl.
  destruct (nth_error l (Z.to_nat (Z.of_nat (List.length l) + i))) eqn:E.
  - exists a; split; reflexivity.
  - apply nth_error_None in E. lia.
Qed.

(** A position out of reach on either side raises NumPy's error. *)
Lemma getitem_out_of_bounds {A : Type} (l : list A) (i : Z) :
  Z.of_nat (List.length l) <= i \/ i < - Z.of_nat (List.length l) ->
  getitem l i = Raise (IndexError (out_of_bounds_msg i (Z.of_nat (List.length l)))).
Proof.
  intros H. unfold getitem.
  destruct (Z.ltb_spec i 0).
  - destruct (Z.leb_spec 0 (Z.of_nat (List.length l) + i)); [lia|]. reflexivity.
  - destruct (Z.leb_spec 0 i); [|lia].
    destruct (Z.ltb_spec i (Z.of_nat (List.length l))); [lia|]. reflexivity.
Qed.

(** NumPy's message is never the one the batch runner looks for. *)
Lemma out_of_bounds_not_data_range (i n : Z) :
  is_data_range (IndexError (out_of_bounds_msg i n)) = false.
Proof. reflexivity. Qed.

Lemma find_index_Some {A : Type} (p : A -> bool) (l : list A) (i : nat) :
  find_index p l = Some i ->
  exists a, nth_error l i = Some a /\ p a = true.
Proof.
  revert i. induction l as [|x l IH]; simpl; intros i H; [discriminate|].
  destruct (p x) eqn:Hp.
  - inversion H; subst. exists x; split; [reflexivity|exact Hp].
  - destruct (find_index p l) as [j|]; [|discriminate].
    inversion H; subst. simpl. apply IH. reflexivity.
Qed.

Lemma find_index_None {A : Type} (p : A -> bool) (l : list A) :
  find_index p l = None -> forall a, In a l -> p a = false.
Proof.
  induction l as [|x l IH]; simpl; intros H a Ha; [contradiction|].
  destruct (p x) eqn:Hp; [discriminate|].
  destruct (find_index p l); [discriminate|].
  destruct Ha as [<-|Ha]; [exact Hp | apply IH; [reflexivity|exact Ha]].
Qed.

Lemma argmax_from_bound (l : list Z) (best : Z) (bi i : nat) :
  (bi < i)%nat -> (argmax_from best bi i l < i + List.length l)%nat.
Proof.
  revert best bi i. induction l as [|x l IH]; simpl; intros best bi i H; [lia|].
  destruct (best <? x).
  - specialize (IH x i (S i)). lia.
  - specialize (IH best bi (S i)). lia.
Qed.

Lemma argmax_bound (l : list Z) : l <> [] -> (argmax l < List.length l)%nat.
Proof.
  destruct l as [|x l]; [congruence|]. intros _. simpl.
  pose proof (argmax_from_bound l x O 1%nat). lia.
Qed.

(** In an increasing sequence the negative entries come first. *)
Lemma negatives_are_prefix (l : list Z) (i : nat) (x : Z) :
  StronglySorted Z.lt l ->
  (i < List.length (filter (fun d => (d <? 0)%Z) l))%nat ->
  nth_error l i = Some x -> x < 0.
Proof.
  intros Hs. revert i. induction Hs as [|y l Hs IH Hall]; simpl; intros i Hi Hn.
  - lia.
  - destruct (Z.ltb_spec y 0) as [Hy|Hy].
    + destruct i as [|i]; simpl in *; [inversion Hn; subst; exact Hy|].
      apply (IH i); [lia|exact Hn].
    + assert (E : filter (fun d => d <? 0) l = []).
      { clear -Hall Hy. induction l as [|z l IHl]; [reflexivity|].
        inversion Hall; subst. simpl.
        destruct (Z.ltb_spec z 0); [lia|]. apply IHl; assumption. }
      rewrite E in Hi. simpl in Hi. lia.
Qed.

Lemma sorted_nth_lt (l : list Z) (i j : nat) (x y : Z) :
  StronglySorted Z.lt l -> (i < j)%nat ->
  nth_error l i = Some x -> nth_error l j = Some y -> x < y.
Proof.
  intros Hs. revert i j. induction Hs as [|z l Hs IH Hall]; intros i j Hij Hi Hj.
  - destruct i; discriminate.
  - destruct j as [|j]; [lia|]. simpl in Hj.
    destruct i as [|i]; simpl in Hi.
    + inversion Hi; subst. rewrite Forall_forall in Hall. apply Hall.
      eapply nth_error_In; eauto.
    + apply (IH i j); [lia|assumption|assumption].
Qed.

(** ** Anchor resolution *)

(** X3.  What [__fix_edate] guarantees on an increasing calendar: unless the call
    is before the open of the very first calendar day, the anchor is at or
    before the raw earnings date, and it is that date exactly when the call
    is not before the open and the date is a trading day. *)
Theorem fix_edate_anchor_le (tdays : list Z) (edate : Z) (bmo : bool) (idx anchor : Z) :
  StronglySorted Z.lt tdays ->
  fix_edate tdays edate bmo = Ok (idx, anchor) ->
  (bmo = true -> hd_error tdays <> Some edate) ->
  anchor <= edate /\ (anchor = edate <-> bmo = false /\ In edate tdays).
Proof.
  intros Hs H Hfirst. unfold fix_edate in H.
  destruct (find_index (Z.eqb edate) tdays) as [i|] eqn:Hfind; simpl in H.
  - apply find_index_Some in Hfind. destruct Hfind as [a [Hnth Heq]].
    apply Z.eqb_eq in Heq. subst a.
    destruct bmo.
    + bind_inv H. inversion H; subst; clear H.
      destruct i as [|i].
      { exfalso. apply Hfirst; [reflexivity|]. destruct tdays; simpl in *; congruence. }
      apply getitem_nonneg in Ha; [|lia].
      replace (Z.to_nat (Z.of_nat (S i) - 1)) with i in Ha by lia.
      assert (anchor < edate) by (eapply (sorted_nth_lt tdays i (S i)); eauto).
      split; [lia|]. split; [lia|]. intros [? _]; discriminate.
    + bind_inv H. inversion H; subst; clear H.
      apply getitem_nonneg in Ha; [|lia].
      rewrite Nat2Z.id in Ha. rewrite Hnth in Ha. inversion Ha; subst.
      split; [lia|]. split; [|reflexivity].
      intros _. split; [reflexivity|]. eapply nth_error_In; eauto.
  - pose proof (find_index_None _ _ Hfind) as Hnone.
    set (temp := filter (fun d => d <? 0) (map (fun t => t - edate) tdays)) in *.
    destruct (List.length temp =? 0)%nat eqn:Hlen; simpl in H; [discriminate|].
    apply Nat.eqb_neq in Hlen.
    bind_inv H. inversion H; subst; clear H.
    apply getitem_nonneg in Ha; [|lia]. rewrite Nat2Z.id in Ha.
    assert (Hb : (argmax temp < List.length temp)%nat).
    { apply argmax_bound. intro E. rewrite E in Hlen. simpl in Hlen. lia. }
    assert (Hlt : anchor - edate < 0).
    { apply (negatives_are_prefix (map (fun t => t - edate) tdays) (argmax temp)).
      - clear -Hs. induction Hs as [|z l Hs IH Hall]; simpl; constructor; [exact IH|].
        rewrite Forall_forall in *. intros y Hy. apply in_map_iff in Hy.
        destruct Hy as [w [<- Hw]]. specialize (Hall w Hw). lia.
      - exact Hb.
      - rewrite nth_error_map, Ha. reflexivity. }
    split; [lia|]. split; [lia|].
    intros [_ Hin]. apply Hnone in Hin. rewrite Z.eqb_refl in Hin. discriminate.
Qed.

Example anchor_resolution_examples :
  fix_edate demo_days 9 true = Ok (5, 8)
  /\ fix_edate demo_days 9 false = Ok (6, 9)
  /\ fix_edate demo_days 6 true = Ok (4, 5)
  /\ fix_edate demo_days 0 false = Raise DataRangeError.
Proof. repeat split; reflexivity. Qed.

(** C2 (code at the failing input).  A call before the open of the first
    calendar day: the position found is 0, the shift makes it -1, and
    position -1 of the calendar is its last day.  The event is constructed
    with every default, and its anchor (day 12) is after the raw earnings
    date (day 1). *)
Theorem fix_edate_first_day_bmo_wraps :
  fix_edate demo_days 1 true = Ok (-1, 12)
  /\ exists b,
       init demo_data 1 demo_days true default_holding_period default_wing_width
            default_min_days_expiry = Ok b
       /\ edate_idx b = -1 /\ edate b = 12 /\ 1 < edate b.
Proof.
  split; [reflexivity|].
  eexists. split; [vm_compute; reflexivity|].
  simpl. repeat split; reflexivity.
Qed.

(** ** Nearest-row selection *)

Lemma Qltb_lt (x y : Q) : Qltb x y = true <-> (x < y)%Q.
Proof.
  unfold Qltb. rewrite Qlt_alt. destruct (x ?= y)%Q; split; congruence.
Qed.

Lemma Qltb_ge (x y : Q) : Qltb x y = false <-> (y <= x)%Q.
Proof.
  split; intro H.
  - apply Qnot_lt_le. intro Hlt. apply Qltb_lt in Hlt. congruence.
  - destruct (Qltb x y) eqn:E; [|reflexivity].
    apply Qltb_lt in E. exfalso. exact (Qlt_not_le _ _ E H).
Qed.

Lemma argmin_from_spec (l : list Q) :
  forall (best : Q) (bi i : nat),
    (argmin_from best bi i l = bi /\ forall y, In y l -> (best <= y)%Q)
    \/ exists j x,
         argmin_from best bi i l = (i + j)%nat
         /\ nth_error l j = Some x
         /\ (x < best)%Q
         /\ (forall y, In y l -> (x <= y)%Q)
         /\ (forall j' y, (j' < j)%nat -> nth_error l j' = Some y -> (x < y)%Q).
Proof.
  induction l as [|x l IH]; intros best bi i; simpl.
  - left. split; [reflexivity | intros y []].
  - destruct (Qltb x best) eqn:E.
    + apply Qltb_lt in E. right.
      destruct (IH x i (S i)) as [[Hk Hall] | [j [v [Hk [Hn [Hv [Hall Hfirst]]]]]]].
      * exists O, x. rewrite Hk. repeat split.
        -- lia.
        -- exact E.
        -- intros y [<-|Hy]; [apply Qle_refl | apply Hall; exact Hy].
        -- intros j' y Hj'. lia.
      * exists (S j), v. rewrite Hk. repeat split.
        -- lia.
        -- exact Hn.
        -- eapply Qlt_trans; eauto.
        -- intros y [<-|Hy]; [apply Qlt_le_weak; exact Hv | apply Hall; exact Hy].
        -- intros [|j'] y Hj' Hy; simpl in Hy.
           ++ inversion Hy; subst. exact Hv.
           ++ apply (Hfirst j'); [lia | exact Hy].
    + apply Qltb_ge in E.
      destruct (IH best bi (S i)) as [[Hk Hall] | [j [v [Hk [Hn [Hv [Hall Hfirst]]]]]]].
      * left. split; [exact Hk|].
        intros y [<-|Hy]; [exact E | apply Hall; exact Hy].
      * right. exists (S j), v. rewrite Hk. repeat split.
        -- lia.
        -- exact Hn.
        -- exact Hv.
        -- intros y [<-|Hy]; [apply Qlt_le_weak; eapply Qlt_le_trans; eauto | apply Hall; exact Hy].
        -- intros [|j'] y Hj' Hy; simpl in Hy.
           ++ inversion Hy; subst. eapply Qlt_le_trans; eauto.
           ++ apply (Hfirst j'); [lia | exact Hy].
Qed.

Lemma argmin_spec (l : list Q) :
  l <> [] ->
  exists x,
    nth_error l (argmin l) = Some x
    /\ (forall y, In y l -> (x <= y)%Q)
    /\ (forall j y, (j < argmin l)%nat -> nth_error l j = Some y -> (x < y)%Q).
Proof.
  destruct l as [|x l]; [congruence|]. intros _. simpl.
  destruct (argmin_from_spec l x O 1%nat) as [[Hk Hall] | [j [v [Hk [Hn [Hv [Hall Hfirst]]]]]]].
  - exists x. rewrite Hk. repeat split.
    + intros y [<-|Hy]; [apply Qle_refl | apply Hall; exact Hy].
    + intros j y Hj. lia.
  - exists v. rewrite Hk. repeat split.
    + exact Hn.
    + intros y [<-|Hy]; [apply Qlt_le_weak; exact Hv | apply Hall; exact Hy].
    + intros [|j'] y Hj' Hy; simpl in Hy.
      * inversion Hy; subst. exact Hv.
      * apply (Hfirst j'); [lia | exact Hy].
Qed.

(** On a non-empty frame [iloc_argmin] returns the first row of least
    score; on the empty frame it raises pandas' [ValueError]. *)
Lemma iloc_argmin_spec {A : Type} (score : A -> Q) (df : list A) :
  df <> [] -> exists r, iloc_argmin score df = Ok r /\ first_min score df r.
Proof.
  intros Hne. unfold iloc_argmin.
  assert (Hm : map score df <> []) by (destruct df; [congruence | discriminate]).
  destruct (argmin_spec (map score df) Hm) as [x [Hn [Hall Hfirst]]].
  rewrite nth_error_map in Hn.
  destruct (nth_error df (argmin (map score df))) as [r|] eqn:E; [|discriminate].
  simpl in Hn. inversion Hn; subst x.
  exists r. split; [reflexivity|].
  exists (argmin (map score df)). repeat split.
  - exact E.
  - intros r' Hr'. apply Hall. apply in_map. exact Hr'.
  - intros j r' Hj Hr'. apply (Hfirst j); [exact Hj|].
    rewrite nth_error_map, Hr'. reflexivity.
Qed.

Lemma iloc_argmin_Ok {A : Type} (score : A -> Q) (df : list A) (r : A) :
  iloc_argmin score df = Ok r -> first_min score df r.
Proof.
  intro H. destruct df as [|a df].
  - discriminate.
  - destruct (iloc_argmin_spec score (a :: df)) as [r' [Hr' Hfm]]; [discriminate|].
    rewrite H in Hr'. inversion Hr'; subst. exact Hfm.
Qed.

Lemma first_min_in {A : Type} (score : A -> Q) (df : list A) (r : A) :
  first_min score df r -> In r df.
Proof. intros [k [Hk _]]. eapply nth_error_In; eauto. Qed.

(** The first row of least score is unique. *)
Lemma first_min_unique {A : Type} (score : A -> Q) (df : list A) (r r' : A) :
  first_min score df r -> first_min score df r' -> r = r'.
Proof.
  intros [k [Hk [Hall Hfirst]]] [k' [Hk' [Hall' Hfirst']]].
  destruct (Nat.lt_trichotomy k k') as [Hlt|[Heq|Hgt]].
  - exfalso. pose proof (Hfirst' k r Hlt Hk) as H1.
    pose proof (Hall r' (nth_error_In _ _ Hk')) as H2.
    exact (Qlt_not_le _ _ H1 H2).
  - subst. congruence.
  - exfalso. pose proof (Hfirst k' r' Hgt Hk') as H1.
    pose proof (Hall' r (nth_error_In _ _ Hk)) as H2.
    exact (Qlt_not_le _ _ H1 H2).
Qed.

(** ** What construction establishes *)

Lemma select_entry_Ok (df : list Row) (edate : Z) (c : Contract) (sp : Q) (entry : Row) :
  select_entry df edate c sp = Ok entry ->
  first_min (fun r => Qabs (StrikeProp r - sp)) (on_date edate (with_flag (flag c) df)) entry
  /\ In entry df /\ DataDate entry = edate /\ PutCallOf entry = flag c.
Proof.
  unfold select_entry. destruct (_ =? _)%nat; [discriminate|].
  intro H. apply iloc_argmin_Ok in H. split; [exact H|].
  apply first_min_in in H. unfold on_date, with_flag in H.
  apply filter_In in H. destruct H as [H Hd]. apply filter_In in H. destruct H as [H Hf].
  repeat split.
  - exact H.
  - apply Z.eqb_eq. exact Hd.
  - destruct (PutCallOf entry), (flag c); simpl in Hf; congruence.
Qed.

Lemma select_exit_Ok (df : list Row) (exit_date : Z) (c : Contract) (entry r : Row) :
  select_exit df exit_date c entry = Ok r ->
  In r df /\ DataDate r = exit_date /\ PutCallOf r = flag c
  /\ (StrikePrice r == StrikePrice entry)%Q.
Proof.
  unfold select_exit.
  set (p := fun r0 => (DataDate r0 =? exit_date) && Qeq_bool (StrikePrice r0) (StrikePrice entry)).
  destruct (filter p (with_flag (flag c) df)) as [|r0 l] eqn:E; [discriminate|].
  intro H.
  assert (Hr : r = r0).
  { destruct l; [congruence|]. destruct (forallb _ _); [congruence | discriminate]. }
  subst r0. clear H.
  assert (Hin : In r (filter p (with_flag (flag c) df))) by (rewrite E; left; reflexivity).
  apply filter_In in Hin. destruct Hin as [Hin Hp].
  unfold with_flag in Hin. apply filter_In in Hin. destruct Hin as [Hin Hf].
  unfold p in Hp. apply andb_true_iff in Hp. destruct Hp as [Hd Hk].
  repeat split.
  - exact Hin.
  - apply Z.eqb_eq. exact Hd.
  - destruct (PutCallOf r), (flag c); simpl in Hf; congruence.
  - apply Qeq_bool_iff. exact Hk.
Qed.

Lemma get_all_contract_info_Ok (df : list Row) (edate exit_date : Z) (fp ww : Q)
  (names : list Contract) (cs : list (Contract * Leg)) :
  get_all_contract_info df edate exit_date fp ww names = Ok cs ->
  map fst cs = names
  /\ forall c leg, In (c, leg) cs ->
       get_single_contract_info df edate exit_date fp c (strike_prop_map ww c) = Ok leg.
Proof.
  revert cs. induction names as [|n names IH]; simpl; intros cs H.
  - inversion H; subst. split; [reflexivity | intros c leg []].
  - bind_inv H. bind_inv H. inversion H; subst; clear H.
    destruct (IH _ Ha0) as [Hfst Hall]. split.
    + simpl. rewrite Hfst. reflexivity.
    + intros c leg [Heq|Hin]; [inversion Heq; subst; exact Ha | apply Hall; exact Hin].
Qed.

(** The steps of a successful construction, read off the instance. *)
Lemma init_Ok (option_data : list Row) (earnings_date : Z) (trading_days : list Z) (bmo : bool)
  (hp : Z) (ww : Q) (mde : Z) (b : Backtester) :
  init option_data earnings_date trading_days bmo hp ww mde = Ok b ->
  tdays b = trading_days
  /\ fix_edate trading_days earnings_date bmo = Ok (edate_idx b, edate b)
  /\ get_expiry option_data trading_days (edate_idx b) mde = Ok (expiry b)
  /\ df b = filter (fun r => ExpirationDate r =? expiry b) option_data
  /\ get_exit_date trading_days (edate_idx b) (edate b) (expiry b) hp = Ok (exit_date b)
  /\ get_underlying_prices (df b) option_data (expiry b) (edate b)
     = Ok (entry_price b, final_price b)
  /\ wing_width b = ww
  /\ get_all_contract_info (df b) (edate b) (exit_date b) (final_price b) ww all_contracts
     = Ok (contracts b).
Proof.
  unfold init. intro H.
  bind_inv H. destruct a as [idx anchor].
  bind_inv H. bind_inv H. bind_inv H. destruct a1 as [ep fp].
  bind_inv H. inversion H; subst; clear H. simpl.
  repeat split; assumption.
Qed.

(** The anchor date is the calendar entry at the anchor position. *)
Lemma init_anchor (option_data : list Row) (earnings_date : Z) (trading_days : list Z)
  (bmo : bool) (hp : Z) (ww : Q) (mde : Z) (b : Backtester) :
  init option_data earnings_date trading_days bmo hp ww mde = Ok b ->
  getitem (tdays b) (edate_idx b) = Ok (edate b).
Proof.
  intro H. apply init_Ok in H. destruct H as [Ht [Hf _]]. rewrite Ht.
  unfold fix_edate in Hf. bind_inv Hf. destruct a as [i flag0]. simpl in Hf.
  bind_inv Hf. inversion Hf; subst. exact Ha0.
Qed.

(** A constructed event has its four legs, in the order of the dictionary. *)
Lemma init_contracts (option_data : list Row) (earnings_date : Z) (trading_days : list Z)
  (bmo : bool) (hp : Z) (ww : Q) (mde : Z) (b : Backtester) :
  init option_data earnings_date trading_days bmo hp ww mde = Ok b ->
  exists l1 l2 l3 l4,
    contracts b = [(OTM_Put, l1); (ATM_Put, l2); (ATM_Call, l3); (OTM_Call, l4)].
Proof.
  intro H. apply init_Ok in H.
  destruct H as (_ & _ & _ & _ & _ & _ & _ & H).
  apply get_all_contract_info_Ok in H. destruct H as [H _].
  destruct (contracts b) as [|[c1 l1] [|[c2 l2] [|[c3 l3] [|[c4 l4] [|x t]]]]];
    try discriminate.
  simpl in H. inversion H; subst. exists l1, l2, l3, l4. reflexivity.
Qed.

(** ** Leg pricing *)

Lemma wing_iff (c : Contract) : wing c = true <-> c = OTM_Put \/ c = OTM_Call.
Proof.
  destruct c; simpl; split; intro H; try reflexivity; try discriminate;
    try (left; reflexivity); try (right; reflexivity);
    destruct H as [H|H]; discriminate.
Qed.

(** Each leg of a constructed event is [leg_of_rows] of its two rows. *)
Lemma leg_rows (option_data : list Row) (earnings_date : Z)
  (trading_days : list Z) (bmo : bool) (hp : Z) (ww : Q) (mde : Z)
  (b : Backtester) (c : Contract) (leg : Leg) :
  init option_data earnings_date trading_days bmo hp ww mde = Ok b ->
  In (c, leg) (contracts b) ->
  exists entry exit_,
    select_entry (df b) (edate b) c (strike_prop_map ww c) = Ok entry
    /\ select_exit (df b) (exit_date b) c entry = Ok exit_
    /\ leg = leg_of_rows c (final_price b) entry exit_.
Proof.
  intros Hinit Hin. apply init_Ok in Hinit.
  destruct Hinit as (_ & _ & _ & _ & _ & _ & _ & Hall).
  apply get_all_contract_info_Ok in Hall. destruct Hall as [_ Hall].
  specialize (Hall c leg Hin). unfold get_single_contract_info in Hall.
  bind_inv Hall. bind_inv Hall. inversion Hall; subst leg; clear Hall.
  exists a, a0. repeat split; assumption.
Qed.

(** C5.  Every leg of a constructed event is priced from two rows of the
    chain of the expiry: its entry row (same side, anchor date) and its exit
    row (same side, exit date, same strike).  The intrinsic value of a row
    is max(0, strike - underlying) for a put leg and
    max(0, underlying - strike) for a call leg.  A wing, that is an OTM leg,
    enters at (mid+ask)/2 of the entry row with the ask size and exits at
    the larger of the exit intrinsic value and (bid+mid)/2 of the exit row
    with the bid size; a body, that is an ATM leg, enters at the larger of
    the entry intrinsic value and (bid+mid)/2 of the entry row with the bid
    size and exits at (mid+ask)/2 of the exit row with the ask size. *)
Theorem contract_leg_pricing (option_data : list Row) (earnings_date : Z)
  (trading_days : list Z) (bmo : bool) (hp : Z) (ww : Q) (mde : Z)
  (b : Backtester) (c : Contract) (leg : Leg) :
  init option_data earnings_date trading_days bmo hp ww mde = Ok b ->
  In (c, leg) (contracts b) ->
  exists entry exit_,
    select_entry (df b) (edate b) c (strike_prop_map ww c) = Ok entry
    /\ select_exit (df b) (exit_date b) c entry = Ok exit_
    /\ let side := match c with
                   | OTM_Put | ATM_Put => put
                   | ATM_Call | OTM_Call => call
                   end in
       let intrinsic (row : Row) :=
         match c with
         | OTM_Put | ATM_Put => Qmax 0 (StrikePrice row - UnderlyingPrice row)
         | ATM_Call | OTM_Call => Qmax 0 (UnderlyingPrice row - StrikePrice row)
         end in
       (In entry (df b) /\ DataDate entry = edate b /\ PutCallOf entry = side)
       /\ (In exit_ (df b) /\ DataDate exit_ = exit_date b /\ PutCallOf exit_ = side
           /\ (StrikePrice exit_ == StrikePrice entry)%Q)
       /\ (c = OTM_Put \/ c = OTM_Call ->
           EntryPrice leg = ((MidPrice entry + AskPrice entry) / 2)%Q
           /\ ExitPrice leg = Qmax (intrinsic exit_) ((BidPrice exit_ + MidPrice exit_) / 2)%Q
           /\ EntrySize leg = AskSize entry
           /\ ExitSize leg = BidSize exit_)
       /\ (c = ATM_Put \/ c = ATM_Call ->
           EntryPrice leg = Qmax (intrinsic entry) ((BidPrice entry + MidPrice entry) / 2)%Q
           /\ ExitPrice leg = ((MidPrice exit_ + AskPrice exit_) / 2)%Q
           /\ EntrySize leg = BidSize entry
           /\ ExitSize leg = AskSize exit_).
Proof.
  intros Hinit Hin.
  destruct (leg_rows _ _ _ _ _ _ _ _ _ _ Hinit Hin) as (entry & exit_ & Ha & Ha0 & ->).
  exists entry, exit_.
  pose proof (select_entry_Ok _ _ _ _ _ Ha) as (_ & He1 & He2 & He3).
  pose proof (select_exit_Ok _ _ _ _ _ Ha0) as (Hx1 & Hx2 & Hx3 & Hx4).
  split; [exact Ha|]. split; [exact Ha0|]. cbv zeta.
  split; [destruct c; repeat split; assumption|].
  split; [destruct c; repeat split; assumption|].
  split.
  - intros [->| ->]; repeat split; reflexivity.
  - intros [->| ->]; repeat split; reflexivity.
Qed.

Lemma contract_leg_pricing_witness :
  exists b leg entry exit_,
    init demo_data 1 demo_days false 1 (1 # 10) 2 = Ok b
    /\ In (OTM_Put, leg) (contracts b)
    /\ EntryPrice leg = ((MidPrice entry + AskPrice entry) / 2)%Q
    /\ ExitPrice leg = Qmax (Qmax 0 (StrikePrice exit_ - UnderlyingPrice exit_))
                            ((BidPrice exit_ + MidPrice exit_) / 2)%Q
    /\ EntrySize leg = AskSize entry
    /\ ExitSize leg = BidSize exit_.
Proof.
  assert (H : exists b, init demo_data 1 demo_days false 1 (1 # 10) 2 = Ok b)
    by (eexists; vm_compute; reflexivity).
  destruct H as [b Hb].
  destruct (init_contracts _ _ _ _ _ _ _ _ Hb) as (l1 & l2 & l3 & l4 & Hc).
  assert (Hin : In (OTM_Put, l1) (contracts b)) by (rewrite Hc; left; reflexivity).
  destruct (contract_leg_pricing _ _ _ _ _ _ _ b OTM_Put l1 Hb Hin)
    as (entry & exit_ & _ & _ & _ & _ & Hw & _).
  destruct (Hw (or_introl eq_refl)) as (H1 & H2 & H3 & H4).
  exists b, l1, entry, exit_. repeat split; assumption.
Defined.

(** ** Exit date *)

Lemma clamp_holding_le (to_expiry hp : Z) : clamp_holding to_expiry hp <= to_expiry.
Proof. unfold clamp_holding. destruct (Z.gtb_spec hp to_expiry); lia. Qed.

Lemma clamp_holding_clamped (to_expiry hp : Z) :
  to_expiry < hp -> clamp_holding to_expiry hp = to_expiry - 1.
Proof. unfold clamp_holding. destruct (Z.gtb_spec hp to_expiry); lia. Qed.

Lemma clamp_holding_kept (to_expiry hp : Z) :
  hp <= to_expiry -> clamp_holding to_expiry hp = hp.
Proof. unfold clamp_holding. destruct (Z.gtb_spec hp to_expiry); lia. Qed.

Lemma sorted_gap (l : list Z) (i k : nat) (x y : Z) :
  StronglySorted Z.lt l ->
  nth_error l i = Some x -> nth_error l (i + k) = Some y -> x + Z.of_nat k <= y.
Proof.
  intros Hs Hx. revert y. induction k as [|k IH]; intros y Hy.
  - rewrite Nat.add_0_r in Hy. rewrite Hx in Hy. inversion Hy. lia.
  - destruct (nth_error l (i + k)) as [z|] eqn:Hz.
    + specialize (IH z eq_refl).
      assert (z < y) by (apply (sorted_nth_lt l (i + k) (i + S k)); auto; lia).
      lia.
    + apply nth_error_None in Hz.
      assert (nth_error l (i + S k) <> None) by congruence.
      apply nth_error_Some in H. lia.
Qed.

(** X7.  On an increasing calendar, an event anchored at a position counted
    from the start and held for [h > 0] entries is exited at least [h]
    calendar days after the anchor, where [h] is the holding period after
    the check against the days to expiry. *)
Theorem exit_date_after_anchor (option_data : list Row) (earnings_date : Z)
  (trading_days : list Z) (bmo : bool) (hp : Z) (ww : Q) (mde : Z) (b : Backtester) :
  StronglySorted Z.lt trading_days ->
  init option_data earnings_date trading_days bmo hp ww mde = Ok b ->
  0 <= edate_idx b ->
  0 < clamp_holding (expiry b - edate b) hp ->
  edate b + clamp_holding (expiry b - edate b) hp <= exit_date b
  /\ edate b < exit_date b.
Proof.
  intros Hs Hinit Hidx Hh.
  pose proof (init_anchor _ _ _ _ _ _ _ _ Hinit) as Hanchor.
  apply init_Ok in Hinit. destruct Hinit as (Ht & _ & _ & _ & Hexit & _).
  rewrite Ht in Hanchor. unfold get_exit_date in Hexit.
  set (h := clamp_holding (expiry b - edate b) hp) in *.
  apply getitem_nonneg in Hanchor; [|lia].
  apply getitem_nonneg in Hexit; [|lia].
  replace (Z.to_nat (edate_idx b + h)) with (Z.to_nat (edate_idx b) + Z.to_nat h)%nat in Hexit
    by lia.
  pose proof (sorted_gap _ _ _ _ _ Hs Hanchor Hexit). lia.
Qed.

(** X8.  Where no quote is dated after its own expiry (the cleaning step keeps
    only rows with [DTE >= 0]), a constructed event is exited no later than
    the expiry date: the exit rows of its legs belong to the chain. *)
Theorem exit_date_le_expiry (option_data : list Row) (earnings_date : Z)
  (trading_days : list Z) (bmo : bool) (hp : Z) (ww : Q) (mde : Z) (b : Backtester) :
  (forall r, In r option_data -> DataDate r <= ExpirationDate r) ->
  init option_data earnings_date trading_days bmo hp ww mde = Ok b ->
  exit_date b <= expiry b.
Proof.
  intros Hclean Hinit.
  destruct (init_contracts _ _ _ _ _ _ _ _ Hinit) as (l1 & l2 & l3 & l4 & Hc).
  assert (Hin : In (OTM_Put, l1) (contracts b)) by (rewrite Hc; left; reflexivity).
  destruct (leg_rows _ _ _ _ _ _ _ _ _ _ Hinit Hin) as (entry & exit_ & _ & Hsel & _).
  apply select_exit_Ok in Hsel. destruct Hsel as (Hx & Hd & _).
  apply init_Ok in Hinit. destruct Hinit as (_ & _ & _ & Hdf & _).
  rewrite Hdf in Hx. apply filter_In in Hx. destruct Hx as [Hx He].
  apply Z.eqb_eq in He. specialize (Hclean _ Hx). lia.
Qed.

(** C1 (code at the failing input).  Anchor on day 1, chain expiring on day
    5, holding period 4: the days to expiry are 4, the check
    [holding_period > to_expiry] does not fire, and the exit date is the
    calendar entry four positions on, which is the expiry date itself. *)
Theorem exit_date_on_expiry_day :
  exists b,
    init demo_data 1 demo_days false 4 (1 # 10) 4 = Ok b
    /\ edate b = 1 /\ expiry b = 5
    /\ clamp_holding (expiry b - edate b) 4 = 4
    /\ exit_date b = 5
    /\ ~ exit_date b < expiry b.
Proof.
  eexists. split; [vm_compute; reflexivity|].
  simpl. repeat split; try reflexivity. lia.
Qed.

(** ** Discrete curvature *)

Lemma length_zero_iff {A : Type} (l : list A) : (List.length l =? 0)%nat = true <-> l = [].
Proof. destruct l; simpl; split; intro H; congruence. Qed.

Lemma length_nonzero {A : Type} (l : list A) : l <> [] -> (List.length l =? 0)%nat = false.
Proof. destruct l; [congruence | reflexivity]. Qed.

(** The discrete method on its four nearest rows. *)
Lemma curve_calc_disc_rows (df : list Row) :
  (curve_calc_disc df = Raise DataRangeError
   <-> df = [] \/ with_flag put df = [] \/ with_flag call df = [])
  /\ (with_flag put df <> [] -> with_flag call df <> [] ->
      exists atm_put atm_call otm_put otm_call,
        first_min (fun r => Qabs (Delta r + (1 # 2))) df atm_put
        /\ first_min (fun r => Qabs (Delta r - (1 # 2))) df atm_call
        /\ first_min (fun r => Qabs (StrikeProp r - (9 # 10))) (with_flag put df) otm_put
        /\ first_min (fun r => Qabs (StrikeProp r - (11 # 10))) (with_flag call df) otm_call
        /\ let atm_vol := ((ImpliedVolatility atm_put + ImpliedVolatility atm_call) / 2)%Q in
           let otm_vol := ((ImpliedVolatility otm_put + ImpliedVolatility otm_call) / 2)%Q in
           (~ (atm_vol == 0)%Q -> curve_calc_disc df = Ok (otm_vol / atm_vol)%Q)
           /\ ((atm_vol == 0)%Q -> curve_calc_disc df = Raise ZeroDivisionError)).
Proof.
  destruct df as [|r0 df'].
  { split.
    - split; [intros _; left; reflexivity | intros _; reflexivity].
    - intros H; exfalso; apply H; reflexivity. }
  set (df := r0 :: df').
  assert (Hne : df <> []) by discriminate.
  destruct (iloc_argmin_spec (fun r => Qabs (Delta r + (1 # 2))) df Hne) as [ap [Eap Fap]].
  destruct (iloc_argmin_spec (fun r => Qabs (Delta r - (1 # 2))) df Hne) as [ac [Eac Fac]].
  assert (Hshape :
    curve_calc_disc df =
    if (List.length (with_flag put df) =? 0)%nat || (List.length (with_flag call df) =? 0)%nat
    then Raise DataRangeError
    else
      otm_put <- iloc_argmin (fun r => Qabs (StrikeProp r - (9 # 10))) (with_flag put df) ;;
      otm_call <- iloc_argmin (fun r => Qabs (StrikeProp r - (11 # 10))) (with_flag call df) ;;
      if Qeq_bool ((ImpliedVolatility ap + ImpliedVolatility ac) / 2) 0
      then Raise ZeroDivisionError
      else Ok (((ImpliedVolatility otm_put + ImpliedVolatility otm_call) / 2)
               / ((ImpliedVolatility ap + ImpliedVolatility ac) / 2))%Q).
  { unfold curve_calc_disc. rewrite (length_nonzero df Hne).
    rewrite Eap. unfold bind at 1. rewrite Eac. unfold bind at 1. reflexivity. }
  split.
  - split.
    + intro H. rewrite Hshape in H.
      destruct (with_flag put df) as [|p ps] eqn:Ep; [right; left; reflexivity|].
      destruct (with_flag call df) as [|c cs] eqn:Ec; [right; right; reflexivity|].
      exfalso. cbn [List.length Nat.eqb orb] in H.
      destruct (iloc_argmin_spec (fun r => Qabs (StrikeProp r - (9 # 10))) (p :: ps))
        as [op [Eop _]]; [discriminate|].
      destruct (iloc_argmin_spec (fun r => Qabs (StrikeProp r - (11 # 10))) (c :: cs))
        as [oc [Eoc _]]; [discriminate|].
      rewrite Eop in H. unfold bind at 1 in H. rewrite Eoc in H. unfold bind at 1 in H.
      destruct (Qeq_bool _ _); discriminate.
    + intros [H|[H|H]]; [discriminate| |]; rewrite Hshape, H; simpl.
      * reflexivity.
      * rewrite orb_true_r. reflexivity.
  - intros Hp Hc.
    destruct (iloc_argmin_spec (fun r => Qabs (StrikeProp r - (9 # 10))) _ Hp)
      as [op [Eop Fop]].
    destruct (iloc_argmin_spec (fun r => Qabs (StrikeProp r - (11 # 10))) _ Hc)
      as [oc [Eoc Foc]].
    exists ap, ac, op, oc. repeat (split; [assumption|]).
    rewrite Hshape, (length_nonzero _ Hp), (length_nonzero _ Hc). simpl orb. cbv iota.
    rewrite Eop. unfold bind at 1. rewrite Eoc. unfold bind at 1.
    split; intro Hz.
    + destruct (Qeq_bool _ _) eqn:E; [|reflexivity].
      apply Qeq_bool_iff in E. contradiction.
    + apply Qeq_bool_iff in Hz. rewrite Hz. reflexivity.
Qed.

(** The discrete method as the code has it.  It fails with the data-range
    error exactly when the slice is empty or has no put or no call.
    Otherwise, with [atm_put] the first row of the whole slice whose delta
    is nearest to -0.5, [atm_call] the first row of the whole slice whose
    delta is nearest to +0.5, [otm_put] the first put nearest to 90%
    moneyness and [otm_call] the first call nearest to 110% moneyness, the
    ATM vol is the mean implied volatility of the first two, the OTM vol
    that of the last two, and the method returns OTM vol / ATM vol, or
    raises [ZeroDivisionError] when the ATM vol is zero. *)
Theorem curve_calc_disc_correct (df : list Row) (atm_put atm_call otm_put otm_call : Row) :
  (curve_calc_disc df = Raise DataRangeError
   <-> df = [] \/ with_flag put df = [] \/ with_flag call df = [])
  /\ (first_min (fun r => Qabs (Delta r + (1 # 2))) df atm_put ->
      first_min (fun r => Qabs (Delta r - (1 # 2))) df atm_call ->
      first_min (fun r => Qabs (StrikeProp r - (9 # 10))) (with_flag put df) otm_put ->
      first_min (fun r => Qabs (StrikeProp r - (11 # 10))) (with_flag call df) otm_call ->
      let atm_vol := ((ImpliedVolatility atm_put + ImpliedVolatility atm_call) / 2)%Q in
      let otm_vol := ((ImpliedVolatility otm_put + ImpliedVolatility otm_call) / 2)%Q in
      curve_calc_disc df
      = if Qeq_bool atm_vol 0 then Raise ZeroDivisionError else Ok (otm_vol / atm_vol)%Q).
Proof.
  destruct (curve_calc_disc_rows df) as [Hiff Hrows].
  split; [exact Hiff|].
  intros F1 F2 F3 F4 atm_vol otm_vol.
  assert (Hp : with_flag put df <> []).
  { intro E. rewrite E in F3. apply first_min_in in F3. destruct F3. }
  assert (Hc : with_flag call df <> []).
  { intro E. rewrite E in F4. apply first_min_in in F4. destruct F4. }
  destruct (Hrows Hp Hc) as (ap & ac & op & oc & G1 & G2 & G3 & G4 & Hnz & Hz).
  pose proof (first_min_unique _ _ _ _ F1 G1) as E1.
  pose proof (first_min_unique _ _ _ _ F2 G2) as E2.
  pose proof (first_min_unique _ _ _ _ F3 G3) as E3.
  pose proof (first_min_unique _ _ _ _ F4 G4) as E4.
  subst ap ac op oc atm_vol otm_vol. cbv zeta in Hnz, Hz.
  destruct (Qeq_bool _ _) eqn:E.
  - apply Hz. apply Qeq_bool_iff. exact E.
  - apply Hnz. intro H. apply Qeq_bool_iff in H. congruence.
Qed.

(** On a concrete frame, the row at position 0 is the first of least score
    as soon as no row scores less. *)
Lemma first_min_head {A : Type} (score : A -> Q) (r : A) (l : list A) :
  forallb (fun r' => negb (Qltb (score r') (score r))) l = true ->
  first_min score (r :: l) r.
Proof.
  intro H. exists O. split; [reflexivity|]. split.
  - intros r' [<-|Hr']; [apply Qle_refl|].
    rewrite forallb_forall in H. specialize (H r' Hr').
    apply negb_true_iff in H. apply Qltb_ge in H. exact H.
  - intros j r' Hj. lia.
Qed.

Lemma curve_calc_disc_correct_witness :
  exists x, curve_calc_disc deep_slice = Ok x /\ (x == 5 # 6)%Q.
Proof.
  destruct (curve_calc_disc_correct deep_slice
              (deep_row call (6 # 10) 0) (deep_row call (6 # 10) 0)
              (deep_row put (4 # 10) (-1)) (deep_row call (6 # 10) 0)) as [_ H].
  eexists. split.
  - rewrite H; [vm_compute; reflexivity | | | |].
    + apply first_min_head; reflexivity.
    + apply first_min_head; reflexivity.
    + apply (first_min_head _ _ []); reflexivity.
    + apply (first_min_head _ _ []); reflexivity.
  - vm_compute. reflexivity.
Defined.

(** C3 (code at the failing input).  [deep_slice] holds a call of delta 0
    and implied volatility 0.6 followed by a put of delta -1 and implied
    volatility 0.4, both at 150% moneyness.  The code looks for the row
    nearest to a delta of -0.5 in the whole slice, not among the puts: the
    call and the put tie at distance 1/2 and the call comes first, so the
    ATM vol is the call's volatility averaged with itself, 0.6, and the
    method returns 0.5 / 0.6 = 5/6.  With the put nearest to -0.5 and the
    call nearest to +0.5 the ATM vol is 0.5 and the curvature 1. *)
Lemma curve_calc_disc_atm_rows_not_by_side :
  with_flag put deep_slice <> [] /\ with_flag call deep_slice <> []
  /\ exists x y,
       curve_calc_disc deep_slice = Ok x
       /\ curve_calc_disc_spec deep_slice = Ok y
       /\ (x == 5 # 6)%Q /\ (y == 1)%Q /\ ~ (x == y)%Q.
Proof.
  split; [discriminate|]. split; [discriminate|].
  eexists. eexists.
  split; [vm_compute; reflexivity|].
  split; [vm_compute; reflexivity|].
  split; [vm_compute; reflexivity|].
  split; [vm_compute; reflexivity|].
  vm_compute. discriminate.
Qed.

(** ** The discrete method on slices with signed deltas *)

Lemma first_min_cons {A : Type} (score : A -> Q) (x : A) (l : list A) (r : A) :
  first_min score (x :: l) r
  <-> (r = x /\ forall y, In y l -> (score x <= score y)%Q)
      \/ ((score r < score x)%Q /\ first_min score l r).
Proof.
  split.
  - intros [k [Hk [Hall Hfirst]]]. destruct k as [|k]; simpl in Hk.
    + inversion Hk; subst. left. split; [reflexivity|].
      intros y Hy. apply Hall. right. exact Hy.
    + right. split.
      * apply (Hfirst O x); [lia | reflexivity].
      * exists k. repeat split.
        -- exact Hk.
        -- intros r' Hr'. apply Hall. right. exact Hr'.
        -- intros j r' Hj Hr'. apply (Hfirst (S j)); [lia | exact Hr'].
  - intros [[-> Hall] | [Hlt [k [Hk [Hall Hfirst]]]]].
    + exists O. repeat split.
      * intros r' [<-|Hr']; [apply Qle_refl | apply Hall; exact Hr'].
      * intros j r' Hj. lia.
    + exists (S k). repeat split.
      * exact Hk.
      * intros r' [<-|Hr']; [apply Qlt_le_weak; exact Hlt | apply Hall; exact Hr'].
      * intros [|j] r' Hj Hr'; simpl in Hr'.
        -- inversion Hr'; subst. exact Hlt.
        -- apply (Hfirst j); [lia | exact Hr'].
Qed.

(** Masking a frame keeps the first row of least score when it keeps the row. *)
Lemma first_min_filter {A : Type} (score : A -> Q) (p : A -> bool) (l : list A) (r : A) :
  first_min score l r -> p r = true -> first_min score (filter p l) r.
Proof.
  intros H Hp. induction l as [|x l IH].
  - destruct H as [k [Hk _]]. destruct k; discriminate.
  - apply first_min_cons in H. simpl.
    destruct H as [[-> Hall] | [Hlt Hfm]].
    + rewrite Hp. apply first_min_cons. left. split; [reflexivity|].
      intros y Hy. apply filter_In in Hy. apply Hall. tauto.
    + specialize (IH Hfm). destruct (p x); [|exact IH].
      apply first_min_cons. right. split; assumption.
Qed.

(** When every call has a non-negative delta and some put has its delta
    strictly between -1 and 0, the row nearest to -0.5 is a put. *)
Lemma nearest_minus_half_is_put (df : list Row) (r : Row) :
  first_min (fun r => Qabs (Delta r + (1 # 2))) df r ->
  (forall c, In c df -> PutCallOf c = call -> (0 <= Delta c)%Q) ->
  (exists p, In p df /\ PutCallOf p = put /\ (- (1) < Delta p)%Q /\ (Delta p < 0)%Q) ->
  PutCallOf r = put.
Proof.
  intros Hfm Hcalls (p & Hp & _ & Hlo & Hhi).
  destruct (PutCallOf r) eqn:E; [reflexivity|]. exfalso.
  pose proof (first_min_in _ _ _ Hfm) as Hin.
  destruct Hfm as [k [_ [Hall _]]].
  specialize (Hall p Hp). cbv beta in Hall.
  specialize (Hcalls r Hin E).
  assert (Hsp : (Qabs (Delta p + (1 # 2)) < 1 # 2)%Q).
  { apply Qabs_Qlt_condition. split; lra. }
  pose proof (Qle_Qabs (Delta r + (1 # 2))) as Hr.
  lra.
Qed.

(** Symmetrically, the row nearest to +0.5 is a call. *)
Lemma nearest_plus_half_is_call (df : list Row) (r : Row) :
  first_min (fun r => Qabs (Delta r - (1 # 2))) df r ->
  (forall p, In p df -> PutCallOf p = put -> (Delta p <= 0)%Q) ->
  (exists c, In c df /\ PutCallOf c = call /\ (0 < Delta c)%Q /\ (Delta c < 1)%Q) ->
  PutCallOf r = call.
Proof.
  intros Hfm Hputs (c & Hc & _ & Hlo & Hhi).
  destruct (PutCallOf r) eqn:E; [|reflexivity]. exfalso.
  pose proof (first_min_in _ _ _ Hfm) as Hin.
  destruct Hfm as [k [_ [Hall _]]].
  specialize (Hall c Hc). cbv beta in Hall.
  specialize (Hputs r Hin E).
  assert (Hsp : (Qabs (Delta c - (1 # 2)) < 1 # 2)%Q).
  { apply Qabs_Qlt_condition. split; lra. }
  pose proof (Qle_Qabs (- (Delta r - (1 # 2)))) as Hr.
  rewrite Qabs_opp in Hr.
  lra.
Qed.

(** On a slice whose deltas are signed as those of a pricing model are
    (calls at or above 0, puts at or below 0, some put strictly inside
    (-1, 0) and some call strictly inside (0, 1)), the discrete method
    computes what the specification words describe, unless the ATM vol is
    zero. *)
Theorem curve_calc_disc_agrees_with_spec (df : list Row) :
  (forall c, In c df -> PutCallOf c = call -> (0 <= Delta c)%Q) ->
  (forall p, In p df -> PutCallOf p = put -> (Delta p <= 0)%Q) ->
  (exists p, In p df /\ PutCallOf p = put /\ (- (1) < Delta p)%Q /\ (Delta p < 0)%Q) ->
  (exists c, In c df /\ PutCallOf c = call /\ (0 < Delta c)%Q /\ (Delta c < 1)%Q) ->
  curve_calc_disc df = Raise ZeroDivisionError
  \/ curve_calc_disc df = curve_calc_disc_spec df.
Proof.
  intros Hcalls Hputs Hp Hc.
  assert (Hpne : with_flag put df <> []).
  { destruct Hp as (p & Hin & Hf & _). intro E.
    assert (In p (with_flag put df)) by (apply filter_In; split; [exact Hin | rewrite Hf; reflexivity]).
    rewrite E in H. destruct H. }
  assert (Hcne : with_flag call df <> []).
  { destruct Hc as (c & Hin & Hf & _). intro E.
    assert (In c (with_flag call df)) by (apply filter_In; split; [exact Hin | rewrite Hf; reflexivity]).
    rewrite E in H. destruct H. }
  assert (Hdne : df <> []).
  { intro E. subst df. apply Hpne. reflexivity. }
  destruct (curve_calc_disc_rows df) as [_ Hrows].
  destruct (Hrows Hpne Hcne) as (ap & ac & op & oc & G1 & G2 & G3 & G4 & Hnz & Hz).
  cbv zeta in Hnz, Hz.
  destruct (Qeq_bool ((ImpliedVolatility ap + ImpliedVolatility ac) / 2) 0) eqn:E.
  { left. apply Hz. apply Qeq_bool_iff. exact E. }
  right. rewrite Hnz; [|intro H; apply Qeq_bool_iff in H; congruence].
  assert (F1 : first_min (fun r => Qabs (Delta r + (1 # 2))) (with_flag put df) ap).
  { apply first_min_filter; [exact G1|].
    rewrite (nearest_minus_half_is_put df ap G1 Hcalls Hp). reflexivity. }
  assert (F2 : first_min (fun r => Qabs (Delta r - (1 # 2))) (with_flag call df) ac).
  { apply first_min_filter; [exact G2|].
    rewrite (nearest_plus_half_is_call df ac G2 Hputs Hc). reflexivity. }
  unfold curve_calc_disc_spec.
  rewrite (length_nonzero _ Hdne), (length_nonzero _ Hpne), (length_nonzero _ Hcne).
  simpl orb. cbv iota.
  destruct (iloc_argmin_spec (fun r => Qabs (Delta r + (1 # 2))) _ Hpne) as [ap' [E1 F1']].
  destruct (iloc_argmin_spec (fun r => Qabs (Delta r - (1 # 2))) _ Hcne) as [ac' [E2 F2']].
  destruct (iloc_argmin_spec (fun r => Qabs (StrikeProp r - (9 # 10))) _ Hpne) as [op' [E3 F3']].
  destruct (iloc_argmin_spec (fun r => Qabs (StrikeProp r - (11 # 10))) _ Hcne) as [oc' [E4 F4']].
  rewrite E1. unfold bind at 1. rewrite E2. unfold bind at 1.
  rewrite E3. unfold bind at 1. rewrite E4. unfold bind at 1.
  rewrite (first_min_unique _ _ _ _ F1 F1'), (first_min_unique _ _ _ _ F2 F2'),
    (first_min_unique _ _ _ _ G3 F3'), (first_min_unique _ _ _ _ G4 F4').
  reflexivity.
Qed.

(** ** Profit and loss *)


Lemma int_of_Q_zero (x : Q) : (x == 0)%Q -> int_of_Q x = 0.
Proof.
  destruct x as [n d]. unfold Qeq, int_of_Q. simpl. intro H.
  replace n with 0 by lia. apply Z.quot_0_l. lia.
Qed.

Lemma leg_pnl_contribution (n : Z) (c : Contract) (leg : Leg) :
  (leg_pnl n (contract_name c) leg == signed_contribution n (c, leg))%Q.
Proof.
  unfold leg_pnl, signed_contribution, leg_contribution.
  replace (n - Z.max 0 (n - ExitSize leg)) with (Z.min n (ExitSize leg)) by lia.
  destruct c; simpl; ring.
Qed.








(** The float product at the values where it departs from the exact one:
    3 x double(1/3) is 1, 10 x double(0.7) is 7, 100 x double(0.29) is
    just below 29. *)
Example float_product_rounds :
  option_map int_of_Q (float_product 3 (6004799503160661 # 18014398509481984)) = Some 1
  /\ option_map int_of_Q (float_product 10 (3152519739159347 # 4503599627370496)) = Some 7
  /\ option_map int_of_Q (float_product 100 (5224175567749775 # 18014398509481984)) = Some 28
  /\ round_binary64 (1 # 3) = Some (6004799503160661 # 18014398509481984)%Q
  /\ round_binary64 (7 # 10) = Some (3152519739159347 # 4503599627370496)%Q
  /\ round_binary64 (29 # 100) = Some (5224175567749775 # 18014398509481984)%Q.
Proof. repeat split; vm_compute; reflexivity. Qed.




(** The entry count comes from the rounded product.  The ratio is the
    float nearest to 3/11, a little below it: on the event whose least entry
    size is 11 the exact product is below 3 and floors to 2, the float
    product is 3, and [pnl] trades 3 contracts. *)
Lemma pnl_rounds_before_truncating :
  exists b x,
    let ratio := (1228254443828317 # 4503599627370496)%Q in
    init demo_data 1 demo_days false 1 (1 # 10) 2 = Ok b
    /\ py_min (map (fun cl => EntrySize (snd cl)) (contracts b)) = Ok 11
    /\ fround (3 # 11) = Fin ratio
    /\ Qfloor (11 * ratio) = 2
    /\ float_product 11 ratio = Some 3%Q
    /\ pnl b ratio = Ok x
    /\ (x == 100 * qsum (map (signed_contribution 3) (contracts b)))%Q
    /\ ~ (x == 100 * qsum (map (signed_contribution 2) (contracts b)))%Q.
Proof.
  eexists. eexists. cbv zeta.
  split; [vm_compute; reflexivity|].
  split; [vm_compute; reflexivity|].
  split; [vm_compute; reflexivity|].
  split; [vm_compute; reflexivity|].
  split; [vm_compute; reflexivity|].
  split; [vm_compute; reflexivity|].
  split; [vm_compute; reflexivity|].
  vm_compute. discriminate.
Qed.

(** ** Average exit size ratio *)

Lemma exit_ratio_bounds (e m : Z) :
  0 <= e -> 0 < m ->
  (0 <= Qmin 1 (inject_Z e / inject_Z m))%Q /\ (Qmin 1 (inject_Z e / inject_Z m) <= 1)%Q.
Proof.
  intros He Hm. split.
  - apply Q.min_glb; [discriminate|].
    apply Qle_shift_div_l.
    + change 0%Q with (inject_Z 0). rewrite <- Zlt_Qlt. exact Hm.
    + rewrite Qmult_0_l. change 0%Q with (inject_Z 0). rewrite <- Zle_Qle. exact He.
  - apply Q.le_min_l.
Qed.

(** C8.  On a constructed event whose four legs have non-negative entry and
    exit sizes, with [m] the least entry size: [avg_exit_size_ratio] returns
    not-a-number when [m] is 0, and otherwise the mean over the four legs
    of min(1, exit size / m), a number between 0 and 1. *)
Theorem avg_exit_size_ratio_correct (option_data : list Row) (earnings_date : Z)
  (trading_days : list Z) (bmo : bool) (hp : Z) (ww : Q) (mde : Z) (b : Backtester) :
  init option_data earnings_date trading_days bmo hp ww mde = Ok b ->
  (forall c leg, In (c, leg) (contracts b) -> 0 <= EntrySize leg /\ 0 <= ExitSize leg) ->
  exists l1 l2 l3 l4,
    contracts b = [(OTM_Put, l1); (ATM_Put, l2); (ATM_Call, l3); (OTM_Call, l4)]
    /\ let m := Z.min (Z.min (Z.min (EntrySize l1) (EntrySize l2)) (EntrySize l3))
                      (EntrySize l4) in
       let ratio leg := Qmin 1 (inject_Z (ExitSize leg) / inject_Z m) in
       (m = 0 -> avg_exit_size_ratio b = Ok VNan)
       /\ (m <> 0 ->
           exists x,
             avg_exit_size_ratio b = Ok (VFloat x)
             /\ (x == (ratio l1 + ratio l2 + ratio l3 + ratio l4) / 4)%Q
             /\ (0 <= x)%Q /\ (x <= 1)%Q).
Proof.
  intros Hinit Hsizes.
  destruct (init_contracts _ _ _ _ _ _ _ _ Hinit) as (l1 & l2 & l3 & l4 & Hc).
  exists l1, l2, l3, l4. split; [exact Hc|].
  intros m ratio.
  assert (H1 : 0 <= EntrySize l1 /\ 0 <= ExitSize l1)
    by (apply (Hsizes OTM_Put); rewrite Hc; simpl; tauto).
  assert (H2 : 0 <= EntrySize l2 /\ 0 <= ExitSize l2)
    by (apply (Hsizes ATM_Put); rewrite Hc; simpl; tauto).
  assert (H3 : 0 <= EntrySize l3 /\ 0 <= ExitSize l3)
    by (apply (Hsizes ATM_Call); rewrite Hc; simpl; tauto).
  assert (H4 : 0 <= EntrySize l4 /\ 0 <= ExitSize l4)
    by (apply (Hsizes OTM_Call); rewrite Hc; simpl; tauto).
  unfold avg_exit_size_ratio. rewrite Hc.
  change (py_min (map (fun cl => EntrySize (snd cl))
                      [(OTM_Put, l1); (ATM_Put, l2); (ATM_Call, l3); (OTM_Call, l4)]))
    with (@Ok Z m).
  unfold bind.
  split; intro Hm.
  - rewrite Hm. reflexivity.
  - destruct (Z.eqb_spec m 0) as [E|_]; [contradiction|].
    assert (Hpos : 0 < m) by (subst m; lia).
    eexists. split; [reflexivity|].
    cbn [map snd List.length]. unfold qsum. cbn [fold_left].
    fold (ratio l1) (ratio l2) (ratio l3) (ratio l4).
    destruct (exit_ratio_bounds (ExitSize l1) m) as [A1 B1]; [tauto | exact Hpos |].
    destruct (exit_ratio_bounds (ExitSize l2) m) as [A2 B2]; [tauto | exact Hpos |].
    destruct (exit_ratio_bounds (ExitSize l3) m) as [A3 B3]; [tauto | exact Hpos |].
    destruct (exit_ratio_bounds (ExitSize l4) m) as [A4 B4]; [tauto | exact Hpos |].
    fold (ratio l1) in A1, B1. fold (ratio l2) in A2, B2.
    fold (ratio l3) in A3, B3. fold (ratio l4) in A4, B4.
    change (inject_Z (Z.of_nat 4)) with 4%Q.
    remember (ratio l1) as r1 eqn:E1. remember (ratio l2) as r2 eqn:E2.
    remember (ratio l3) as r3 eqn:E3. remember (ratio l4) as r4 eqn:E4.
    clear E1 E2 E3 E4.
    repeat split.
    + field.
    + apply Qle_shift_div_l; [reflexivity | lra].
    + apply Qle_shift_div_r; [reflexivity | lra].
Qed.

Lemma avg_exit_size_ratio_correct_witness :
  exists b x,
    init demo_data 1 demo_days false 1 (1 # 10) 2 = Ok b
    /\ avg_exit_size_ratio b = Ok (VFloat x) /\ (0 <= x)%Q /\ (x <= 1)%Q.
Proof.
  assert (H : exists b,
             init demo_data 1 demo_days false 1 (1 # 10) 2 = Ok b
             /\ (forall c leg, In (c, leg) (contracts b) ->
                               0 <= EntrySize leg /\ 0 <= ExitSize leg)
             /\ py_min (map (fun cl => EntrySize (snd cl)) (contracts b)) = Ok 11).
  { eexists. split; [vm_compute; reflexivity|]. split; [|vm_compute; reflexivity].
    intros c leg Hin. simpl in Hin.
    destruct Hin as [E|[E|[E|[E|[]]]]]; inversion E; subst; simpl; lia. }
  destruct H as (b & Hb & Hsizes & Hmin).
  destruct (avg_exit_size_ratio_correct _ _ _ _ _ _ _ b Hb Hsizes)
    as (l1 & l2 & l3 & l4 & Hc & _ & Hnz).
  rewrite Hc in Hmin. cbn [map snd py_min fold_left] in Hmin. inversion Hmin as [Hm].
  destruct Hnz as (x & Hx & _ & Hlo & Hhi); [rewrite Hm; discriminate|].
  exists b, x. repeat split; assumption.
Defined.

(** ** Changes of curvature *)

(** In exact arithmetic: on a constructed event, with no offset on either
    side both calendar lookups of [curve_changes] give the anchor date, so
    whenever the chosen curvature method succeeds on the anchor-day slice
    the two changes returned are zero. *)
Theorem curve_changes_zero_offsets (option_data : list Row) (earnings_date : Z)
  (trading_days : list Z) (bmo : bool) (hp : Z) (ww : Q) (mde : Z) (b : Backtester)
  (curve_calc_cont : list Row -> result Q) (method : string)
  (f : list Row -> result Q) (c : Q) :
  init option_data earnings_date trading_days bmo hp ww mde = Ok b ->
  select_method curve_calc_cont method = Ok f ->
  f (on_date (edate b) (liquid (df b))) = Ok c ->
  getitem (tdays b) (edate_idx b - 0) = Ok (edate b)
  /\ getitem (tdays b) (edate_idx b + 0) = Ok (edate b)
  /\ exists change_before change_after,
       curve_changes curve_calc_cont b method 0 0 = Ok (change_before, change_after)
       /\ (change_before == 0)%Q /\ (change_after == 0)%Q.
Proof.
  intros Hinit Hsel Hf.
  pose proof (init_anchor _ _ _ _ _ _ _ _ Hinit) as Ha.
  rewrite Z.sub_0_r, Z.add_0_r.
  split; [exact Ha|]. split; [exact Ha|].
  exists (c - c)%Q, (c - c)%Q.
  split; [|split; ring].
  unfold curve_changes. rewrite Hsel. unfold bind at 1.
  rewrite Z.sub_0_r, Z.add_0_r, Ha. unfold bind at 1. unfold bind at 1.
  rewrite Hf. reflexivity.
Qed.

Lemma curve_changes_zero_offsets_witness :
  exists b change_before change_after,
    init demo_data 1 demo_days false 1 (1 # 10) 2 = Ok b
    /\ curve_changes (fun _ => Raise DataRangeError) b "discrete" 0 0
       = Ok (change_before, change_after)
    /\ (change_before == 0)%Q /\ (change_after == 0)%Q.
Proof.
  assert (H : exists b c,
             init demo_data 1 demo_days false 1 (1 # 10) 2 = Ok b
             /\ curve_calc_disc (on_date (edate b) (liquid (df b))) = Ok c).
  { eexists. eexists. split; vm_compute; reflexivity. }
  destruct H as (b & c & Hb & Hc).
  destruct (curve_changes_zero_offsets _ _ _ _ _ _ _ b (fun _ => Raise DataRangeError)
              "discrete" curve_calc_disc c Hb eq_refl Hc)
    as (_ & _ & cb & ca & Hr & H1 & H2).
  exists b, cb, ca. repeat split; assumption.
Defined.

(** *** The same on floats *)

Lemma fsub_self (c : pyfloat) :
  fsub c c = match c with Fin _ => Fin 0 | _ => NaN end.
Proof.
  destruct c as [q| | |]; try reflexivity.
  unfold fsub, fsub_with, fneg, fadd_with, fround, round_binary64.
  assert (E : Qeq_bool (q + - q) 0 = true) by (apply Qeq_bool_iff; ring).
  rewrite E. reflexivity.
Qed.

(** C9.  On a constructed event, with no offset on either side both
    calendar lookups of [curve_changes] give the anchor date, so the three
    day slices are the anchor-day slice.  Whenever the chosen curvature
    method succeeds on it with the float [c], the two changes returned are
    both [c - c]: zero when [c] is a finite number, not-a-number when [c] is
    infinite or not-a-number. *)
Theorem curve_changes_float_zero_offsets (option_data : list Row) (earnings_date : Z)
  (trading_days : list Z) (bmo : bool) (hp : Z) (ww : Q) (mde : Z) (b : Backtester)
  (dtype : Q -> pyfloat) (iv delta : Row -> pyfloat)
  (curve_calc_cont_float : list Row -> result pyfloat)
  (method : string) (f : list Row -> result pyfloat) (c : pyfloat) :
  init option_data earnings_date trading_days bmo hp ww mde = Ok b ->
  select_method_float dtype iv delta curve_calc_cont_float method = Ok f ->
  f (on_date (edate b) (liquid (df b))) = Ok c ->
  getitem (tdays b) (edate_idx b - 0) = Ok (edate b)
  /\ getitem (tdays b) (edate_idx b + 0) = Ok (edate b)
  /\ curve_changes_float dtype iv delta curve_calc_cont_float b method 0 0
     = let change := match c with
                     | Fin _ => Fin 0
                     | PInf | NInf | NaN => NaN
                     end in
       Ok (change, change).
Proof.
  intros Hinit Hsel Hf.
  pose proof (init_anchor _ _ _ _ _ _ _ _ Hinit) as Ha.
  rewrite Z.sub_0_r, Z.add_0_r.
  split; [exact Ha|]. split; [exact Ha|].
  unfold curve_changes_float. rewrite Hsel. unfold bind at 1.
  rewrite Z.sub_0_r, Z.add_0_r, Ha. unfold bind at 1. unfold bind at 1.
  rewrite Hf. cbn [bind]. rewrite fsub_self. destruct c; reflexivity.
Qed.

Lemma curve_changes_float_zero_offsets_witness :
  exists b,
    init demo_data 1 demo_days false 1 (1 # 10) 2 = Ok b
    /\ curve_changes_float fround demo_iv demo_delta demo_cont_float b "discrete" 0 0
       = Ok (Fin 0, Fin 0).
Proof.
  assert (H : exists b q,
             init demo_data 1 demo_days false 1 (1 # 10) 2 = Ok b
             /\ curve_calc_disc_float fround demo_iv demo_delta
                  (on_date (edate b) (liquid (df b)))
                = Ok (Fin q)).
  { eexists. eexists. split; [vm_compute; reflexivity|]. vm_compute. reflexivity. }
  destruct H as (b & q & Hb & Hc).
  destruct (curve_changes_float_zero_offsets _ _ _ _ _ _ _ b fround demo_iv demo_delta
              demo_cont_float "discrete" (curve_calc_disc_float fround demo_iv demo_delta)
              (Fin q) Hb eq_refl Hc)
    as (_ & _ & Hr).
  exists b. split; [exact Hb | exact Hr].
Defined.

(** C9 (a curvature that is not a number).  On [demo_data] with the implied
    volatility of the 90-strike put of day 1 not-a-number, the event of day
    1 is constructed and the discrete method succeeds on the anchor-day
    slice: the ATM rows are found by delta and have finite volatilities, the
    OTM put is found by moneyness and is the failed quote, so the OTM vol
    and the curvature are not-a-number.  With both offsets zero
    [curve_changes] returns not-a-number for both changes, not zero, on a
    float64 frame and on a float32 frame. *)
Lemma curve_changes_zero_offsets_nan :
  demo_iv_failed (demo_row 5 1 put 90) = NaN
  /\ exists b,
       init demo_data 1 demo_days false 1 (1 # 10) 2 = Ok b
       /\ select_method_float fround demo_iv_failed demo_delta demo_cont_float "discrete"
          = Ok (curve_calc_disc_float fround demo_iv_failed demo_delta)
       /\ curve_calc_disc_float fround demo_iv_failed demo_delta
            (on_date (edate b) (liquid (df b)))
          = Ok NaN
       /\ curve_changes_float fround demo_iv_failed demo_delta demo_cont_float b
            "discrete" 0 0
          = Ok (NaN, NaN)
       /\ curve_changes_float fround demo_iv_failed demo_delta demo_cont_float b
            "discrete" 0 0
          <> Ok (Fin 0, Fin 0)
       /\ curve_changes_float fround32 demo_iv_failed demo_delta demo_cont_float b
            "discrete" 0 0
          = Ok (NaN, NaN).
Proof.
  split; [reflexivity|].
  eexists. split; [vm_compute; reflexivity|].
  split; [reflexivity|].
  split; [vm_compute; reflexivity|].
  split; [vm_compute; reflexivity|].
  split; [vm_compute; discriminate|].
  vm_compute. reflexivity.
Qed.

(** C10, as the code has it.  On a constructed event whose anchor position
    is less than [days_before], as long as [days_before] does not exceed
    the anchor position plus the length of the calendar, the 'before'
    lookup does not raise: the negative position counts from the end of the
    calendar and yields the trading day at position
    (length + anchor position - days_before), and the 'before' curvature is
    the method applied to the slice of that day.  On an increasing
    calendar, with the anchor position counted from the start and
    [days_before] less than the length, that day is after the anchor
    date. *)
Theorem curve_changes_before_wraps (option_data : list Row) (earnings_date : Z)
  (trading_days : list Z) (bmo : bool) (hp : Z) (ww : Q) (mde : Z) (b : Backtester)
  (curve_calc_cont : list Row -> result Q) (method : string) (days_before days_after : Z) :
  init option_data earnings_date trading_days bmo hp ww mde = Ok b ->
  edate_idx b < days_before ->
  days_before <= edate_idx b + Z.of_nat (List.length (tdays b)) ->
  exists before_date,
    getitem (tdays b) (edate_idx b - days_before) = Ok before_date
    /\ nth_error (tdays b)
         (Z.to_nat (Z.of_nat (List.length (tdays b)) + edate_idx b - days_before))
       = Some before_date
    /\ curve_changes curve_calc_cont b method days_before days_after
       = (method <- select_method curve_calc_cont method ;;
          after_date <- getitem (tdays b) (edate_idx b + days_after) ;;
          before_curve <- method (on_date before_date (liquid (df b))) ;;
          after_curve <- method (on_date after_date (liquid (df b))) ;;
          earnings_curve <- method (on_date (edate b) (liquid (df b))) ;;
          Ok ((earnings_curve - before_curve)%Q, (after_curve - earnings_curve)%Q))
    /\ (StronglySorted Z.lt (tdays b) -> 0 <= edate_idx b ->
        days_before < Z.of_nat (List.length (tdays b)) ->
        edate b < before_date).
Proof.
  intros Hinit Hlt Hle.
  pose proof (init_anchor _ _ _ _ _ _ _ _ Hinit) as Ha.
  destruct (getitem_wraps (tdays b) (edate_idx b - days_before)) as [d [Hd Hn]]; [lia|].
  replace (Z.of_nat (List.length (tdays b)) + (edate_idx b - days_before))
    with (Z.of_nat (List.length (tdays b)) + edate_idx b - days_before) in Hn by lia.
  exists d. split; [exact Hd|]. split; [exact Hn|]. split.
  - unfold curve_changes. destruct (select_method curve_calc_cont method); [|reflexivity].
    unfold bind at 1. rewrite Hd. unfold bind at 1. unfold bind at 3. reflexivity.
  - intros Hs Hidx Hdb.
    apply getitem_nonneg in Ha; [|exact Hidx].
    eapply (sorted_nth_lt (tdays b)); [exact Hs | | exact Ha | exact Hn]. lia.
Qed.

Lemma curve_changes_before_wraps_witness :
  exists b before_date,
    init demo_data 1 demo_days false 1 (1 # 10) 2 = Ok b
    /\ getitem (tdays b) (edate_idx b - 3) = Ok before_date
    /\ edate b < before_date.
Proof.
  assert (H : exists b,
             init demo_data 1 demo_days false 1 (1 # 10) 2 = Ok b
             /\ tdays b = demo_days /\ edate_idx b = 0).
  { eexists. split; [vm_compute; reflexivity|]. split; reflexivity. }
  destruct H as (b & Hb & Ht & Hi).
  destruct (curve_changes_before_wraps _ _ _ _ _ _ _ b (fun _ => Raise DataRangeError)
              "discrete" 3 1 Hb) as (d & Hd & _ & _ & Hafter).
  - rewrite Hi. lia.
  - rewrite Hi, Ht. simpl. lia.
  - exists b, d. split; [exact Hb|]. split; [exact Hd|].
    apply Hafter.
    + rewrite Ht. unfold demo_days.
      repeat (constructor; [|repeat (constructor; try lia)]). constructor.
    + rewrite Hi. lia.
    + rewrite Ht. simpl. lia.
Defined.

(** C10 (counterexample without the bound on [days_before]).  With the anchor at position 0 of a
    calendar of 10 days and [days_before = 11], the position -11 is out of
    reach from the end as well: nothing wraps, the lookup raises NumPy's
    [IndexError], and [curve_changes] raises with it. *)
Lemma curve_changes_before_out_of_reach :
  exists b,
    init demo_data 1 demo_days false 1 (1 # 10) 2 = Ok b
    /\ edate_idx b < 11
    /\ Z.of_nat (List.length (tdays b)) + edate_idx b - 11 = -1
    /\ getitem (tdays b) (edate_idx b - 11)
       = Raise (IndexError "index -11 is out of bounds for axis 0 with size 10")
    /\ forall cont,
         curve_changes cont b "discrete" 11 5
         = Raise (IndexError "index -11 is out of bounds for axis 0 with size 10").
Proof.
  eexists. split; [vm_compute; reflexivity|].
  split; [simpl; lia|]. split; [reflexivity|]. split; [reflexivity|].
  intro cont. reflexivity.
Qed.

(** A lookup past either end of the calendar makes [curve_changes] raise
    NumPy's [IndexError], whose message is not ["Out of data range"]. *)
Lemma curve_changes_after_out_of_bounds (curve_calc_cont : list Row -> result Q)
  (b : Backtester) (method : string) (f : list Row -> result Q)
  (days_before days_after before_date : Z) :
  select_method curve_calc_cont method = Ok f ->
  getitem (tdays b) (edate_idx b - days_before) = Ok before_date ->
  Z.of_nat (List.length (tdays b)) <= edate_idx b + days_after ->
  exists e,
    curve_changes curve_calc_cont b method days_before days_after = Raise e
    /\ e = IndexError (out_of_bounds_msg (edate_idx b + days_after)
                                         (Z.of_nat (List.length (tdays b))))
    /\ is_data_range e = false.
Proof.
  intros Hsel Hb Hlen. eexists. split; [|split; [reflexivity|]].
  - unfold curve_changes. rewrite Hsel. unfold bind at 1.
    rewrite Hb. unfold bind at 1.
    rewrite getitem_out_of_bounds; [reflexivity | left; exact Hlen].
  - apply out_of_bounds_not_data_range.
Qed.

(** C7 (code at the failing input).  An event anchored on day 9, position 6
    of a calendar of 10 days, constructed with a holding period of 1 and a
    minimum of 2 days to expiry: [curve_changes] with its default offsets
    looks up position 11, past the end of the calendar, and raises NumPy's
    [IndexError], not the data-range error; the batch runner re-raises it,
    so the whole batch is lost, the remaining method and the remaining
    earnings date included. *)
Theorem curve_changes_past_calendar_end_aborts (curve_calc_cont : list Row -> result Q) :
  exists b,
    init demo_data 9 demo_days false 1 (1 # 10) 2 = Ok b
    /\ Z.of_nat (List.length (tdays b)) <= edate_idx b + 5
    /\ curve_changes curve_calc_cont b "continuous" 5 5
       = Raise (IndexError "index 11 is out of bounds for axis 0 with size 10")
    /\ is_data_range (IndexError "index 11 is out of bounds for axis 0 with size 10") = false
    /\ backtest_by_ticker_template curve_calc_cont demo_data [(9, false); (1, false)]
         ["curve_changes"%string; "avg_exit_size_ratio"%string] None
         {| kw_holding_period := Some 1; kw_wing_width := None; kw_min_days_expiry := Some 2 |}
       = Raise (IndexError "index 11 is out of bounds for axis 0 with size 10").
Proof.
  eexists. split; [vm_compute; reflexivity|].
  split; [simpl; lia|]. split; [reflexivity|]. split; [reflexivity|].
  vm_compute. reflexivity.
Qed.

(** ** The batch runner *)

(** The runner's test singles out exactly the data-range error. *)
Lemma is_data_range_iff (e : exn) : is_data_range e = true <-> e = DataRangeError.
Proof.
  destruct e; simpl; split; intro H; try discriminate.
  - apply String.eqb_eq in H. subst. reflexivity.
  - inversion H. reflexivity.
Qed.


Section RunnerGlobal.

Context {B : Type}.
Variable construct : Z -> bool -> result B.
Variable method_of : B -> string -> result (Kwargs -> result Value).

(** Cells are only ever added. *)
Lemma run_funcs_keeps (bt : B) (edate : Z) (funcs : list (string * Kwargs)) :
  forall (i : nat) (out out' : list Cell),
    run_funcs method_of bt edate i funcs out = Ok out' -> incl out out'.
Proof.
  induction funcs as [|[name kw] funcs IH]; simpl; intros i out out' H.
  - inversion H; subst. apply incl_refl.
  - destruct (method_of bt name) as [method|e]; simpl in H; [|discriminate].
    destruct (method kw) as [v|e].
    + apply IH in H. intros c Hc. apply H. right. exact Hc.
    + destruct (is_data_range e); [|discriminate]. apply IH in H. exact H.
Qed.

(** X24.  When the loop over the methods completes, the result of every
    call that succeeded is in the frame, at the column position of its
    method, whatever the other calls did. *)
Lemma run_funcs_records (bt : B) (edate : Z) (funcs : list (string * Kwargs)) :
  forall (i j : nat) (out out' : list Cell) name kw method v,
    run_funcs method_of bt edate i funcs out = Ok out' ->
    nth_error funcs j = Some (name, kw) ->
    method_of bt name = Ok method -> method kw = Ok v ->
    In (edate, (i + j)%nat, v) out'.
Proof.
  induction funcs as [|[name0 kw0] funcs IH]; intros i j out out' name kw method v H Hn Hm Hv.
  - destruct j; discriminate.
  - simpl in H. destruct j as [|j]; simpl in Hn.
    + inversion Hn; subst. rewrite Hm in H. simpl in H. rewrite Hv in H.
      apply run_funcs_keeps in H. apply H. rewrite Nat.add_0_r. left. reflexivity.
    + destruct (method_of bt name0) as [method0|e]; simpl in H; [|discriminate].
      replace (i + S j)%nat with (S i + j)%nat by lia.
      destruct (method0 kw0) as [v0|e].
      * eapply IH; eauto.
      * destruct (is_data_range e); [|discriminate]. eapply IH; eauto.
Qed.

Lemma run_funcs_completes (bt : B) (edate : Z) (funcs : list (string * Kwargs)) :
  (forall name kw, In (name, kw) funcs ->
     exists method, method_of bt name = Ok method /\ benign (method kw)) ->
  forall (i : nat) (out : list Cell),
    exists out', run_funcs method_of bt edate i funcs out = Ok out'.
Proof.
  induction funcs as [|[name kw] funcs IH]; simpl; intros Hb i out.
  - exists out. reflexivity.
  - destruct (Hb name kw (or_introl eq_refl)) as [method [Hm Hk]]. rewrite Hm. simpl.
    assert (Hb' : forall name kw, In (name, kw) funcs ->
                    exists method, method_of bt name = Ok method /\ benign (method kw))
      by (intros n k Hin; apply Hb; right; exact Hin).
    destruct (method kw) as [v|e]; simpl in Hk.
    + apply IH. exact Hb'.
    + rewrite Hk. apply IH. exact Hb'.
Qed.

(** X23.  A batch completes as soon as, for the earnings dates of the
    batch, the constructor returns an event or raises the data-range error
    and, on each event it returns, every requested attribute is there and
    its call with the requested keywords returns or raises the data-range
    error: data-range errors alone never abort the batch. *)
Theorem run_events_completes (earnings_dates : list (Z * bool))
  (funcs : list (string * Kwargs)) :
  (forall edate bmo, In (edate, bmo) earnings_dates -> benign (construct edate bmo)) ->
  (forall edate bmo bt, In (edate, bmo) earnings_dates -> construct edate bmo = Ok bt ->
     forall name kw, In (name, kw) funcs ->
       exists method, method_of bt name = Ok method /\ benign (method kw)) ->
  forall out, exists out', run_events construct method_of earnings_dates funcs out = Ok out'.
Proof.
  induction earnings_dates as [|[edate bmo] rest IH]; simpl; intros Hc Hm out.
  - exists out. reflexivity.
  - assert (Hc' : forall edate bmo, In (edate, bmo) rest -> benign (construct edate bmo))
      by (intros e' b' Hin; apply Hc; right; exact Hin).
    assert (Hm' : forall edate bmo bt, In (edate, bmo) rest -> construct edate bmo = Ok bt ->
                    forall name kw, In (name, kw) funcs ->
                      exists method, method_of bt name = Ok method /\ benign (method kw))
      by (intros e' b' bt' Hin; apply Hm; right; exact Hin).
    pose proof (Hc edate bmo (or_introl eq_refl)) as Hb.
    pose proof (Hm edate bmo) as Hmb.
    destruct (construct edate bmo) as [bt|e]; simpl in Hb.
    + destruct (run_funcs_completes bt edate funcs
                  (Hmb bt (or_introl eq_refl) eq_refl) O out) as [out' Ho].
      rewrite Ho. simpl. apply IH; assumption.
    + rewrite Hb. apply IH; assumption.
Qed.

End RunnerGlobal.



(** * Further properties of the code *)

(** ** Anchor resolution *)

Lemma getitem_in_range {A : Type} (l : list A) (i : Z) :
  - Z.of_nat (List.length l) <= i < Z.of_nat (List.length l) ->
  exists a, getitem l i = Ok a.
Proof.
  intros [Hlo Hhi]. destruct (Z.ltb_spec i 0) as [Hneg|Hpos].
  - destruct (getitem_wraps l i) as [a [Ha _]]; [lia|]. exists a. exact Ha.
  - unfold getitem. destruct (Z.ltb_spec i 0); [lia|].
    destruct (Z.leb_spec 0 i); [|lia].
    destruct (Z.ltb_spec i (Z.of_nat (List.length l))); [|lia]. simpl.
    destruct (nth_error l (Z.to_nat i)) eqn:E; [eexists; reflexivity|].
    apply nth_error_None in E. lia.
Qed.

Lemma getitem_Raise {A : Type} (l : list A) (i : Z) (e : exn) :
  getitem l i = Raise e ->
  e = IndexError (out_of_bounds_msg i (Z.of_nat (List.length l))).
Proof.
  unfold getitem. destruct (_ && _).
  - destruct (nth_error l _); intro H; inversion H; reflexivity.
  - intro H; inversion H; reflexivity.
Qed.

Lemma argmax_from_spec (l : list Z) :
  forall (best : Z) (bi i : nat),
    (argmax_from best bi i l = bi /\ forall y, In y l -> y <= best)
    \/ exists j x,
         argmax_from best bi i l = (i + j)%nat
         /\ nth_error l j = Some x /\ best < x /\ forall y, In y l -> y <= x.
Proof.
  induction l as [|x l IH]; intros best bi i; simpl.
  - left. split; [reflexivity | intros y []].
  - destruct (Z.ltb_spec best x) as [E|E].
    + right. destruct (IH x i (S i)) as [[Hk Hall] | [j [v [Hk [Hn [Hv Hall]]]]]].
      * exists O, x. rewrite Hk. repeat split; try lia.
        intros y [<-|Hy]; [lia | apply Hall; exact Hy].
      * exists (S j), v. rewrite Hk. repeat split; try lia; try exact Hn.
        intros y [<-|Hy]; [lia | apply Hall; exact Hy].
    + destruct (IH best bi (S i)) as [[Hk Hall] | [j [v [Hk [Hn [Hv Hall]]]]]].
      * left. split; [exact Hk|]. intros y [<-|Hy]; [lia | apply Hall; exact Hy].
      * right. exists (S j), v. rewrite Hk. repeat split; try lia; try exact Hn.
        intros y [<-|Hy]; [lia | apply Hall; exact Hy].
Qed.

Lemma argmax_spec (l : list Z) :
  l <> [] ->
  exists x, nth_error l (argmax l) = Some x /\ forall y, In y l -> y <= x.
Proof.
  destruct l as [|x l]; [congruence|]. intros _. simpl.
  destruct (argmax_from_spec l x O 1%nat) as [[Hk Hall] | [j [v [Hk [Hn [Hv Hall]]]]]].
  - exists x. rewrite Hk. split; [reflexivity|].
    intros y [<-|Hy]; [lia | apply Hall; exact Hy].
  - exists v. rewrite Hk. split; [exact Hn|].
    intros y [<-|Hy]; [lia | apply Hall; exact Hy].
Qed.

(** In an increasing sequence, the negative entries keep their positions
    under the mask that selects them. *)
Lemma negatives_keep_position (l : list Z) (k : nat) (x : Z) :
  StronglySorted Z.lt l ->
  nth_error (filter (fun d => d <? 0) l) k = Some x -> nth_error l k = Some x.
Proof.
  intros Hs. revert k. induction Hs as [|y l Hs IH Hall]; simpl; intros k Hk.
  - destruct k; discriminate.
  - destruct (Z.ltb_spec y 0) as [Hy|Hy].
    + destruct k as [|k]; simpl in *; [exact Hk | apply IH; exact Hk].
    + assert (E : filter (fun d => d <? 0) l = []).
      { clear -Hall Hy. induction l as [|z l IHl]; [reflexivity|].
        inversion Hall; subst. simpl.
        destruct (Z.ltb_spec z 0); [lia|]. apply IHl; assumption. }
      rewrite E in Hk. destruct k; discriminate.
Qed.

Lemma sorted_shift (l : list Z) (c : Z) :
  StronglySorted Z.lt l -> StronglySorted Z.lt (map (fun t => t - c) l).
Proof.
  intro Hs. induction Hs as [|z l Hs IH Hall]; simpl; constructor; [exact IH|].
  rewrite Forall_forall in *. intros y Hy. apply in_map_iff in Hy.
  destruct Hy as [w [<- Hw]]. specialize (Hall w Hw). lia.
Qed.

Lemma fix_edate_outcome (tdays : list Z) (edate : Z) (bmo : bool) :
  (fix_edate tdays edate bmo = Raise DataRangeError
   <-> ~ In edate tdays /\ forall t, In t tdays -> edate <= t)
  /\ (forall e, fix_edate tdays edate bmo = Raise e -> e = DataRangeError)
  /\ (forall idx anchor, fix_edate tdays edate bmo = Ok (idx, anchor) ->
        getitem tdays idx = Ok anchor /\ In anchor tdays).
Proof.
  assert (Hok : forall idx anchor, fix_edate tdays edate bmo = Ok (idx, anchor) ->
                getitem tdays idx = Ok anchor /\ In anchor tdays).
  { intros idx anchor H. unfold fix_edate in H. bind_inv H. destruct a as [i f0].
    simpl in H. bind_inv H. inversion H; subst. split; [exact Ha0|].
    eapply getitem_in; eauto. }
  cut ((fix_edate tdays edate bmo = Raise DataRangeError
        <-> ~ In edate tdays /\ forall t, In t tdays -> edate <= t)
       /\ (forall e, fix_edate tdays edate bmo = Raise e -> e = DataRangeError)).
  { intros [HA HB]. split; [exact HA | split; [exact HB | exact Hok]]. }
  clear Hok. unfold fix_edate.
  destruct (find_index (Z.eqb edate) tdays) as [i|] eqn:Hfind.
  - apply find_index_Some in Hfind. destruct Hfind as [a [Hnth Heq]].
    apply Z.eqb_eq in Heq. subst a.
    assert (Hlen : (i < List.length tdays)%nat) by (apply nth_error_Some; congruence).
    destruct (getitem_in_range tdays (if bmo then Z.of_nat i - 1 else Z.of_nat i)) as [a Ha].
    { destruct bmo; lia. }
    cbn [bind]. rewrite Ha. cbn [bind].
    split; [|intros e H; discriminate].
    split; [intro H; discriminate|].
    intros [Hnot _]. exfalso. apply Hnot. eapply nth_error_In; eauto.
  - pose proof (find_index_None _ _ Hfind) as Hnone.
    set (temp := filter (fun d => d <? 0) (map (fun t => t - edate) tdays)) in *.
    destruct (List.length temp =? 0)%nat eqn:Hlen.
    + apply Nat.eqb_eq in Hlen. cbn [bind].
      split; [|intros e H; inversion H; reflexivity].
      split; [|reflexivity]. intros _. split.
      * intro Hin. apply Hnone in Hin. rewrite Z.eqb_refl in Hin. discriminate.
      * intros t Ht. destruct (Z.lt_ge_cases t edate) as [Hlt|]; [|lia].
        exfalso. assert (Hin : In (t - edate) temp).
        { apply filter_In. split; [|apply Z.ltb_lt; lia].
          apply in_map_iff. exists t. split; [reflexivity | exact Ht]. }
        destruct temp; [destruct Hin | discriminate].
    + apply Nat.eqb_neq in Hlen.
      assert (Hb : (argmax temp < List.length temp)%nat).
      { apply argmax_bound. intro E. rewrite E in Hlen. apply Hlen. reflexivity. }
      assert (Hle : (List.length temp <= List.length tdays)%nat).
      { unfold temp. rewrite <- (length_map (fun t => t - edate) tdays).
        apply filter_length_le. }
      destruct (getitem_in_range tdays (Z.of_nat (argmax temp))) as [a Ha]; [lia|].
      cbn [bind]. rewrite Ha. cbn [bind].
      split; [|intros e H; discriminate].
      split; [intro H; discriminate|].
      intros [_ Hall]. exfalso.
      destruct temp as [|x temp'] eqn:Et; [apply Hlen; reflexivity|].
      assert (Hin : In x (filter (fun d => d <? 0) (map (fun t => t - edate) tdays))).
      { fold temp. rewrite Et. left. reflexivity. }
      apply filter_In in Hin. destruct Hin as [Hin Hx]. apply Z.ltb_lt in Hx.
      apply in_map_iff in Hin. destruct Hin as [t [<- Ht]]. specialize (Hall t Ht). lia.
Qed.

(** X1.  [__fix_edate] raises nothing but the data-range error, and raises
    it exactly when the earnings date is not a trading day and no trading
    day comes before it; on any other input it returns a position and the
    calendar entry at that position. *)
Theorem fix_edate_fails_iff (tdays : list Z) (edate : Z) (bmo : bool) :
  (fix_edate tdays edate bmo = Raise DataRangeError
   <-> ~ In edate tdays /\ forall t, In t tdays -> edate <= t)
  /\ (forall e, fix_edate tdays edate bmo = Raise e -> e = DataRangeError)
  /\ (forall idx anchor, fix_edate tdays edate bmo = Ok (idx, anchor) ->
        getitem tdays idx = Ok anchor /\ In anchor tdays).
Proof. exact (fix_edate_outcome tdays edate bmo). Qed.

Lemma fix_edate_fails_iff_witness :
  fix_edate demo_days 0 true = Raise DataRangeError
  /\ getitem demo_days 5 = Ok 8.
Proof.
  destruct (fix_edate_fails_iff demo_days 0 true) as [[_ H] _].
  destruct (fix_edate_fails_iff demo_days 9 true) as [_ [_ H']].
  split.
  - apply H. split.
    + simpl. intros [E|[E|[E|[E|[E|[E|[E|[E|[E|[E|[]]]]]]]]]]]; discriminate.
    + simpl. intros t [<-|[<-|[<-|[<-|[<-|[<-|[<-|[<-|[<-|[<-|[]]]]]]]]]]]; lia.
  - apply (H' 5 8). reflexivity.
Defined.

(** X2.  On an increasing calendar, when the earnings date is not a trading
    day, the anchor is the latest trading day strictly before it, its
    position counts from the start, and the before-market-open flag plays
    no part. *)
Theorem fix_edate_closest_before (tdays : list Z) (edate : Z) (bmo : bool) (idx anchor : Z) :
  StronglySorted Z.lt tdays ->
  ~ In edate tdays ->
  fix_edate tdays edate bmo = Ok (idx, anchor) ->
  anchor < edate
  /\ In anchor tdays
  /\ (forall t, In t tdays -> t < edate -> t <= anchor)
  /\ 0 <= idx
  /\ fix_edate tdays edate (negb bmo) = Ok (idx, anchor).
Proof.
  intros Hs Hnot H.
  assert (Hfind : find_index (Z.eqb edate) tdays = None).
  { destruct (find_index (Z.eqb edate) tdays) as [i|] eqn:E; [|reflexivity].
    apply find_index_Some in E. destruct E as [a [Hn He]]. apply Z.eqb_eq in He. subst a.
    exfalso. apply Hnot. eapply nth_error_In; eauto. }
  assert (Hflag : fix_edate tdays edate (negb bmo) = fix_edate tdays edate bmo).
  { unfold fix_edate. rewrite Hfind. reflexivity. }
  rewrite Hflag.
  unfold fix_edate in H. rewrite Hfind in H.
  set (diff := map (fun t => t - edate) tdays) in *.
  set (temp := filter (fun d => d <? 0) diff) in *.
  destruct (List.length temp =? 0)%nat eqn:Hlen; cbn [bind] in H; [discriminate|].
  apply Nat.eqb_neq in Hlen.
  bind_inv H. inversion H; subst idx a; clear H.
  assert (Hne : temp <> []) by (intro E; rewrite E in Hlen; apply Hlen; reflexivity).
  destruct (argmax_spec temp Hne) as [x [Hx Hmax]].
  assert (Hxneg : x < 0).
  { apply nth_error_In in Hx. apply filter_In in Hx. destruct Hx as [_ Hx].
    apply Z.ltb_lt. exact Hx. }
  apply negatives_keep_position in Hx; [|apply sorted_shift; exact Hs].
  unfold diff in Hx. rewrite nth_error_map in Hx.
  apply getitem_nonneg in Ha; [|lia]. rewrite Nat2Z.id in Ha.
  rewrite Ha in Hx. simpl in Hx. inversion Hx as [Hxa].
  split; [lia|]. split; [eapply nth_error_In; eauto|].
  split; [|split; [lia|]].
  - intros t Ht Hlt.
    assert (Hin : In (t - edate) temp).
    { apply filter_In. split; [|apply Z.ltb_lt; lia].
      apply in_map_iff. exists t. split; [reflexivity | exact Ht]. }
    specialize (Hmax _ Hin). lia.
  - unfold fix_edate. rewrite Hfind. fold diff. fold temp.
    destruct (List.length temp =? 0)%nat eqn:E; [apply Nat.eqb_eq in E; contradiction|].
    cbn [bind].
    assert (Hg : getitem tdays (Z.of_nat (argmax temp)) = Ok anchor).
    { unfold getitem.
      assert (Hl : (argmax temp < List.length tdays)%nat)
        by (apply nth_error_Some; congruence).
      destruct (Z.ltb_spec (Z.of_nat (argmax temp)) 0); [lia|].
      destruct (Z.leb_spec 0 (Z.of_nat (argmax temp))); [|lia].
      destruct (Z.ltb_spec (Z.of_nat (argmax temp)) (Z.of_nat (List.length tdays))); [|lia].
      simpl. rewrite Nat2Z.id, Ha. reflexivity. }
    rewrite Hg. reflexivity.
Qed.

Lemma demo_days_sorted : StronglySorted Z.lt demo_days.
Proof.
  unfold demo_days.
  repeat (constructor; [|repeat (constructor; try lia)]). constructor.
Qed.

Lemma fix_edate_closest_before_witness :
  5 < 7 /\ fix_edate demo_days 7 false = Ok (4, 5).
Proof.
  destruct (fix_edate_closest_before demo_days 7 true 4 5 demo_days_sorted)
    as (H & _ & _ & _ & H').
  - simpl. intros [E|[E|[E|[E|[E|[E|[E|[E|[E|[E|[]]]]]]]]]]]; discriminate.
  - reflexivity.
  - split; [exact H | exact H'].
Defined.

Lemma fix_edate_anchor_le_witness :
  8 <= 9 /\ (8 = 9 <-> true = false /\ In 9 demo_days).
Proof.
  apply (fix_edate_anchor_le demo_days 9 true 5 8 demo_days_sorted).
  - reflexivity.
  - intros _. simpl. discriminate.
Defined.

(** ** Construction *)

(** X4.  What a constructed event holds: the calendar it was given; an
    anchor position between -1 and the end of the calendar, with the anchor
    date the calendar entry at that position; as its frame exactly the rows
    of the table that expire on the chosen expiry, in table order; the wing
    width it was given; and one leg for each of the four keys, in the order
    OTM Put, ATM Put, ATM Call, OTM Call. *)
Theorem constructed_event_invariants (option_data : list Row) (earnings_date : Z)
  (trading_days : list Z) (bmo : bool) (hp : Z) (ww : Q) (mde : Z) (b : Backtester) :
  init option_data earnings_date trading_days bmo hp ww mde = Ok b ->
  tdays b = trading_days
  /\ getitem (tdays b) (edate_idx b) = Ok (edate b)
  /\ -1 <= edate_idx b < Z.of_nat (List.length (tdays b))
  /\ df b = filter (fun r => ExpirationDate r =? expiry b) option_data
  /\ (forall r, In r (df b) <-> In r option_data /\ ExpirationDate r = expiry b)
  /\ wing_width b = ww
  /\ map fst (contracts b) = [OTM_Put; ATM_Put; ATM_Call; OTM_Call].
Proof.
  intro Hinit.
  pose proof (init_anchor _ _ _ _ _ _ _ _ Hinit) as Ha.
  destruct (init_contracts _ _ _ _ _ _ _ _ Hinit) as (l1 & l2 & l3 & l4 & Hc).
  apply init_Ok in Hinit.
  destruct Hinit as (Ht & Hf & _ & Hdf & _ & _ & Hw & _).
  split; [exact Ht|]. split; [exact Ha|]. split; [|split; [exact Hdf|split; [|split]]].
  - rewrite Ht. unfold fix_edate in Hf.
    destruct (find_index (Z.eqb earnings_date) trading_days) as [i|] eqn:Hfind.
    + apply find_index_Some in Hfind. destruct Hfind as [a [Hn _]].
      assert ((i < List.length trading_days)%nat) by (apply nth_error_Some; congruence).
      cbn [bind] in Hf. bind_inv Hf. inversion Hf. destruct bmo; lia.
    + set (temp := filter (fun d => d <? 0) (map (fun t => t - earnings_date) trading_days)) in *.
      destruct (List.length temp =? 0)%nat eqn:Hlen; cbn [bind] in Hf; [discriminate|].
      apply Nat.eqb_neq in Hlen.
      assert (Hb : (argmax temp < List.length temp)%nat).
      { apply argmax_bound. intro E. rewrite E in Hlen. apply Hlen. reflexivity. }
      assert (Hle : (List.length temp <= List.length trading_days)%nat).
      { unfold temp. rewrite <- (length_map (fun t => t - earnings_date) trading_days).
        apply filter_length_le. }
      bind_inv Hf. inversion Hf. lia.
  - intro r. rewrite Hdf, filter_In, Z.eqb_eq. reflexivity.
  - exact Hw.
  - rewrite Hc. reflexivity.
Qed.

Lemma constructed_event_invariants_witness :
  exists b,
    init demo_data 9 demo_days true 1 (1 # 10) 2 = Ok b
    /\ tdays b = demo_days
    /\ getitem (tdays b) (edate_idx b) = Ok (edate b).
Proof.
  assert (H : exists b, init demo_data 9 demo_days true 1 (1 # 10) 2 = Ok b)
    by (eexists; vm_compute; reflexivity).
  destruct H as [b Hb].
  destruct (constructed_event_invariants _ _ _ _ _ _ _ b Hb) as (H1 & H2 & _).
  exists b. repeat split; assumption.
Defined.

(** ** Expiry *)

Lemma on_date_In (d : Z) (frame : list Row) (r : Row) :
  In r (on_date d frame) <-> In r frame /\ DataDate r = d.
Proof. unfold on_date. rewrite filter_In, Z.eqb_eq. reflexivity. Qed.

Lemma get_expiry_outcome (data : list Row) (tdays : list Z) (idx mde : Z) :
  (forall d, In d tdays -> exists r, In r data /\ DataDate r = d) ->
  ((exists e, getitem tdays (idx + mde) = Raise e)
   -> get_expiry data tdays idx mde = Raise DataRangeError)
  /\ (forall earliest_date,
        getitem tdays (idx + mde) = Ok earliest_date ->
        exists ser,
          get_expiry data tdays idx mde = Ok (ExpirationDate ser)
          /\ In ser data /\ DataDate ser = earliest_date
          /\ forall r, In r data -> DataDate r = earliest_date ->
                       Z.abs (DTE ser) <= Z.abs (DTE r)).
Proof.
  intro Hcal. unfold get_expiry. split.
  - intros [e He]. rewrite He. apply getitem_Raise in He. subst e. reflexivity.
  - intros d Hd. rewrite Hd. cbn [bind].
    destruct (Hcal d (getitem_in _ _ _ Hd)) as [r0 [Hr0 Hd0]].
    assert (Hne : on_date d data <> []).
    { intro E. assert (In r0 (on_date d data)) by (apply on_date_In; tauto).
      rewrite E in H. destruct H. }
    destruct (iloc_argmin_spec (fun r => inject_Z (Z.abs (DTE r))) _ Hne) as [ser [Es Fs]].
    rewrite Es. cbn [bind]. exists ser.
    pose proof (first_min_in _ _ _ Fs) as Hin. apply on_date_In in Hin.
    split; [reflexivity|]. split; [tauto|]. split; [tauto|].
    intros r Hr Hrd. destruct Fs as [k [_ [Hall _]]].
    specialize (Hall r). cbv beta in Hall. rewrite <- Zle_Qle in Hall.
    apply Hall. apply on_date_In. tauto.
Qed.

(** X5.  Where every calendar day is the date of some row of the table
    (the batch runner derives the calendar from the table), [__get_expiry]
    raises the data-range error exactly when the position [min_days_expiry]
    after the anchor is out of the calendar's reach; otherwise it returns
    the expiry of a row observed on that calendar day whose days to expiry
    are least, in absolute value, among the rows observed that day. *)
Theorem get_expiry_behaviour (data : list Row) (tdays : list Z) (idx mde : Z) :
  (forall d, In d tdays -> exists r, In r data /\ DataDate r = d) ->
  ((exists e, getitem tdays (idx + mde) = Raise e)
   -> get_expiry data tdays idx mde = Raise DataRangeError)
  /\ (forall earliest_date,
        getitem tdays (idx + mde) = Ok earliest_date ->
        exists ser,
          get_expiry data tdays idx mde = Ok (ExpirationDate ser)
          /\ In ser data /\ DataDate ser = earliest_date
          /\ forall r, In r data -> DataDate r = earliest_date ->
                       Z.abs (DTE ser) <= Z.abs (DTE r)).
Proof. exact (get_expiry_outcome data tdays idx mde). Qed.

Lemma demo_calendar_covered :
  forall d, In d demo_days -> exists r, In r demo_data /\ DataDate r = d.
Proof.
  intros d Hd. exists (demo_row 12 d put 90). split; [|reflexivity].
  simpl in Hd.
  destruct Hd as [<-|[<-|[<-|[<-|[<-|[<-|[<-|[<-|[<-|[<-|[]]]]]]]]]]];
    vm_compute; tauto.
Qed.

Lemma get_expiry_behaviour_witness :
  get_expiry demo_data demo_days 6 4 = Raise DataRangeError
  /\ exists ser, get_expiry demo_data demo_days 0 2 = Ok (ExpirationDate ser)
                 /\ DataDate ser = 3.
Proof.
  destruct (get_expiry_behaviour demo_data demo_days 6 4 demo_calendar_covered) as [H _].
  destruct (get_expiry_behaviour demo_data demo_days 0 2 demo_calendar_covered) as [_ H'].
  split.
  - apply H. eexists. reflexivity.
  - destruct (H' 3 eq_refl) as (ser & H1 & _ & H2 & _). exists ser. split; assumption.
Defined.

(** X6.  Where no row of the table is dated after its own expiry, a
    constructed event's expiry is not before the calendar day
    [min_days_expiry] positions after the anchor, and not before the anchor
    date; on an increasing calendar, with the anchor position counted from
    the start and [min_days_expiry] not negative, the expiry is at least
    [min_days_expiry] calendar days after the anchor date. *)
Theorem expiry_runway (option_data : list Row) (earnings_date : Z)
  (trading_days : list Z) (bmo : bool) (hp : Z) (ww : Q) (mde : Z) (b : Backtester) :
  (forall r, In r option_data -> DataDate r <= ExpirationDate r) ->
  init option_data earnings_date trading_days bmo hp ww mde = Ok b ->
  (exists earliest_date,
     getitem trading_days (edate_idx b + mde) = Ok earliest_date
     /\ earliest_date <= expiry b)
  /\ edate b <= expiry b
  /\ (StronglySorted Z.lt trading_days -> 0 <= edate_idx b -> 0 <= mde ->
      edate b + mde <= expiry b).
Proof.
  intros Hclean Hinit.
  pose proof (init_anchor _ _ _ _ _ _ _ _ Hinit) as Hanchor.
  destruct (init_contracts _ _ _ _ _ _ _ _ Hinit) as (l1 & l2 & l3 & l4 & Hc).
  assert (Hin : In (OTM_Put, l1) (contracts b)) by (rewrite Hc; left; reflexivity).
  destruct (leg_rows _ _ _ _ _ _ _ _ _ _ Hinit Hin) as (entry & exit_ & Hsel & _ & _).
  apply select_entry_Ok in Hsel. destruct Hsel as (_ & He & Hed & _).
  apply init_Ok in Hinit. destruct Hinit as (Ht & _ & Hexp & Hdf & _).
  rewrite Ht in Hanchor.
  assert (Hearliest : exists d, getitem trading_days (edate_idx b + mde) = Ok d /\ d <= expiry b).
  { unfold get_expiry in Hexp. bind_inv Hexp. bind_inv Hexp. inversion Hexp as [Hx].
    destruct (getitem trading_days (edate_idx b + mde)) as [d|e] eqn:Eg.
    - inversion Ha; subst a. exists d. split; [reflexivity|].
      apply iloc_argmin_Ok in Ha0. apply first_min_in in Ha0.
      apply on_date_In in Ha0. destruct Ha0 as [Hr Hd]. specialize (Hclean _ Hr). lia.
    - destruct e; discriminate. }
  split; [exact Hearliest|]. split.
  - rewrite Hdf in He. apply filter_In in He. destruct He as [He Hx].
    apply Z.eqb_eq in Hx. specialize (Hclean _ He). lia.
  - intros Hs Hidx Hmde. destruct Hearliest as [d [Hd Hle]].
    apply getitem_nonneg in Hanchor; [|lia].
    apply getitem_nonneg in Hd; [|lia].
    replace (Z.to_nat (edate_idx b + mde)) with (Z.to_nat (edate_idx b) + Z.to_nat mde)%nat in Hd
      by lia.
    pose proof (sorted_gap _ _ _ _ _ Hs Hanchor Hd). lia.
Qed.

Lemma demo_data_clean : forall r, In r demo_data -> DataDate r <= ExpirationDate r.
Proof.
  assert (H : forallb (fun r => DataDate r <=? ExpirationDate r) demo_data = true)
    by (vm_compute; reflexivity).
  rewrite forallb_forall in H. intros r Hr. apply Z.leb_le. apply H. exact Hr.
Qed.

Lemma expiry_runway_witness :
  exists b, init demo_data 1 demo_days false 1 (1 # 10) 2 = Ok b /\ edate b + 2 <= expiry b.
Proof.
  assert (H : exists b, init demo_data 1 demo_days false 1 (1 # 10) 2 = Ok b
                        /\ edate_idx b = 0)
    by (eexists; split; [vm_compute; reflexivity | reflexivity]).
  destruct H as (b & Hb & Hi).
  destruct (expiry_runway _ _ _ _ _ _ _ b demo_data_clean Hb) as (_ & _ & H).
  exists b. split; [exact Hb|].
  apply H; [exact demo_days_sorted | rewrite Hi; lia | lia].
Defined.

(** ** Exit date *)

Lemma exit_date_after_anchor_witness :
  exists b, init demo_data 1 demo_days false 1 (1 # 10) 2 = Ok b /\ edate b < exit_date b.
Proof.
  assert (H : exists b, init demo_data 1 demo_days false 1 (1 # 10) 2 = Ok b
                        /\ edate_idx b = 0 /\ expiry b = 5 /\ edate b = 1)
    by (eexists; split; [vm_compute; reflexivity | repeat split; reflexivity]).
  destruct H as (b & Hb & Hi & He & Hd).
  destruct (exit_date_after_anchor _ _ _ _ _ _ _ b demo_days_sorted Hb) as [_ H].
  - rewrite Hi. lia.
  - rewrite He, Hd. reflexivity.
  - exists b. split; [exact Hb | exact H].
Defined.

Lemma exit_date_le_expiry_witness :
  exists b, init demo_data 1 demo_days false 4 (1 # 10) 4 = Ok b /\ exit_date b <= expiry b.
Proof.
  assert (H : exists b, init demo_data 1 demo_days false 4 (1 # 10) 4 = Ok b)
    by (eexists; vm_compute; reflexivity).
  destruct H as (b & Hb).
  exists b. split; [exact Hb|].
  apply (exit_date_le_expiry _ _ _ _ _ _ _ b demo_data_clean Hb).
Defined.

(** X9.  When the anchor and the expiry are found but the position of the
    exit date is out of the calendar's reach, construction raises NumPy's
    [IndexError], which is not the data-range error: the batch runner
    re-raises it, whatever earnings dates remain. *)
Theorem init_exit_lookup_out_of_bounds (option_data : list Row) (earnings_date : Z)
  (trading_days : list Z) (bmo : bool) (hp : Z) (ww : Q) (mde : Z)
  (idx anchor exp : Z) :
  fix_edate trading_days earnings_date bmo = Ok (idx, anchor) ->
  get_expiry option_data trading_days idx mde = Ok exp ->
  Z.of_nat (List.length trading_days) <= idx + clamp_holding (exp - anchor) hp
  \/ idx + clamp_holding (exp - anchor) hp < - Z.of_nat (List.length trading_days) ->
  exists e,
    init option_data earnings_date trading_days bmo hp ww mde = Raise e
    /\ e = IndexError (out_of_bounds_msg (idx + clamp_holding (exp - anchor) hp)
                                          (Z.of_nat (List.length trading_days)))
    /\ is_data_range e = false
    /\ forall method_of rest funcs out,
         run_events (fun e' bmo' => init option_data e' trading_days bmo' hp ww mde)
                    method_of ((earnings_date, bmo) :: rest) funcs out
         = Raise e.
Proof.
  intros Hf He Hout.
  assert (Hinit : init option_data earnings_date trading_days bmo hp ww mde
                  = Raise (IndexError (out_of_bounds_msg (idx + clamp_holding (exp - anchor) hp)
                                         (Z.of_nat (List.length trading_days))))).
  { unfold init. rewrite Hf. cbn [bind]. rewrite He. cbn [bind].
    unfold get_exit_date. rewrite (getitem_out_of_bounds _ _ Hout). reflexivity. }
  eexists. split; [exact Hinit|]. split; [reflexivity|].
  split; [apply out_of_bounds_not_data_range|].
  intros method_of rest funcs out. simpl. rewrite Hinit.
  rewrite out_of_bounds_not_data_range. reflexivity.
Qed.

Lemma init_exit_lookup_out_of_bounds_witness :
  init demo_data 5 demo_days false 7 (1 # 10) 3
  = Raise (IndexError "index 11 is out of bounds for axis 0 with size 10").
Proof.
  destruct (init_exit_lookup_out_of_bounds demo_data 5 demo_days false 7 (1 # 10) 3 4 5 12)
    as (e & H & -> & _).
  - reflexivity.
  - vm_compute. reflexivity.
  - left. vm_compute. discriminate.
  - exact H.
Defined.

(** ** Underlying prices *)

Lemma on_date_sub (d : Z) (small big : list Row) :
  (forall r, In r small -> In r big) -> on_date d big = [] -> on_date d small = [].
Proof.
  intros Hsub Hbig. destruct (on_date d small) as [|r l] eqn:E; [reflexivity|].
  assert (Hin : In r (on_date d small)) by (rewrite E; left; reflexivity).
  apply on_date_In in Hin. destruct Hin as [Hin Hd].
  assert (Hin' : In r (on_date d big)) by (apply on_date_In; split; [apply Hsub|]; assumption).
  rewrite Hbig in Hin'. destruct Hin'.
Qed.

Lemma first_underlying_None (d : Z) (frame : list Row) :
  first_underlying d frame = None <-> on_date d frame = [].
Proof.
  unfold first_underlying. destruct (on_date d frame); split; intro H; congruence.
Qed.

Lemma first_underlying_Some (d : Z) (frame : list Row) (x : Q) :
  first_underlying d frame = Some x ->
  exists r, In r frame /\ DataDate r = d /\ UnderlyingPrice r = x.
Proof.
  unfold first_underlying. destruct (on_date d frame) as [|r l] eqn:E; [discriminate|].
  intro H. inversion H; subst. exists r.
  assert (Hin : In r (on_date d frame)) by (rewrite E; left; reflexivity).
  apply on_date_In in Hin. tauto.
Qed.

(** X10.  With the chain a part of the table, [__get_underlying_prices]
    raises nothing but the data-range error, and raises it exactly when the
    table has no row dated on the expiry or none dated on the anchor date;
    the prices it returns are underlying prices of rows of the table dated
    on the anchor date and on the expiry, those of the first such rows of
    the chain when the chain has both. *)
Theorem get_underlying_prices_behaviour (chain option_data : list Row) (expiry edate : Z) :
  (forall r, In r chain -> In r option_data) ->
  (get_underlying_prices chain option_data expiry edate = Raise DataRangeError
   <-> on_date expiry option_data = [] \/ on_date edate option_data = [])
  /\ (forall e, get_underlying_prices chain option_data expiry edate = Raise e ->
                e = DataRangeError)
  /\ (forall entry final,
        get_underlying_prices chain option_data expiry edate = Ok (entry, final) ->
        exists re rf,
          In re option_data /\ DataDate re = edate /\ UnderlyingPrice re = entry
          /\ In rf option_data /\ DataDate rf = expiry /\ UnderlyingPrice rf = final)
  /\ (forall entry final,
        first_underlying edate chain = Some entry ->
        first_underlying expiry chain = Some final ->
        get_underlying_prices chain option_data expiry edate = Ok (entry, final)).
Proof.
  intro Hsub. unfold get_underlying_prices, both_prices.
  destruct (first_underlying expiry chain) as [fc|] eqn:Efc;
    [destruct (first_underlying edate chain) as [ec|] eqn:Eec|].
  - destruct (first_underlying_Some _ _ _ Efc) as (rf & Hrf & Hdf & Hpf).
    destruct (first_underlying_Some _ _ _ Eec) as (re & Hre & Hde & Hpe).
    split; [|split; [|split]].
    + split; [discriminate|]. intros [H|H]; exfalso.
      * apply (on_date_sub _ chain) in H; [|exact Hsub].
        apply first_underlying_None in H. congruence.
      * apply (on_date_sub _ chain) in H; [|exact Hsub].
        apply first_underlying_None in H. congruence.
    + intros e H. discriminate.
    + intros entry final H. inversion H; subst. exists re, rf.
      repeat split; auto.
    + intros entry final H1 H2. congruence.
  - destruct (first_underlying expiry option_data) as [fo|] eqn:Efo;
      [destruct (first_underlying edate option_data) as [eo|] eqn:Eeo|].
    + split; [|split; [|split]].
      * split; [discriminate|]. intros [H|H]; exfalso;
          apply first_underlying_None in H; congruence.
      * intros e H. discriminate.
      * intros entry final H. inversion H; subst.
        destruct (first_underlying_Some _ _ _ Efo) as (rf & Hrf & Hdf & Hpf).
        destruct (first_underlying_Some _ _ _ Eeo) as (re & Hre & Hde & Hpe).
        exists re, rf. repeat split; auto.
      * intros entry final H. discriminate.
    + split; [|split; [|split]].
      * split; [|reflexivity]. intros _. right. apply first_underlying_None. exact Eeo.
      * intros e H. inversion H. reflexivity.
      * intros entry final H. discriminate.
      * intros entry final H. discriminate.
    + split; [|split; [|split]].
      * split; [|reflexivity]. intros _. left. apply first_underlying_None. exact Efo.
      * intros e H. inversion H. reflexivity.
      * intros entry final H. discriminate.
      * intros entry final H. discriminate.
  - destruct (first_underlying expiry option_data) as [fo|] eqn:Efo;
      [destruct (first_underlying edate option_data) as [eo|] eqn:Eeo|].
    + split; [|split; [|split]].
      * split; [discriminate|]. intros [H|H]; exfalso;
          apply first_underlying_None in H; congruence.
      * intros e H. discriminate.
      * intros entry final H. inversion H; subst.
        destruct (first_underlying_Some _ _ _ Efo) as (rf & Hrf & Hdf & Hpf).
        destruct (first_underlying_Some _ _ _ Eeo) as (re & Hre & Hde & Hpe).
        exists re, rf. repeat split; auto.
      * intros entry final _ H. discriminate.
    + split; [|split; [|split]].
      * split; [|reflexivity]. intros _. right. apply first_underlying_None. exact Eeo.
      * intros e H. inversion H. reflexivity.
      * intros entry final H. discriminate.
      * intros entry final _ H. discriminate.
    + split; [|split; [|split]].
      * split; [|reflexivity]. intros _. left. apply first_underlying_None. exact Efo.
      * intros e H. inversion H. reflexivity.
      * intros entry final H. discriminate.
      * intros entry final _ H. discriminate.
Qed.

Lemma get_underlying_prices_behaviour_witness :
  get_underlying_prices (demo_chain 5) demo_data 6 1 = Raise DataRangeError
  /\ get_underlying_prices (demo_chain 5) demo_data 5 1 = Ok (100, 100)%Q.
Proof.
  assert (Hsub : forall r, In r (demo_chain 5) -> In r demo_data).
  { intros r Hr. unfold demo_data. apply in_or_app. left. exact Hr. }
  destruct (get_underlying_prices_behaviour (demo_chain 5) demo_data 6 1 Hsub) as [[_ H] _].
  destruct (get_underlying_prices_behaviour (demo_chain 5) demo_data 5 1 Hsub)
    as (_ & _ & _ & H').
  split.
  - apply H. left. reflexivity.
  - apply H'; reflexivity.
Defined.

(** ** The four legs *)

Lemma get_underlying_prices_from_table (chain option_data : list Row) (expiry edate : Z)
  (entry final : Q) :
  (forall r, In r chain -> In r option_data) ->
  get_underlying_prices chain option_data expiry edate = Ok (entry, final) ->
  exists re rf,
    In re option_data /\ DataDate re = edate /\ UnderlyingPrice re = entry
    /\ In rf option_data /\ DataDate rf = expiry /\ UnderlyingPrice rf = final.
Proof.
  intros Hsub. unfold get_underlying_prices, both_prices.
  destruct (first_underlying expiry chain) as [fc|] eqn:Efc;
    [destruct (first_underlying edate chain) as [ec|] eqn:Eec|].
  - intro H. inversion H; subst.
    destruct (first_underlying_Some _ _ _ Efc) as (rf & Hrf & Hdf & Hpf).
    destruct (first_underlying_Some _ _ _ Eec) as (re & Hre & Hde & Hpe).
    exists re, rf. repeat split; auto.
  - destruct (first_underlying expiry option_data) as [fo|] eqn:Efo; [|discriminate].
    destruct (first_underlying edate option_data) as [eo|] eqn:Eeo; [|discriminate].
    intro H. inversion H; subst.
    destruct (first_underlying_Some _ _ _ Efo) as (rf & Hrf & Hdf & Hpf).
    destruct (first_underlying_Some _ _ _ Eeo) as (re & Hre & Hde & Hpe).
    exists re, rf. repeat split; auto.
  - destruct (first_underlying expiry option_data) as [fo|] eqn:Efo; [|discriminate].
    destruct (first_underlying edate option_data) as [eo|] eqn:Eeo; [|discriminate].
    intro H. inversion H; subst.
    destruct (first_underlying_Some _ _ _ Efo) as (rf & Hrf & Hdf & Hpf).
    destruct (first_underlying_Some _ _ _ Eeo) as (re & Hre & Hde & Hpe).
    exists re, rf. repeat split; auto.
Qed.

(** X11.  Every leg of a constructed event is taken from two rows of the
    table that expire on the event's expiry, are puts for the two put legs
    and calls for the two call legs, and are dated on the anchor date and on
    the exit date; the strike stored for the leg is the strike of the entry
    row, the exit row has that same strike, and the expiration value stored
    is max(0, strike - final price) for a put leg and
    max(0, final price - strike) for a call leg, the final price being the
    underlying price of a row of the table dated on the expiry. *)
Theorem legs_share_expiry_and_strike (option_data : list Row) (earnings_date : Z)
  (trading_days : list Z) (bmo : bool) (hp : Z) (ww : Q) (mde : Z)
  (b : Backtester) (c : Contract) (leg : Leg) :
  init option_data earnings_date trading_days bmo hp ww mde = Ok b ->
  In (c, leg) (contracts b) ->
  exists entry exit_ final_row,
    In entry option_data /\ In exit_ option_data
    /\ ExpirationDate entry = expiry b /\ ExpirationDate exit_ = expiry b
    /\ DataDate entry = edate b /\ DataDate exit_ = exit_date b
    /\ (c = OTM_Put \/ c = ATM_Put -> PutCallOf entry = put /\ PutCallOf exit_ = put)
    /\ (c = ATM_Call \/ c = OTM_Call -> PutCallOf entry = call /\ PutCallOf exit_ = call)
    /\ Strike leg = StrikePrice entry
    /\ (StrikePrice exit_ == Strike leg)%Q
    /\ EntryIV leg = ImpliedVolatility entry /\ ExitIV leg = ImpliedVolatility exit_
    /\ In final_row option_data /\ DataDate final_row = expiry b
    /\ (c = OTM_Put \/ c = ATM_Put ->
        ExpirationValue leg = Qmax 0 (Strike leg - UnderlyingPrice final_row))
    /\ (c = ATM_Call \/ c = OTM_Call ->
        ExpirationValue leg = Qmax 0 (UnderlyingPrice final_row - Strike leg)).
Proof.
  intros Hinit Hin.
  destruct (leg_rows _ _ _ _ _ _ _ _ _ _ Hinit Hin) as (entry & exit_ & He & Hx & ->).
  apply select_entry_Ok in He. destruct He as (_ & He1 & He2 & He3).
  apply select_exit_Ok in Hx. destruct Hx as (Hx1 & Hx2 & Hx3 & Hx4).
  apply init_Ok in Hinit. destruct Hinit as (_ & _ & _ & Hdf & _ & Hprices & _).
  assert (Hsub : forall r, In r (df b) -> In r option_data).
  { intros r Hr. rewrite Hdf in Hr. apply filter_In in Hr. tauto. }
  destruct (get_underlying_prices_from_table _ _ _ _ _ _ Hsub Hprices)
    as (re & rf & _ & _ & _ & Hrf & Hdrf & Hprf).
  rewrite Hdf in He1, Hx1. apply filter_In in He1, Hx1.
  destruct He1 as [He1 Hee]. destruct Hx1 as [Hx1 Hxe].
  apply Z.eqb_eq in Hee, Hxe.
  exists entry, exit_, rf. rewrite Hprf. simpl.
  repeat (split; [assumption|]).
  split; [intros [->| ->]; simpl in He3, Hx3; split; assumption|].
  split; [intros [->| ->]; simpl in He3, Hx3; split; assumption|].
  split; [reflexivity|]. split; [exact Hx4|]. split; [reflexivity|]. split; [reflexivity|].
  split; [exact Hrf|]. split; [exact Hdrf|].
  split; intros [->| ->]; reflexivity.
Qed.

Lemma legs_share_expiry_and_strike_witness :
  exists b leg entry final_row,
    init demo_data 1 demo_days false 1 (1 # 10) 2 = Ok b
    /\ In (ATM_Call, leg) (contracts b)
    /\ ExpirationDate entry = expiry b /\ Strike leg = StrikePrice entry
    /\ ExpirationValue leg = Qmax 0 (UnderlyingPrice final_row - Strike leg).
Proof.
  assert (H : exists b, init demo_data 1 demo_days false 1 (1 # 10) 2 = Ok b)
    by (eexists; vm_compute; reflexivity).
  destruct H as [b Hb].
  destruct (init_contracts _ _ _ _ _ _ _ _ Hb) as (l1 & l2 & l3 & l4 & Hc).
  assert (Hin : In (ATM_Call, l3) (contracts b)) by (rewrite Hc; simpl; tauto).
  destruct (legs_share_expiry_and_strike _ _ _ _ _ _ _ b ATM_Call l3 Hb Hin)
    as (entry & exit_ & rf & _ & _ & H1 & _ & _ & _ & _ & _ & H2 & _ & _ & _ & _ & _ & _ & H3).
  exists b, l3, entry, rf. repeat split; try assumption.
  apply H3. left. reflexivity.
Defined.

Lemma intrinsic_value_nonneg (row : Row) (f : PutCall) : (0 <= intrinsic_value row f)%Q.
Proof. destruct f; simpl; apply Q.le_max_l. Qed.

Lemma expiration_value_nonneg (fp k : Q) (f : PutCall) : (0 <= expiration_value fp k f)%Q.
Proof. destruct f; simpl; apply Q.le_max_l. Qed.

(** X12.  The prices of a constructed leg respect the lower bound of option
    theory where the leg is sold: a body (ATM) leg is entered at no less
    than its entry intrinsic value, a wing (OTM) leg is exited at no less
    than its exit intrinsic value; the intrinsic values and the expiration
    value stored are never negative. *)
Theorem leg_prices_floored_by_intrinsic (option_data : list Row) (earnings_date : Z)
  (trading_days : list Z) (bmo : bool) (hp : Z) (ww : Q) (mde : Z)
  (b : Backtester) (c : Contract) (leg : Leg) :
  init option_data earnings_date trading_days bmo hp ww mde = Ok b ->
  In (c, leg) (contracts b) ->
  (0 <= EntryIntrinsic leg)%Q /\ (0 <= ExitIntrinsic leg)%Q /\ (0 <= ExpirationValue leg)%Q
  /\ (wing c = false -> (EntryIntrinsic leg <= EntryPrice leg)%Q)
  /\ (wing c = true -> (ExitIntrinsic leg <= ExitPrice leg)%Q).
Proof.
  intros Hinit Hin.
  destruct (leg_rows _ _ _ _ _ _ _ _ _ _ Hinit Hin) as (entry & exit_ & _ & _ & ->).
  unfold leg_of_rows. simpl.
  split; [apply intrinsic_value_nonneg|].
  split; [apply intrinsic_value_nonneg|].
  split; [apply expiration_value_nonneg|].
  split; intro Hw; rewrite Hw; apply Q.le_max_l.
Qed.

Lemma leg_prices_floored_by_intrinsic_witness :
  exists b leg,
    init demo_data 1 demo_days false 1 (1 # 10) 2 = Ok b
    /\ In (ATM_Put, leg) (contracts b)
    /\ (EntryIntrinsic leg <= EntryPrice leg)%Q.
Proof.
  assert (H : exists b, init demo_data 1 demo_days false 1 (1 # 10) 2 = Ok b)
    by (eexists; vm_compute; reflexivity).
  destruct H as [b Hb].
  destruct (init_contracts _ _ _ _ _ _ _ _ Hb) as (l1 & l2 & l3 & l4 & Hc).
  assert (Hin : In (ATM_Put, l2) (contracts b)) by (rewrite Hc; simpl; tauto).
  destruct (leg_prices_floored_by_intrinsic _ _ _ _ _ _ _ b ATM_Put l2 Hb Hin)
    as (_ & _ & _ & H & _).
  exists b, l2. repeat split; [exact Hb | exact Hin | apply H; reflexivity].
Defined.

Lemma select_entry_outcome (chain : list Row) (edate : Z) (c : Contract) (sp : Q) :
  (on_date edate (with_flag (flag c) chain) = []
   /\ select_entry chain edate c sp = Raise DataRangeError)
  \/ (on_date edate (with_flag (flag c) chain) <> []
      /\ exists entry, select_entry chain edate c sp = Ok entry).
Proof.
  unfold select_entry.
  destruct (on_date edate (with_flag (flag c) chain)) as [|r l] eqn:E.
  - left. split; reflexivity.
  - right. split; [discriminate|].
    destruct (iloc_argmin_spec (fun r0 => Qabs (StrikeProp r0 - sp)) (r :: l)) as [x [Hx _]];
      [discriminate|].
    exists x. simpl List.length. cbn [Nat.eqb]. exact Hx.
Qed.

(** X13.  The selection of one leg raises nothing but the data-range error
    and the assertion error.  It raises the data-range error when the chain
    has no quote of the leg's side on the anchor date, and when it has one
    but no quote of that side and of the selected strike on the exit date;
    it raises the assertion error only when several rows match on the exit
    date. *)
Theorem leg_selection_failures (chain : list Row) (edate exit_date : Z) (fp : Q)
  (c : Contract) (sp : Q) :
  (on_date edate (with_flag (flag c) chain) = [] ->
   get_single_contract_info chain edate exit_date fp c sp = Raise DataRangeError)
  /\ (forall entry,
        select_entry chain edate c sp = Ok entry ->
        (forall r, In r chain -> PutCallOf r = flag c -> DataDate r = exit_date ->
                   ~ (StrikePrice r == StrikePrice entry)%Q) ->
        get_single_contract_info chain edate exit_date fp c sp = Raise DataRangeError)
  /\ (forall e,
        get_single_contract_info chain edate exit_date fp c sp = Raise e ->
        e = DataRangeError
        \/ (e = AssertionError
            /\ exists entry r1 r2 rest,
                 select_entry chain edate c sp = Ok entry
                 /\ filter (fun r => (DataDate r =? exit_date)
                                     && Qeq_bool (StrikePrice r) (StrikePrice entry))
                           (with_flag (flag c) chain) = r1 :: r2 :: rest)).
Proof.
  unfold get_single_contract_info. split; [|split].
  - intro H. destruct (select_entry_outcome chain edate c sp) as [[_ E]|[Hne _]];
      [rewrite E; reflexivity | contradiction].
  - intros entry He Hnone. rewrite He. cbn [bind]. unfold select_exit.
    destruct (filter _ (with_flag (flag c) chain)) as [|r l] eqn:E; [reflexivity|].
    exfalso.
    assert (Hin : In r (filter (fun r0 => (DataDate r0 =? exit_date)
                                          && Qeq_bool (StrikePrice r0) (StrikePrice entry))
                               (with_flag (flag c) chain)))
      by (rewrite E; left; reflexivity).
    apply filter_In in Hin. destruct Hin as [Hin Hp].
    apply andb_true_iff in Hp. destruct Hp as [Hd Hk].
    unfold with_flag in Hin. apply filter_In in Hin. destruct Hin as [Hin Hf].
    apply (Hnone r Hin).
    + destruct (PutCallOf r), (flag c); simpl in Hf; congruence.
    + apply Z.eqb_eq. exact Hd.
    + apply Qeq_bool_iff. exact Hk.
  - intros e H.
    destruct (select_entry_outcome chain edate c sp) as [[_ E]|[_ [entry E]]];
      rewrite E in H; cbn [bind] in H; [inversion H; left; reflexivity|].
    unfold select_exit in H.
    destruct (filter _ (with_flag (flag c) chain)) as [|r1 [|r2 rest]] eqn:Ef;
      cbn [bind] in H.
    + inversion H. left. reflexivity.
    + discriminate.
    + destruct (forallb _ _); cbn [bind] in H; [discriminate|].
      inversion H. right. split; [reflexivity|].
      exists entry, r1, r2, rest. split; [exact E | exact Ef].
Qed.

Lemma leg_selection_failures_witness :
  get_single_contract_info (demo_chain 5) 8 9 100 OTM_Put (9 # 10) = Raise DataRangeError
  /\ get_single_contract_info (demo_chain 5) 5 8 100 OTM_Put (9 # 10) = Raise DataRangeError.
Proof.
  destruct (leg_selection_failures (demo_chain 5) 8 9 100 OTM_Put (9 # 10)) as (H & _).
  destruct (leg_selection_failures (demo_chain 5) 5 8 100 OTM_Put (9 # 10)) as (_ & H' & _).
  split.
  - apply H. reflexivity.
  - apply (H' (demo_row 5 5 put 90)); [vm_compute; reflexivity|].
    intros r Hr _ Hd. exfalso.
    assert (Hall : forallb (fun r => negb (DataDate r =? 8)) (demo_chain 5) = true)
      by (vm_compute; reflexivity).
    rewrite forallb_forall in Hall. specialize (Hall r Hr).
    rewrite Hd in Hall. discriminate.
Defined.

(** ** What construction can raise *)

Lemma get_single_contract_info_raises (chain : list Row) (edate exit_date : Z) (fp : Q)
  (c : Contract) (sp : Q) (e : exn) :
  get_single_contract_info chain edate exit_date fp c sp = Raise e ->
  e = DataRangeError \/ e = AssertionError.
Proof.
  unfold get_single_contract_info. intro H.
  destruct (select_entry_outcome chain edate c sp) as [[_ E]|[_ [entry E]]];
    rewrite E in H; cbn [bind] in H; [inversion H; left; reflexivity|].
  unfold select_exit in H.
  destruct (filter _ (with_flag (flag c) chain)) as [|r1 [|r2 rest]]; cbn [bind] in H.
  - inversion H. left. reflexivity.
  - discriminate.
  - destruct (forallb _ _); cbn [bind] in H; [discriminate|].
    inversion H. right. reflexivity.
Qed.

Lemma get_all_contract_info_raises (chain : list Row) (edate exit_date : Z) (fp ww : Q)
  (names : list Contract) (e : exn) :
  get_all_contract_info chain edate exit_date fp ww names = Raise e ->
  e = DataRangeError \/ e = AssertionError.
Proof.
  induction names as [|c names IH]; simpl; intro H; [discriminate|].
  destruct (get_single_contract_info chain edate exit_date fp c (strike_prop_map ww c))
    as [leg|e0] eqn:E; cbn [bind] in H.
  - destruct (get_all_contract_info chain edate exit_date fp ww names) as [cs|e1];
      cbn [bind] in H; [discriminate|].
    inversion H; subst. apply IH. reflexivity.
  - inversion H; subst. eapply get_single_contract_info_raises; eauto.
Qed.

Lemma get_underlying_prices_raises (chain option_data : list Row) (expiry edate : Z) (e : exn) :
  get_underlying_prices chain option_data expiry edate = Raise e -> e = DataRangeError.
Proof.
  unfold get_underlying_prices.
  destruct (both_prices expiry edate chain); [discriminate|].
  destruct (both_prices expiry edate option_data); [discriminate|].
  intro H. inversion H. reflexivity.
Qed.

(** X14.  Where every calendar day is the date of some row of the table,
    constructing an event raises only the data-range error, the assertion
    error of duplicated exit rows that differ, or NumPy's [IndexError] for a
    position out of the calendar's reach; the batch runner skips the event
    in the first case only. *)
Theorem init_exceptions (option_data : list Row) (earnings_date : Z)
  (trading_days : list Z) (bmo : bool) (hp : Z) (ww : Q) (mde : Z) (e : exn) :
  (forall d, In d trading_days -> exists r, In r option_data /\ DataDate r = d) ->
  init option_data earnings_date trading_days bmo hp ww mde = Raise e ->
  (e = DataRangeError /\ is_data_range e = true)
  \/ (e = AssertionError /\ is_data_range e = false)
  \/ (exists i, e = IndexError (out_of_bounds_msg i (Z.of_nat (List.length trading_days)))
                /\ is_data_range e = false).
Proof.
  intros Hcal H. unfold init in H.
  destruct (fix_edate trading_days earnings_date bmo) as [[idx anchor]|e0] eqn:Ef;
    cbn [bind] in H.
  2:{ inversion H; subst e0.
      destruct (fix_edate_outcome trading_days earnings_date bmo) as (_ & Hr & _).
      rewrite (Hr e Ef). left. split; reflexivity. }
  destruct (get_expiry_outcome option_data trading_days idx mde Hcal) as [Hbad Hgood].
  destruct (getitem trading_days (idx + mde)) as [d|e0] eqn:Eg.
  2:{ rewrite Hbad in H; [|eexists; reflexivity]. cbn [bind] in H. inversion H.
      left. split; reflexivity. }
  destruct (Hgood d eq_refl) as (ser & Hexp & _). rewrite Hexp in H. cbn [bind] in H.
  unfold get_exit_date in H.
  destruct (getitem trading_days (idx + clamp_holding (ExpirationDate ser - anchor) hp))
    as [x|e0] eqn:Ex; cbn [bind] in H.
  2:{ inversion H; subst e0. apply getitem_Raise in Ex. subst e.
      right. right. eexists. split; [reflexivity|]. apply out_of_bounds_not_data_range. }
  destruct (get_underlying_prices _ option_data (ExpirationDate ser) anchor)
    as [[ep fp]|e0] eqn:Ep; cbn [bind] in H.
  2:{ inversion H; subst e0. apply get_underlying_prices_raises in Ep. subst e.
      left. split; reflexivity. }
  destruct (get_all_contract_info _ anchor x fp ww all_contracts) as [cs|e0] eqn:Ec;
    cbn [bind] in H; [discriminate|].
  inversion H; subst e0. apply get_all_contract_info_raises in Ec.
  destruct Ec as [->| ->]; [left | right; left]; split; reflexivity.
Qed.

Lemma init_exceptions_witness :
  is_data_range (IndexError "index 11 is out of bounds for axis 0 with size 10") = false.
Proof.
  destruct (init_exceptions demo_data 5 demo_days false 7 (1 # 10) 3
              (IndexError "index 11 is out of bounds for axis 0 with size 10")
              demo_calendar_covered)
    as [[H _]|[[H _]|[i [_ H]]]].
  - vm_compute. reflexivity.
  - discriminate.
  - discriminate.
  - exact H.
Defined.

(** ** Trade-level measures *)

(** X15.  On a constructed event whose entry underlying price is not zero,
    [quality_of_fill] is the net credit at entry, the entry prices of the
    two ATM legs less those of the two OTM legs, divided by the entry
    underlying price; with a positive underlying price it is positive
    exactly when the bodies bring in more than the wings cost. *)
Theorem quality_of_fill_correct (option_data : list Row) (earnings_date : Z)
  (trading_days : list Z) (bmo : bool) (hp : Z) (ww : Q) (mde : Z) (b : Backtester) :
  init option_data earnings_date trading_days bmo hp ww mde = Ok b ->
  ~ (entry_price b == 0)%Q ->
  exists l1 l2 l3 l4 x,
    contracts b = [(OTM_Put, l1); (ATM_Put, l2); (ATM_Call, l3); (OTM_Call, l4)]
    /\ quality_of_fill b = Ok x
    /\ (x == (EntryPrice l2 + EntryPrice l3 - EntryPrice l1 - EntryPrice l4)
             / entry_price b)%Q
    /\ ((0 < entry_price b)%Q ->
        ((0 < x)%Q <-> (EntryPrice l1 + EntryPrice l4 < EntryPrice l2 + EntryPrice l3)%Q)).
Proof.
  intros Hinit Hnz.
  destruct (init_contracts _ _ _ _ _ _ _ _ Hinit) as (l1 & l2 & l3 & l4 & Hc).
  exists l1, l2, l3, l4. unfold quality_of_fill. rewrite Hc.
  destruct (Qeq_bool (entry_price b) 0) eqn:E; [apply Qeq_bool_iff in E; contradiction|].
  eexists. split; [reflexivity|]. split; [reflexivity|].
  cbn [fold_left fst snd contract_name is_wing Ascii.eqb Bool.eqb].
  set (p := entry_price b) in *.
  assert (Hval : ((0 - EntryPrice l1 + EntryPrice l2 + EntryPrice l3 - EntryPrice l4) / p
                  == (EntryPrice l2 + EntryPrice l3 - EntryPrice l1 - EntryPrice l4) / p)%Q).
  { field. exact Hnz. }
  split; [exact Hval|].
  intro Hpos. rewrite Hval. split; intro H.
  - apply (Qmult_lt_compat_r _ _ p Hpos) in H.
    rewrite Qmult_0_l in H. unfold Qdiv in H.
    rewrite <- Qmult_assoc, (Qmult_comm (/ p)), Qmult_inv_r, Qmult_1_r in H by exact Hnz.
    lra.
  - apply Qlt_shift_div_l; [exact Hpos|]. lra.
Qed.

Lemma quality_of_fill_correct_witness :
  exists b x, init demo_data 1 demo_days false 1 (1 # 10) 2 = Ok b
              /\ quality_of_fill b = Ok x.
Proof.
  assert (H : exists b, init demo_data 1 demo_days false 1 (1 # 10) 2 = Ok b
                        /\ ~ (entry_price b == 0)%Q)
    by (eexists; split; [vm_compute; reflexivity | vm_compute; discriminate]).
  destruct H as (b & Hb & Hnz).
  destruct (quality_of_fill_correct _ _ _ _ _ _ _ b Hb Hnz)
    as (l1 & l2 & l3 & l4 & x & _ & Hx & _).
  exists b, x. split; assumption.
Defined.

(** X16.  On a constructed event [vol_changes] never fails, and is 100
    times the change of the mean OTM implied volatility weighted by the
    mean OTM vega, less the same product for the ATM pair, the volatilities
    averaged over put and call and the vegas over put, call, entry and
    exit; it is zero when no leg's implied volatility moved. *)
Theorem vol_changes_correct (option_data : list Row) (earnings_date : Z)
  (trading_days : list Z) (bmo : bool) (hp : Z) (ww : Q) (mde : Z) (b : Backtester) :
  init option_data earnings_date trading_days bmo hp ww mde = Ok b ->
  exists l1 l2 l3 l4 x,
    contracts b = [(OTM_Put, l1); (ATM_Put, l2); (ATM_Call, l3); (OTM_Call, l4)]
    /\ vol_changes b = Ok x
    /\ (x == 100 * (((ExitIV l1 + ExitIV l4) / 2 - (EntryIV l1 + EntryIV l4) / 2)
                    * ((EntryVega l1 + EntryVega l4 + ExitVega l1 + ExitVega l4) / 4)
                    - ((ExitIV l2 + ExitIV l3) / 2 - (EntryIV l2 + EntryIV l3) / 2)
                      * ((EntryVega l2 + EntryVega l3 + ExitVega l2 + ExitVega l3) / 4)))%Q
    /\ ((ExitIV l1 == EntryIV l1)%Q -> (ExitIV l2 == EntryIV l2)%Q ->
        (ExitIV l3 == EntryIV l3)%Q -> (ExitIV l4 == EntryIV l4)%Q -> (x == 0)%Q).
Proof.
  intro Hinit.
  destruct (init_contracts _ _ _ _ _ _ _ _ Hinit) as (l1 & l2 & l3 & l4 & Hc).
  exists l1, l2, l3, l4. unfold vol_changes, get_entry_exit. rewrite Hc.
  eexists. split; [reflexivity|]. split; [reflexivity|].
  cbn [lookup contract_name String.eqb Ascii.eqb Bool.eqb bind].
  split.
  - field.
  - intros H1 H2 H3 H4. rewrite H1, H2, H3, H4. field.
Qed.

Lemma vol_changes_correct_witness :
  exists b x, init demo_data 1 demo_days false 1 (1 # 10) 2 = Ok b /\ vol_changes b = Ok x.
Proof.
  assert (H : exists b, init demo_data 1 demo_days false 1 (1 # 10) 2 = Ok b)
    by (eexists; vm_compute; reflexivity).
  destruct H as (b & Hb).
  destruct (vol_changes_correct _ _ _ _ _ _ _ b Hb) as (l1 & l2 & l3 & l4 & x & _ & Hx & _).
  exists b, x. split; assumption.
Defined.

Lemma pnl_value (b : Backtester) (l1 l2 l3 l4 : Leg) (entry_size_ratio p : Q) :
  contracts b = [(OTM_Put, l1); (ATM_Put, l2); (ATM_Call, l3); (OTM_Call, l4)] ->
  float_product
    (Z.min (Z.min (Z.min (EntrySize l1) (EntrySize l2)) (EntrySize l3)) (EntrySize l4))
    entry_size_ratio = Some p ->
  exists x,
    pnl b entry_size_ratio = Ok x
    /\ (int_of_Q p = 0 -> x = 0%Q)
    /\ (int_of_Q p <> 0 ->
        (x == 100 * (leg_contribution (int_of_Q p) l1 - leg_contribution (int_of_Q p) l2
                     - leg_contribution (int_of_Q p) l3
                     + leg_contribution (int_of_Q p) l4))%Q).
Proof.
  intros Hc Hp. unfold pnl. rewrite Hc.
  change (py_min (map (fun cl => EntrySize (snd cl))
                      [(OTM_Put, l1); (ATM_Put, l2); (ATM_Call, l3); (OTM_Call, l4)]))
    with (@Ok Z (Z.min (Z.min (Z.min (EntrySize l1) (EntrySize l2)) (EntrySize l3))
                       (EntrySize l4))).
  cbn [bind]. rewrite Hp. cbn [bind]. set (n := int_of_Q p).
  destruct (Z.eqb_spec n 0) as [Hn|Hn].
  - exists 0%Q. split; [reflexivity|]. split; [reflexivity | contradiction].
  - eexists. split; [reflexivity|]. split; [contradiction|]. intros _.
    cbn [fold_left fst snd]. rewrite !leg_pnl_contribution.
    unfold signed_contribution. cbn [fst snd]. ring.
Qed.

(** X17.  The two extremes of [pnl] on a constructed event, with [m] the
    least entry size, [p] the float product of [m] and the entry size ratio
    (the binary64 value nearest to the exact product) and [n] the entry
    count, [p] truncated toward zero, for values that fit the 32-bit size
    columns.  When every leg can be closed in full on the exit date (its
    exit size is at least [n]), the result is 100 [n] times the net of
    (exit price - entry price) over the legs, ATM legs negated, whatever
    the expiration values.  When no leg can be closed at all (every exit size
    is 0) and [n] is not negative, it is 100 [n] times the net of
    (expiration value - entry price), whatever the exit prices. *)
Theorem pnl_extremes (option_data : list Row) (earnings_date : Z) (trading_days : list Z)
  (bmo : bool) (hp : Z) (ww : Q) (mde : Z) (b : Backtester) (entry_size_ratio : Q) :
  init option_data earnings_date trading_days bmo hp ww mde = Ok b ->
  exists l1 l2 l3 l4,
    contracts b = [(OTM_Put, l1); (ATM_Put, l2); (ATM_Call, l3); (OTM_Call, l4)]
    /\ forall p,
         float_product
           (Z.min (Z.min (Z.min (EntrySize l1) (EntrySize l2)) (EntrySize l3)) (EntrySize l4))
           entry_size_ratio = Some p ->
         let n := int_of_Q p in
         int32 n ->
         (forall leg, In leg [l1; l2; l3; l4] ->
                      int32 (ExitSize leg) /\ int32 (n - ExitSize leg)) ->
         exists x,
           pnl b entry_size_ratio = Ok x
           /\ (n <= ExitSize l1 -> n <= ExitSize l2 -> n <= ExitSize l3 -> n <= ExitSize l4 ->
               (x == 100 * inject_Z n
                     * ((ExitPrice l1 - EntryPrice l1) - (ExitPrice l2 - EntryPrice l2)
                        - (ExitPrice l3 - EntryPrice l3) + (ExitPrice l4 - EntryPrice l4)))%Q)
           /\ (0 <= n -> ExitSize l1 = 0 -> ExitSize l2 = 0 -> ExitSize l3 = 0 ->
               ExitSize l4 = 0 ->
               (x == 100 * inject_Z n
                     * ((ExpirationValue l1 - EntryPrice l1)
                        - (ExpirationValue l2 - EntryPrice l2)
                        - (ExpirationValue l3 - EntryPrice l3)
                        + (ExpirationValue l4 - EntryPrice l4)))%Q).
Proof.
  intro Hinit.
  destruct (init_contracts _ _ _ _ _ _ _ _ Hinit) as (l1 & l2 & l3 & l4 & Hc).
  exists l1, l2, l3, l4. split; [exact Hc|].
  intros p Hp n _ _.
  destruct (pnl_value b l1 l2 l3 l4 entry_size_ratio p Hc Hp) as (x & Hx & Hz & Hnz).
  fold n in Hz, Hnz.
  exists x. split; [exact Hx|]. split.
  - intros H1 H2 H3 H4. destruct (Z.eq_dec n 0) as [E|E].
    + rewrite (Hz E), E. ring.
    + rewrite (Hnz E). unfold leg_contribution.
      rewrite !Z.min_l by assumption.
      rewrite !Z.max_l by lia. ring.
  - intros Hn H1 H2 H3 H4. destruct (Z.eq_dec n 0) as [E|E].
    + rewrite (Hz E), E. ring.
    + rewrite (Hnz E). unfold leg_contribution.
      rewrite H1, H2, H3, H4, Z.sub_0_r.
      rewrite Z.min_r by lia. rewrite Z.max_r by lia. ring.
Qed.

Lemma pnl_extremes_witness :
  exists b x, init demo_data 1 demo_days false 1 (1 # 10) 2 = Ok b
              /\ pnl b (1 # 2) = Ok x /\ (x == - (200))%Q.
Proof.
  assert (H : exists b, init demo_data 1 demo_days false 1 (1 # 10) 2 = Ok b
                        /\ map snd (contracts b)
                           = [demo_leg OTM_Put; demo_leg ATM_Put; demo_leg ATM_Call;
                              demo_leg OTM_Call])
    by (eexists; split; vm_compute; reflexivity).
  destruct H as (b & Hb & Hlegs).
  destruct (pnl_extremes _ _ _ _ _ _ _ b (1 # 2) Hb) as (l1 & l2 & l3 & l4 & Hc & Hval).
  rewrite Hc in Hlegs. cbn [map snd] in Hlegs. inversion Hlegs; subst l1 l2 l3 l4.
  destruct (Hval (11 # 2)%Q) as (x & Hx & Hfull & _).
  - vm_compute. reflexivity.
  - vm_compute. split; [discriminate | reflexivity].
  - intros leg [<-|[<-|[<-|[<-|[]]]]]; vm_compute;
      repeat split; try discriminate; reflexivity.
  - exists b, x. split; [exact Hb|]. split; [exact Hx|].
    rewrite Hfull; [vm_compute; reflexivity | | | |]; vm_compute; discriminate.
Defined.

(** X18.  On a constructed event whose least entry size [m] is positive
    and whose legs can each be closed for at least [m] contracts on the exit
    date, [avg_exit_size_ratio] is 1: the ratio of a leg is capped at 1. *)
Theorem avg_exit_size_ratio_full (option_data : list Row) (earnings_date : Z)
  (trading_days : list Z) (bmo : bool) (hp : Z) (ww : Q) (mde : Z) (b : Backtester) :
  init option_data earnings_date trading_days bmo hp ww mde = Ok b ->
  exists l1 l2 l3 l4,
    contracts b = [(OTM_Put, l1); (ATM_Put, l2); (ATM_Call, l3); (OTM_Call, l4)]
    /\ let m := Z.min (Z.min (Z.min (EntrySize l1) (EntrySize l2)) (EntrySize l3))
                      (EntrySize l4) in
       (0 < m -> m <= ExitSize l1 -> m <= ExitSize l2 -> m <= ExitSize l3 ->
        m <= ExitSize l4 ->
        exists x, avg_exit_size_ratio b = Ok (VFloat x) /\ (x == 1)%Q).
Proof.
  intros Hinit.
  destruct (init_contracts _ _ _ _ _ _ _ _ Hinit) as (l1 & l2 & l3 & l4 & Hc).
  exists l1, l2, l3, l4. split; [exact Hc|].
  intros m Hm H1 H2 H3 H4.
  assert (Hratio : forall leg, m <= ExitSize leg ->
                               (Qmin 1 (inject_Z (ExitSize leg) / inject_Z m) == 1)%Q).
  { intros leg Hle. apply Q.min_l. apply Qle_shift_div_l.
    - change 0%Q with (inject_Z 0). rewrite <- Zlt_Qlt. exact Hm.
    - rewrite Qmult_1_l. rewrite <- Zle_Qle. exact Hle. }
  unfold avg_exit_size_ratio. rewrite Hc.
  change (py_min (map (fun cl => EntrySize (snd cl))
                      [(OTM_Put, l1); (ATM_Put, l2); (ATM_Call, l3); (OTM_Call, l4)]))
    with (@Ok Z m).
  cbn [bind]. destruct (Z.eqb_spec m 0) as [E|_]; [lia|].
  eexists. split; [reflexivity|].
  cbn [map snd List.length]. unfold qsum. cbn [fold_left].
  change (inject_Z (Z.of_nat 4)) with 4%Q.
  rewrite (Hratio l1 H1), (Hratio l2 H2), (Hratio l3 H3), (Hratio l4 H4). reflexivity.
Qed.

Lemma avg_exit_size_ratio_full_witness :
  exists b x, init demo_data 1 demo_days false 1 (1 # 10) 2 = Ok b
              /\ avg_exit_size_ratio b = Ok (VFloat x) /\ (x == 1)%Q.
Proof.
  assert (H : exists b, init demo_data 1 demo_days false 1 (1 # 10) 2 = Ok b
                        /\ map snd (contracts b)
                           = [demo_leg OTM_Put; demo_leg ATM_Put; demo_leg ATM_Call;
                              demo_leg OTM_Call])
    by (eexists; split; vm_compute; reflexivity).
  destruct H as (b & Hb & Hlegs).
  destruct (avg_exit_size_ratio_full _ _ _ _ _ _ _ b Hb) as (l1 & l2 & l3 & l4 & Hc & Hfull).
  rewrite Hc in Hlegs. cbn [map snd] in Hlegs. inversion Hlegs; subst l1 l2 l3 l4.
  destruct Hfull as (x & Hx & H1); [reflexivity | | | | |]; try (vm_compute; discriminate).
  exists b, x. repeat split; assumption.
Defined.

(** ** Curvature *)


(** [curve_changes] reads an event only through its calendar, its
    anchor position and date, and the liquid rows of its chain: two events
    that agree on these give the same result, so illiquid quotes, the
    expiry, the exit date, the prices and the legs play no part. *)
Theorem curve_changes_liquid_only (curve_calc_cont : list Row -> result Q)
  (b b' : Backtester) (method : string) (days_before days_after : Z) :
  tdays b = tdays b' -> edate_idx b = edate_idx b' -> edate b = edate b' ->
  liquid (df b) = liquid (df b') ->
  curve_changes curve_calc_cont b method days_before days_after
  = curve_changes curve_calc_cont b' method days_before days_after.
Proof.
  intros Ht Hi He Hl. unfold curve_changes. rewrite Ht, Hi, He, Hl. reflexivity.
Qed.

Lemma liquid_idempotent (frame : list Row) : liquid (liquid frame) = liquid frame.
Proof.
  unfold liquid. induction frame as [|r frame IH]; simpl; [reflexivity|].
  destruct (_ && _) eqn:E; simpl; [rewrite E|]; rewrite IH; reflexivity.
Qed.

Lemma curve_changes_liquid_only_witness :
  exists b,
    init demo_data 1 demo_days false 1 (1 # 10) 2 = Ok b
    /\ curve_changes demo_cont b "discrete" 0 2
       = curve_changes demo_cont
           {| tdays := tdays b; edate_idx := edate_idx b; edate := edate b; expiry := 0;
              df := liquid (df b); exit_date := 0; entry_price := 0; final_price := 0;
              wing_width := 0; contracts := [] |} "discrete" 0 2.
Proof.
  assert (H : exists b, init demo_data 1 demo_days false 1 (1 # 10) 2 = Ok b)
    by (eexists; vm_compute; reflexivity).
  destruct H as (b & Hb). exists b. split; [exact Hb|].
  apply curve_changes_liquid_only; try reflexivity.
  simpl. symmetry. apply liquid_idempotent.
Defined.

(** X20.  A method name that contains neither ["disc"] nor ["cont"] makes
    [curve_changes] raise [ValueError] before any calendar lookup, whatever
    the offsets; called through the batch runner's loop over the methods,
    that error is not skipped: it is the result of the loop. *)
Theorem curve_changes_invalid_method (curve_calc_cont : list Row -> result Q)
  (b : Backtester) (method : string) (days_before days_after : option Z)
  (edate : Z) (i : nat) (funcs : list (string * Kwargs)) (out : list Cell) :
  contains "disc" method = false ->
  contains "cont" method = false ->
  (forall db da, curve_changes curve_calc_cont b method db da
                 = Raise (ValueError "Invalid curve calculation method"))
  /\ run_funcs (getattr curve_calc_cont) b edate i
       (("curve_changes"%string,
         {| kw_method := Some method; kw_days_before := days_before;
            kw_days_after := days_after; kw_entry_size_ratio := None |}) :: funcs) out
     = Raise (ValueError "Invalid curve calculation method").
Proof.
  intros Hd Hc.
  assert (H : forall db da, curve_changes curve_calc_cont b method db da
                            = Raise (ValueError "Invalid curve calculation method")).
  { intros db da. unfold curve_changes, select_method. rewrite Hd, Hc. reflexivity. }
  split; [exact H|].
  cbn [run_funcs getattr String.eqb Ascii.eqb Bool.eqb bind is_some kw_entry_size_ratio
       kw_method kw_days_before kw_days_after default].
  rewrite H. reflexivity.
Qed.

Lemma curve_changes_invalid_method_witness :
  curve_changes demo_cont
    {| tdays := []; edate_idx := 0; edate := 0; expiry := 0; df := []; exit_date := 0;
       entry_price := 0; final_price := 0; wing_width := 0; contracts := [] |}
    "parabola" 5 5
  = Raise (ValueError "Invalid curve calculation method").
Proof.
  refine (proj1 (curve_changes_invalid_method demo_cont _ "parabola" None None 0 O [] [] _ _) 5 5);
    reflexivity.
Defined.

(** X21.  On a slice with at least one put and one call whose rows all
    carry the same implied volatility, not zero, the discrete curvature is
    1: a flat smile has no curvature. *)
Theorem curve_calc_disc_flat (slice : list Row) (v : Q) :
  with_flag put slice <> [] -> with_flag call slice <> [] ->
  (forall r, In r slice -> (ImpliedVolatility r == v)%Q) ->
  ~ (v == 0)%Q ->
  exists x, curve_calc_disc slice = Ok x /\ (x == 1)%Q.
Proof.
  intros Hp Hc Hflat Hv.
  destruct (curve_calc_disc_rows slice) as [_ Hrows].
  destruct (Hrows Hp Hc) as (ap & ac & op & oc & G1 & G2 & G3 & G4 & Hnz & _).
  cbv zeta in Hnz.
  assert (E1 := Hflat ap (first_min_in _ _ _ G1)).
  assert (E2 := Hflat ac (first_min_in _ _ _ G2)).
  assert (E3 : (ImpliedVolatility op == v)%Q).
  { apply Hflat. apply first_min_in in G3. unfold with_flag in G3.
    apply filter_In in G3. tauto. }
  assert (E4 : (ImpliedVolatility oc == v)%Q).
  { apply Hflat. apply first_min_in in G4. unfold with_flag in G4.
    apply filter_In in G4. tauto. }
  eexists. split.
  - apply Hnz. rewrite E1, E2. intro H. apply Hv.
    assert (Hv2 : (v == (v + v) / 2)%Q) by field. rewrite Hv2. exact H.
  - rewrite E1, E2, E3, E4. field. intro H. apply Hv.
    assert (Hv2 : (v == (v + v) / 2)%Q) by field. rewrite Hv2, H. reflexivity.
Qed.

Lemma curve_calc_disc_flat_witness :
  exists x,
    curve_calc_disc [deep_row put (3 # 10) (-1 # 2); deep_row call (3 # 10) (1 # 2)] = Ok x
    /\ (x == 1)%Q.
Proof.
  apply (curve_calc_disc_flat _ (3 # 10)); try discriminate.
  intros r [<-|[<-|[]]]; reflexivity.
Defined.

(** X22.  On a slice whose calls have deltas at or above 0 and whose puts
    have deltas at or below 0, with some put strictly inside (-1, 0) and
    some call strictly inside (0, 1), the two rows the discrete method
    averages for its ATM vol are a put and a call: the first put whose
    delta is nearest to -0.5 and the first call whose delta is nearest to
    +0.5. *)
Theorem curve_calc_disc_atm_by_side (slice : list Row) :
  (forall c, In c slice -> PutCallOf c = call -> (0 <= Delta c)%Q) ->
  (forall p, In p slice -> PutCallOf p = put -> (Delta p <= 0)%Q) ->
  (exists p, In p slice /\ PutCallOf p = put /\ (- (1) < Delta p)%Q /\ (Delta p < 0)%Q) ->
  (exists c, In c slice /\ PutCallOf c = call /\ (0 < Delta c)%Q /\ (Delta c < 1)%Q) ->
  exists atm_put atm_call otm_put otm_call,
    first_min (fun r => Qabs (Delta r + (1 # 2))) (with_flag put slice) atm_put
    /\ first_min (fun r => Qabs (Delta r - (1 # 2))) (with_flag call slice) atm_call
    /\ first_min (fun r => Qabs (StrikeProp r - (9 # 10))) (with_flag put slice) otm_put
    /\ first_min (fun r => Qabs (StrikeProp r - (11 # 10))) (with_flag call slice) otm_call
    /\ PutCallOf atm_put = put /\ PutCallOf atm_call = call
    /\ curve_calc_disc slice
       = if Qeq_bool ((ImpliedVolatility atm_put + ImpliedVolatility atm_call) / 2) 0
         then Raise ZeroDivisionError
         else Ok (((ImpliedVolatility otm_put + ImpliedVolatility otm_call) / 2)
                  / ((ImpliedVolatility atm_put + ImpliedVolatility atm_call) / 2))%Q.
Proof.
  intros Hcalls Hputs Hp Hc.
  assert (Hpne : with_flag put slice <> []).
  { destruct Hp as (p & Hin & Hf & _). intro E.
    assert (In p (with_flag put slice))
      by (apply filter_In; split; [exact Hin | rewrite Hf; reflexivity]).
    rewrite E in H. destruct H. }
  assert (Hcne : with_flag call slice <> []).
  { destruct Hc as (c & Hin & Hf & _). intro E.
    assert (In c (with_flag call slice))
      by (apply filter_In; split; [exact Hin | rewrite Hf; reflexivity]).
    rewrite E in H. destruct H. }
  destruct (curve_calc_disc_rows slice) as [_ Hrows].
  destruct (Hrows Hpne Hcne) as (ap & ac & op & oc & G1 & G2 & G3 & G4 & Hnz & Hz).
  cbv zeta in Hnz, Hz.
  pose proof (nearest_minus_half_is_put slice ap G1 Hcalls Hp) as Sp.
  pose proof (nearest_plus_half_is_call slice ac G2 Hputs Hc) as Sc.
  exists ap, ac, op, oc.
  split; [apply first_min_filter; [exact G1 | rewrite Sp; reflexivity]|].
  split; [apply first_min_filter; [exact G2 | rewrite Sc; reflexivity]|].
  split; [exact G3|]. split; [exact G4|]. split; [exact Sp|]. split; [exact Sc|].
  destruct (Qeq_bool _ _) eqn:E.
  - apply Hz. apply Qeq_bool_iff. exact E.
  - apply Hnz. intro H. apply Qeq_bool_iff in H. congruence.
Qed.

Lemma curve_calc_disc_atm_by_side_witness :
  exists atm_put atm_call,
    PutCallOf atm_put = put /\ PutCallOf atm_call = call
    /\ In atm_put [deep_row put (3 # 10) (-1 # 2); deep_row call (3 # 10) (1 # 2)]
    /\ In atm_call [deep_row put (3 # 10) (-1 # 2); deep_row call (3 # 10) (1 # 2)].
Proof.
  destruct (curve_calc_disc_atm_by_side
              [deep_row put (3 # 10) (-1 # 2); deep_row call (3 # 10) (1 # 2)])
    as (ap & ac & _ & _ & F1 & F2 & _ & _ & Sp & Sc & _).
  - intros c [<-|[<-|[]]]; [discriminate | intros _; vm_compute; discriminate].
  - intros p [<-|[<-|[]]]; [intros _; vm_compute; discriminate | discriminate].
  - exists (deep_row put (3 # 10) (-1 # 2)).
    split; [left; reflexivity|]. repeat split; vm_compute; reflexivity.
  - exists (deep_row call (3 # 10) (1 # 2)).
    split; [right; left; reflexivity|]. repeat split; vm_compute; reflexivity.
  - exists ap, ac. split; [exact Sp|]. split; [exact Sc|].
    apply first_min_in in F1, F2. unfold with_flag in F1, F2.
    apply filter_In in F1, F2. tauto.
Defined.

(** ** The batch runner, as a whole *)

Lemma run_funcs_provenance {B : Type}
  (method_of : B -> string -> result (Kwargs -> result Value))
  (bt : B) (edate : Z) (funcs : list (string * Kwargs)) :
  forall (i : nat) (out out' : list Cell),
    run_funcs method_of bt edate i funcs out = Ok out' ->
    forall cell, In cell out' ->
      In cell out
      \/ exists j name kw method v,
           nth_error funcs j = Some (name, kw)
           /\ method_of bt name = Ok method /\ method kw = Ok v
           /\ cell = (edate, (i + j)%nat, v).
Proof.
  induction funcs as [|[name kw] funcs IH]; simpl; intros i out out' H cell Hin.
  - inversion H; subst. left. exact Hin.
  - destruct (method_of bt name) as [method|e] eqn:Em; simpl in H; [|discriminate].
    destruct (method kw) as [v|e] eqn:Ek.
    + destruct (IH _ _ _ H cell Hin) as [[Hc|Hc]|(j & n' & k' & m' & v' & Hn & Hm & Hv & Hc)].
      * right. exists O, name, kw, method, v. rewrite Nat.add_0_r.
        repeat split; auto.
      * left. exact Hc.
      * right. exists (S j), n', k', m', v'. repeat split; auto.
        rewrite Hc. f_equal. f_equal. lia.
    + destruct (is_data_range e); [|discriminate].
      destruct (IH _ _ _ H cell Hin) as [Hc|(j & n' & k' & m' & v' & Hn & Hm & Hv & Hc)].
      * left. exact Hc.
      * right. exists (S j), n', k', m', v'. repeat split; auto.
        rewrite Hc. f_equal. f_equal. lia.
Qed.

(** X25.  When a batch completes, every cell of the frame beyond those it
    started with holds the result of a call that succeeded, of the method
    at the cell's column position, on an event that was constructed for the
    cell's earnings date: a skipped event and a skipped method leave no
    cell. *)
Theorem run_events_provenance {B : Type} (construct : Z -> bool -> result B)
  (method_of : B -> string -> result (Kwargs -> result Value))
  (earnings_dates : list (Z * bool)) (funcs : list (string * Kwargs)) :
  forall (out out' : list Cell),
    run_events construct method_of earnings_dates funcs out = Ok out' ->
    forall cell, In cell out' ->
      In cell out
      \/ exists e bmo bt j name kw method v,
           In (e, bmo) earnings_dates /\ construct e bmo = Ok bt
           /\ nth_error funcs j = Some (name, kw)
           /\ method_of bt name = Ok method /\ method kw = Ok v
           /\ cell = (e, j, v).
Proof.
  induction earnings_dates as [|[edate bmo] rest IH]; simpl; intros out out' H cell Hin.
  - inversion H; subst. left. exact Hin.
  - destruct (construct edate bmo) as [bt|e] eqn:Ec.
    + destruct (run_funcs method_of bt edate O funcs out) as [mid|e] eqn:Er;
        cbn [bind] in H; [|discriminate].
      destruct (IH _ _ H cell Hin)
        as [Hc|(e' & b' & bt' & j & n' & k' & m' & v' & Hi & Hb & Hn & Hm & Hv & Hc)].
      * destruct (run_funcs_provenance _ _ _ _ _ _ _ Er cell Hc)
          as [Ho|(j & n' & k' & m' & v' & Hn & Hm & Hv & Hcell)].
        -- left. exact Ho.
        -- right. exists edate, bmo, bt, j, n', k', m', v'. repeat split; auto.
      * right. exists e', b', bt', j, n', k', m', v'. repeat split; auto.
    + destruct (is_data_range e); [|discriminate].
      destruct (IH _ _ H cell Hin)
        as [Hc|(e' & b' & bt' & j & n' & k' & m' & v' & Hi & Hb & Hn & Hm & Hv & Hc)].
      * left. exact Hc.
      * right. exists e', b', bt', j, n', k', m', v'. repeat split; auto.
Qed.

Lemma toy_construct_benign : forall edate bmo, benign (toy_construct edate bmo).
Proof. intros edate bmo. unfold toy_construct. destruct (edate =? 0); reflexivity. Qed.

Lemma toy_methods_benign :
  forall bt name, exists method,
    toy_method_of bt name = Ok method /\ forall kw, benign (method kw).
Proof.
  intros bt name. eexists. split; [reflexivity|].
  intro kw. simpl. destruct (String.eqb name "gap"); reflexivity.
Qed.

Lemma run_events_provenance_witness :
  exists e bmo bt,
    In (e, bmo) [(0, false); (3, false)] /\ toy_construct e bmo = Ok bt.
Proof.
  destruct (run_events_provenance toy_construct toy_method_of [(0, false); (3, false)]
              [("gap"%string, no_kwargs); ("pnl"%string, no_kwargs)] []
              [(3, 1%nat, VFloat (inject_Z 3))] eq_refl
              (3, 1%nat, VFloat (inject_Z 3)) (or_introl eq_refl))
    as [[]|(e & bmo & bt & j & n & k & m & v & Hi & Hb & _)].
  exists e, bmo, bt. split; assumption.
Defined.

Lemma run_events_completes_witness :
  exists out',
    run_events demo_construct (getattr demo_cont) [(0, false); (1, false)]
      [("curve_changes"%string, demo_skewed); ("avg_exit_size_ratio"%string, no_kwargs)] []
    = Ok out'.
Proof.
  apply (run_events_completes demo_construct (getattr demo_cont)).
  - intros edate bmo [H|[H|[]]]; inversion H; subst; vm_compute; [reflexivity | exact I].
  - intros edate bmo bt [H|[H|[]]] Hc; inversion H; subst;
      vm_compute in Hc; [discriminate|].
    inversion Hc; subst bt.
    intros name kw [Hn|[Hn|[]]]; inversion Hn; subst;
      (eexists; split; [reflexivity|]); vm_compute; [reflexivity | exact I].
Defined.

Lemma run_funcs_records_witness :
  exists out',
    run_funcs toy_method_of 3 3 O [("gap"%string, no_kwargs); ("pnl"%string, no_kwargs)] []
    = Ok out'
    /\ In (3, 1%nat, VFloat (inject_Z 3)) out'.
Proof.
  eexists. split; [reflexivity|].
  apply (run_funcs_records toy_method_of 3 3
           [("gap"%string, no_kwargs); ("pnl"%string, no_kwargs)] O 1%nat []
           [(3, 1%nat, VFloat (inject_Z 3))] "pnl"%string no_kwargs
           (fun _ => Ok (VFloat (inject_Z 3))) (VFloat (inject_Z 3)));
    reflexivity.
Defined.

(** ** The continuous method *)

Lemma filter_filter_or {A : Type} (p q : A -> bool) (l : list A) :
  filter p (filter (fun a => p a || q a) l) = filter p l.
Proof.
  induction l as [|a l IH]; simpl; [reflexivity|].
  destruct (p a) eqn:Ep; simpl; [rewrite Ep, IH; reflexivity|].
  destruct (q a); simpl; [rewrite Ep|]; exact IH.
Qed.

Lemma filter_filter_or_r {A : Type} (p q : A -> bool) (l : list A) :
  filter q (filter (fun a => p a || q a) l) = filter q l.
Proof.
  induction l as [|a l IH]; simpl; [reflexivity|].
  destruct (q a) eqn:Eq; destruct (p a); simpl; try rewrite Eq; try rewrite IH; reflexivity.
Qed.

(** X26.  The continuous method, whatever its numerical core does: it
    raises the data-range error when the slice has no put at or below the
    money or no call at or above it, and when the core reports the rank
    warning; any other exception it raises is the core's; and its result
    depends only on the puts at or below the money and the calls at or
    above it, so in-the-money rows play no part. *)
Theorem curve_calc_cont_of_behaviour (polyfit : list Row -> option (result Q))
  (slice : list Row) :
  let put_side :=
    filter (fun r => PutCall_eqb (PutCallOf r) put && Qle_bool (StrikeProp r) 1) slice in
  let call_side :=
    filter (fun r => PutCall_eqb (PutCallOf r) call && Qle_bool 1 (StrikeProp r)) slice in
  (put_side = [] \/ call_side = [] -> curve_calc_cont_of polyfit slice = Raise DataRangeError)
  /\ (polyfit (put_side ++ call_side) = None ->
      curve_calc_cont_of polyfit slice = Raise DataRangeError)
  /\ (forall e, curve_calc_cont_of polyfit slice = Raise e ->
                e = DataRangeError \/ polyfit (put_side ++ call_side) = Some (Raise e))
  /\ curve_calc_cont_of polyfit (filter on_surface slice) = curve_calc_cont_of polyfit slice.
Proof.
  intros put_side call_side. split; [|split; [|split]].
  - intros [H|H]; unfold curve_calc_cont_of; fold put_side call_side; rewrite H.
    + reflexivity.
    + simpl. rewrite orb_true_r. reflexivity.
  - intro H. unfold curve_calc_cont_of. fold put_side call_side.
    destruct (_ || _); [reflexivity|]. rewrite H. reflexivity.
  - intros e H. unfold curve_calc_cont_of in H. fold put_side call_side in H.
    destruct (_ || _); [inversion H; left; reflexivity|].
    destruct (polyfit (put_side ++ call_side)) as [[q|e0]|].
    + discriminate.
    + inversion H. right. reflexivity.
    + inversion H. left. reflexivity.
  - unfold curve_calc_cont_of, on_surface.
    rewrite filter_filter_or, filter_filter_or_r. reflexivity.
Qed.

Lemma curve_calc_cont_of_behaviour_witness :
  curve_calc_cont_of (fun _ => Some (Ok 1%Q)) [deep_row call (3 # 10) (1 # 2)]
  = Raise DataRangeError.
Proof.
  exact (proj1 (curve_calc_cont_of_behaviour (fun _ => Some (Ok 1%Q))
                  [deep_row call (3 # 10) (1 # 2)])
               (or_introl eq_refl)).
Defined.

(** ** The discrete method on floats *)

Lemma fargmin_from_bound (l : list pyfloat) :
  forall best bi i, (bi < i)%nat -> (fargmin_from best bi i l < i + List.length l)%nat.
Proof.
  induction l as [|x l IH]; simpl; intros best bi i H; [lia|].
  destruct (fltb x best).
  - specialize (IH x i (S i)). lia.
  - specialize (IH best bi (S i)). lia.
Qed.

Lemma nanargmin_bound (l : list pyfloat) :
  l <> [] -> -1 <= nanargmin l < Z.of_nat (List.length l).
Proof.
  intros Hne. destruct l as [|x l]; [congruence|].
  unfold nanargmin. destruct (forallb isnan (x :: l)).
  - simpl List.length. lia.
  - cbn [map fargmin List.length].
    pose proof (fargmin_from_bound (map (fun x => if isnan x then PInf else x) l)
                  (if isnan x then PInf else x) O 1%nat) as H.
    rewrite length_map in H. lia.
Qed.

(** On a frame with rows the nearest-row lookup returns one of them. *)
Lemma iloc_nanargmin_Ok {A : Type} (score : A -> pyfloat) (df : list A) :
  df <> [] -> exists r, iloc_nanargmin score df = Ok r /\ In r df.
Proof.
  intros Hne. destruct df as [|a df']; [congruence|].
  unfold iloc_nanargmin.
  destruct (getitem_in_range (a :: df') (nanargmin (map score (a :: df')))) as [r Hr].
  { pose proof (nanargmin_bound (map score (a :: df'))) as H.
    rewrite length_map in H.
    assert (Hm : map score (a :: df') <> []) by discriminate.
    specialize (H Hm). cbn [List.length] in *. lia. }
  exists r. split; [exact Hr | eapply getitem_in; exact Hr].
Qed.

Lemma truediv_two (a : pyfloat) :
  exists v, truediv a (Fin 2) = Ok v /\ (a = NaN -> v = NaN).
Proof.
  unfold truediv. change (Qeq_bool 2 0) with false. cbv iota.
  eexists. split; [reflexivity|]. intros ->. reflexivity.
Qed.

Lemma fadd_nan (a b : pyfloat) : a = NaN \/ b = NaN -> fadd a b = NaN.
Proof. intros [->| ->]; [reflexivity | destruct a; reflexivity]. Qed.

Lemma truediv_nan (b : pyfloat) :
  truediv NaN b = Ok NaN \/ truediv NaN b = Raise ZeroDivisionError.
Proof.
  destruct b as [q| | |]; simpl; try (left; reflexivity).
  destruct (Qeq_bool q 0); [right | left]; reflexivity.
Qed.

(** X27.  The discrete method on floats, for either dtype and any values
    of the two model columns.  It fails with the data-range error exactly
    when the slice is empty or has no put or no call.  Otherwise it takes
    two rows of the slice for the ATM vol and a put and a call of the slice
    for the OTM vol, and its outcome is the Python quotient of the two
    means.  When the implied volatility of the chosen OTM put or OTM call
    is not-a-number, nothing signals it: the method returns not-a-number,
    unless the ATM vol is zero and the division raises. *)
Theorem curve_calc_disc_float_behaviour (dtype : Q -> pyfloat) (iv delta : Row -> pyfloat)
  (df : list Row) :
  (curve_calc_disc_float dtype iv delta df = Raise DataRangeError
   <-> df = [] \/ with_flag put df = [] \/ with_flag call df = [])
  /\ (with_flag put df <> [] -> with_flag call df <> [] ->
      exists atm_put atm_call otm_put otm_call atm_vol otm_vol,
        In atm_put df /\ In atm_call df
        /\ In otm_put (with_flag put df) /\ In otm_call (with_flag call df)
        /\ truediv (fadd (iv atm_put) (iv atm_call)) (Fin 2) = Ok atm_vol
        /\ truediv (fadd (iv otm_put) (iv otm_call)) (Fin 2) = Ok otm_vol
        /\ curve_calc_disc_float dtype iv delta df = truediv otm_vol atm_vol
        /\ (iv otm_put = NaN \/ iv otm_call = NaN ->
            curve_calc_disc_float dtype iv delta df = Ok NaN
            \/ curve_calc_disc_float dtype iv delta df = Raise ZeroDivisionError)).
Proof.
  destruct df as [|r0 df'].
  { split.
    - split; [intros _; left; reflexivity | intros _; reflexivity].
    - intros H; exfalso; apply H; reflexivity. }
  set (df := r0 :: df').
  assert (Hne : df <> []) by discriminate.
  destruct (iloc_nanargmin_Ok
              (fun r => fabs (fadd_with dtype (delta r) (dtype (1 # 2)%Q))) df Hne)
    as [ap [Eap Iap]].
  destruct (iloc_nanargmin_Ok
              (fun r => fabs (fsub_with dtype (delta r) (dtype (1 # 2)%Q))) df Hne)
    as [ac [Eac Iac]].
  destruct (truediv_two (fadd (iv ap) (iv ac))) as [atm_vol [Eatm _]].
  assert (Hshape :
    curve_calc_disc_float dtype iv delta df =
    if (List.length (with_flag put df) =? 0)%nat || (List.length (with_flag call df) =? 0)%nat
    then Raise DataRangeError
    else
      otm_put <- iloc_nanargmin
                   (fun r => fabs (fsub_with dtype (Fin (StrikeProp r)) (dtype (9 # 10)%Q)))
                   (with_flag put df) ;;
      otm_call <- iloc_nanargmin
                    (fun r => fabs (fsub_with dtype (Fin (StrikeProp r)) (dtype (11 # 10)%Q)))
                    (with_flag call df) ;;
      otm_vol <- truediv (fadd (iv otm_put) (iv otm_call)) (Fin 2) ;;
      truediv otm_vol atm_vol).
  { unfold curve_calc_disc_float. rewrite (length_nonzero df Hne).
    rewrite Eap. unfold bind at 1. rewrite Eac. unfold bind at 1.
    rewrite Eatm. unfold bind at 1. reflexivity. }
  assert (Hrows : with_flag put df <> [] -> with_flag call df <> [] ->
    exists op oc otm_vol,
      In op (with_flag put df) /\ In oc (with_flag call df)
      /\ truediv (fadd (iv op) (iv oc)) (Fin 2) = Ok otm_vol
      /\ (iv op = NaN \/ iv oc = NaN -> otm_vol = NaN)
      /\ curve_calc_disc_float dtype iv delta df = truediv otm_vol atm_vol).
  { intros Hp Hc.
    destruct (iloc_nanargmin_Ok
                (fun r => fabs (fsub_with dtype (Fin (StrikeProp r)) (dtype (9 # 10)%Q)))
                _ Hp) as [op [Eop Iop]].
    destruct (iloc_nanargmin_Ok
                (fun r => fabs (fsub_with dtype (Fin (StrikeProp r)) (dtype (11 # 10)%Q)))
                _ Hc) as [oc [Eoc Ioc]].
    destruct (truediv_two (fadd (iv op) (iv oc))) as [otm_vol [Eotm Hnan]].
    exists op, oc, otm_vol.
    split; [exact Iop|]. split; [exact Ioc|]. split; [exact Eotm|].
    split; [intro H; apply Hnan; apply fadd_nan; exact H|].
    rewrite Hshape, (length_nonzero _ Hp), (length_nonzero _ Hc). simpl orb. cbv iota.
    rewrite Eop. unfold bind at 1. rewrite Eoc. unfold bind at 1.
    rewrite Eotm. reflexivity. }
  split.
  - split.
    + intro H.
      destruct (with_flag put df) as [|p ps] eqn:Ep; [right; left; reflexivity|].
      destruct (with_flag call df) as [|c cs] eqn:Ec; [right; right; reflexivity|].
      exfalso.
      destruct Hrows as (op & oc & otm_vol & _ & _ & _ & _ & Hcurve); try discriminate.
      rewrite Hcurve in H. unfold truediv in H.
      destruct atm_vol as [y| | |]; try discriminate.
      destruct (Qeq_bool y 0); discriminate.
    + intros [H|[H|H]]; [discriminate| |]; rewrite Hshape, H; simpl.
      * reflexivity.
      * rewrite orb_true_r. reflexivity.
  - intros Hp Hc.
    destruct (Hrows Hp Hc) as (op & oc & otm_vol & Iop & Ioc & Eotm & Hnan & Hcurve).
    exists ap, ac, op, oc, atm_vol, otm_vol.
    repeat (split; [assumption|]).
    intro H. rewrite Hcurve, (Hnan H). apply truediv_nan.
Qed.

Lemma curve_calc_disc_float_behaviour_witness :
  curve_calc_disc_float fround32
    (fun r => match PutCallOf r with put => NaN | call => Fin (ImpliedVolatility r) end)
    (fun r => Fin (Delta r)) deep_slice
  = Ok NaN.
Proof.
  destruct (curve_calc_disc_float_behaviour fround32
              (fun r => match PutCallOf r with put => NaN | call => Fin (ImpliedVolatility r) end)
              (fun r => Fin (Delta r)) deep_slice) as [_ H].
  destruct H as (ap & ac & op & oc & atm_vol & otm_vol & _ & _ & Iop & _ & _ & _ & _ & Hnan);
    [discriminate | discriminate |].
  destruct Hnan as [Hn|Hn].
  - left. destruct Iop as [E|[]]. rewrite <- E. reflexivity.
  - exact Hn.
  - exfalso. revert Hn. vm_compute. discriminate.
Defined.
